(** * agents-usage: the usage-to-cost resolution engine

    A shallow embedding of [src/pricing.ts], of the two log readers of
    [src/loaders.ts], of [src/reporting/aggregate.ts] and of the helpers
    of [src/utils.ts] they call, followed by the properties the
    specification states about them and by further properties of the
    code.

    Conventions of the embedding.
    - A JavaScript [number] is a binary64 float: Rocq's primitive [float],
      with the IEEE operations of [PrimFloat].
    - A JavaScript string is a [string]; every [ascii] stands for one
      UTF-16 code unit in the range 0..255.
    - A value produced by [JSON.parse] is a [json]; an object is the list of
      its own properties in enumeration order, each key once, and inherits
      the members of [Object.prototype].
    - File system, clock and network are an explicit [World] threaded
      through a small state monad that also logs every effect. *)

From Stdlib Require Import Bool List Arith ZArith Lia Ascii String DecimalString.
From Stdlib Require Import Floats.
Import ListNotations.

Set Implicit Arguments.
Set Warnings "-register-all".

(* ================================================================= *)
(** * JavaScript numbers *)

Module JsNumber.

Definition number := float.
Bind Scope float_scope with number.

Local Open Scope float_scope.

(** [Number.isFinite(x)] for an [x] that is a number. *)
Definition isFinite (x : number) : bool := PrimFloat.is_finite x.

(** [Number.isNaN(x)]. *)
Definition isNaN (x : number) : bool := PrimFloat.is_nan x.

(** [x === +0 && 1/x < 0], the sign test that tells [-0] from [+0]. *)
Definition isNegZero (x : number) : bool :=
  match classify x with NZero => true | _ => false end.

Definition isPosZero (x : number) : bool :=
  match classify x with PZero => true | _ => false end.

(** [Math.max(a, b)]: NaN if either is NaN, and [+0] is larger than [-0]. *)
Definition Math_max (a b : number) : number :=
  if isNaN a || isNaN b then nan
  else if a <? b then b
  else if b <? a then a
  else if isNegZero a then b else a.

(** [Math.min(a, b)]: NaN if either is NaN, and [-0] is smaller than [+0]. *)
Definition Math_min (a b : number) : number :=
  if isNaN a || isNaN b then nan
  else if a <? b then a
  else if b <? a then b
  else if isPosZero a then b else a.

(** [a === b] on numbers. *)
Definition strictEq (a b : number) : bool := a =? b.

End JsNumber.

(* ================================================================= *)
(** * JavaScript strings *)

Module JsString.

Local Open Scope string_scope.
Local Open Scope nat_scope.

Definition codeUnit (c : ascii) : nat := nat_of_ascii c.

(** White space and line terminators that [String.prototype.trim] strips,
    among the code units 0..255: TAB, LF, VT, FF, CR, SP and NBSP. *)
Definition isWhiteSpace (c : ascii) : bool :=
  let n := codeUnit c in
  ((9 <=? n) && (n <=? 13)) || (n =? 32) || (n =? 160).

Fixpoint trimStart (s : string) : string :=
  match s with
  | String c rest => if isWhiteSpace c then trimStart rest else s
  | EmptyString => EmptyString
  end.

Fixpoint trimEnd (s : string) : string :=
  match s with
  | EmptyString => EmptyString
  | String c rest =>
      match trimEnd rest with
      | EmptyString => if isWhiteSpace c then EmptyString else String c EmptyString
      | kept => String c kept
      end
  end.

(** [s.trim()] *)
Definition trim (s : string) : string := trimEnd (trimStart s).

(** Lower-casing of one code unit: A..Z, and the Latin-1 capitals
    U+00C0..U+00DE without the multiplication sign U+00D7. *)
Definition lowerUnit (c : ascii) : ascii :=
  let n := codeUnit c in
  if ((65 <=? n) && (n <=? 90))
     || ((192 <=? n) && (n <=? 222) && negb (n =? 215))
  then ascii_of_nat (n + 32) else c.

(** [s.toLowerCase()] *)
Fixpoint toLowerCase (s : string) : string :=
  match s with
  | EmptyString => EmptyString
  | String c rest => String (lowerUnit c) (toLowerCase rest)
  end.

(** [s.startsWith(p)] *)
Definition startsWith (s p : string) : bool := String.prefix p s.

(** [s.includes(sub)] *)
Fixpoint includes (s sub : string) : bool :=
  startsWith s sub ||
  match s with
  | EmptyString => false
  | String _ rest => includes rest sub
  end.

(** [s.endsWith(suffix)] *)
Definition endsWith (s suffix : string) : bool :=
  let n := String.length s in
  let m := String.length suffix in
  (m <=? n) && String.eqb (substring (n - m) m s) suffix.

(** [s.slice(0, -k)] for a positive [k]. *)
Definition sliceDropEnd (s : string) (k : nat) : string :=
  substring 0 (String.length s - k) s.

(** [s.slice(k)] for a non-negative [k]. *)
Fixpoint sliceFrom (k : nat) (s : string) : string :=
  match k, s with
  | O, _ => s
  | S k', String _ rest => sliceFrom k' rest
  | S _, EmptyString => EmptyString
  end.

(** ** The two regular expressions of [maybeVersionAlias] *)

(** [\d] *)
Definition isDigit (c : ascii) : bool :=
  let n := codeUnit c in (48 <=? n) && (n <=? 57).

(** The longest run of digits at the start of [s], and what follows. *)
Fixpoint spanDigits (s : string) : string * string :=
  match s with
  | String c rest =>
      if isDigit c
      then let '(ds, tl) := spanDigits rest in (String c ds, tl)
      else (EmptyString, s)
  | EmptyString => (EmptyString, EmptyString)
  end.

(** Case folding of the [i] flag without the [u] flag: a code unit
    outside ASCII never matches an ASCII letter of the pattern. *)
Definition foldUnit (c : ascii) : ascii :=
  let n := codeUnit c in
  if (65 <=? n) && (n <=? 90) then ascii_of_nat (n + 32) else c.

Fixpoint foldCase (s : string) : string :=
  match s with
  | EmptyString => EmptyString
  | String c rest => String (foldUnit c) (foldCase rest)
  end.

(** [s] matches the literal [lit] (given in lower case) under the [i] flag. *)
Definition matchesLiteral (s lit : string) : bool :=
  String.eqb (foldCase s) lit.

(** [^(gpt-\d+)\.\d+] : the first group and the text after the minor
    version.  Both [\d+] are followed by a character that is not a digit,
    so the greedy match is the only one. *)
Definition matchGptVersion (model : string) : option (string * string) :=
  if matchesLiteral (substring 0 4 model) "gpt-" then
    let '(majorDigits, afterMajor) := spanDigits (sliceFrom 4 model) in
    match majorDigits, afterMajor with
    | String _ _, String "." afterDot =>
        let '(minorDigits, tail) := spanDigits afterDot in
        match minorDigits with
        | String _ _ => Some (substring 0 4 model ++ majorDigits, tail)
        | EmptyString => None
        end
    | _, _ => None
    end
  else None.

(** [/^(gpt-\d+)\.\d+(-codex(?:-(?:mini|max|high|low))?)$/i.exec(model)]:
    the two groups. *)
Definition execCodexVersion (model : string) : option (string * string) :=
  match matchGptVersion model with
  | Some (major, suffix) =>
      if existsb (matchesLiteral suffix)
           ["-codex"; "-codex-mini"; "-codex-max"; "-codex-high"; "-codex-low"]
      then Some (major, suffix) else None
  | None => None
  end.

(** [/^(gpt-\d+)\.\d+$/i.exec(model)]: the group. *)
Definition execGptVersion (model : string) : option string :=
  match matchGptVersion model with
  | Some (major, EmptyString) => Some major
  | _ => None
  end.

(** ** [Set<string>], kept in insertion order *)

Definition StringSet := list string.

Definition has (set : StringSet) (x : string) : bool :=
  existsb (String.eqb x) set.

Definition add (set : StringSet) (x : string) : StringSet :=
  if has set x then set else (set ++ [x])%list.

(** [new Set(items)] *)
Definition fromList (items : list string) : StringSet :=
  fold_left add items [].

End JsString.

(* ================================================================= *)
(** * Values of [JSON.parse] *)

Module Json.
Import JsNumber.

Local Open Scope string_scope.

Inductive json : Type :=
| JNull
| JBool (b : bool)
| JNum (n : number)
| JStr (s : string)
| JArr (items : list json)
| JObj (fields : list (string * json)).

(** [undefined] is [None]; [null] is [Some JNull]. *)
Definition jsval := option json.

(** Own property of an object's property list. *)
Fixpoint lookup (fields : list (string * json)) (key : string) : jsval :=
  match fields with
  | [] => None
  | (k, v) :: rest => if String.eqb k key then Some v else lookup rest key
  end.

(** [value.key] for [key] one of the data properties the program reads
    ([data], [fetchedAt], [model], [info], ...): none of them exists on a
    primitive, on an array or on [Object.prototype]. *)
Definition getProp (value : json) (key : string) : jsval :=
  match value with
  | JObj fields => lookup fields key
  | _ => None
  end.

(** [value == null] *)
Definition isNullish (value : jsval) : bool :=
  match value with
  | None | Some JNull => true
  | Some _ => false
  end.

(** [a ?? b] *)
Definition nullish (a b : jsval) : jsval :=
  if isNullish a then b else a.

(** [typeof value === 'object'] *)
Definition typeofObject (value : json) : bool :=
  match value with
  | JNull | JArr _ | JObj _ => true
  | _ => false
  end.

Definition indexKeys (n : nat) : list string :=
  map (fun i => NilEmpty.string_of_uint (Nat.to_uint i)) (seq 0 n).

(** [Object.keys(value)]; [None] is the [TypeError] thrown on [null]. *)
Definition Object_keys (value : json) : option (list string) :=
  match value with
  | JNull => None
  | JObj fields => Some (map fst fields)
  | JArr items => Some (indexKeys (List.length items))
  | JStr s => Some (indexKeys (String.length s))
  | JBool _ | JNum _ => Some []
  end.

(** What [JSON.parse(JSON.stringify(value))] gives back: a number that is
    not finite is written as [null], and [-0] as [0]. *)
Fixpoint roundTrip (value : json) : json :=
  match value with
  | JNum n =>
      if isFinite n then (if isNegZero n then JNum 0%float else JNum n)
      else JNull
  | JArr items => JArr (map roundTrip items)
  | JObj fields => JObj (map (fun kv => (fst kv, roundTrip (snd kv))) fields)
  | other => other
  end.

End Json.

(* ================================================================= *)
(** * [src/types.ts] *)

Module Types.
Import JsNumber.

Inductive SourceKind : Type := claude | codex | opencode.

Definition SourceKind_eqb (a b : SourceKind) : bool :=
  match a, b with
  | claude, claude | codex, codex | opencode, opencode => true
  | _, _ => false
  end.

(** [timestamp] is the time value of the [Date], in milliseconds. *)
Record UsageEntry : Type := {
  source : SourceKind;
  timestamp : Z;
  model : string;
  provider : option string;
  inputTokens : number;
  outputTokens : number;
  cacheReadTokens : number;
  cacheWriteTokens : number;
  reasoningOutputTokens : number;
  costUSD : option number
}.

End Types.

(* ================================================================= *)
(** * Effects: the cache file, the clock and the network *)

Module Io.
Import Json.

(** The cache file as [readFile] and [JSON.parse] see it. *)
Inductive FileState : Type :=
| Absent
| Unparseable
| Parsed (value : json).

(** An HTTP response; [body] is [None] when [response.json()] rejects. *)
Record Response : Type := { ok : bool; body : option json }.

(** [NetError]: [fetch] rejects (transport error, or abort after 10 s). *)
Inductive Network : Type :=
| NetError
| NetResponse (response : Response).

Inductive Event : Type := EvReadFile | EvWriteFile | EvFetch.

(** [failedWrite = Some f]: writing the cache file throws and leaves the
    file in state [f].  Time does not advance during one acquisition. *)
Record World : Type := {
  file : FileState;
  clock : Z;
  network : Network;
  failedWrite : option FileState;
  trace : list Event
}.

Definition log (e : Event) (w : World) : World :=
  {| file := file w; clock := clock w; network := network w;
     failedWrite := failedWrite w; trace := trace w ++ [e] |}.

Definition setFile (f : FileState) (w : World) : World :=
  {| file := f; clock := clock w; network := network w;
     failedWrite := failedWrite w; trace := trace w |}.

Inductive Result (A : Type) : Type :=
| Ok (a : A)
| Throw.
Arguments Throw {A}.

(** An [async] computation: it returns or throws, and changes the world. *)
Definition IO (A : Type) : Type := World -> Result A * World.

Definition ret {A} (a : A) : IO A := fun w => (Ok a, w).

Definition throw {A} : IO A := fun w => (Throw, w).

Definition bind {A B} (m : IO A) (k : A -> IO B) : IO B :=
  fun w =>
    match m w with
    | (Ok a, w') => k a w'
    | (Throw, w') => (Throw, w')
    end.

(** A synchronous call that returns or throws. *)
Definition lift {A} (outcome : Result A) : IO A := fun w => (outcome, w).

(** [try { m } catch { handler }] *)
Definition tryCatch {A} (m handler : IO A) : IO A :=
  fun w =>
    match m w with
    | (Ok a, w') => (Ok a, w')
    | (Throw, w') => handler w'
    end.

Declare Scope io_scope.
Delimit Scope io_scope with io.
Notation "x <- m ;; k" := (bind m (fun x => k))
  (at level 61, m at next level, right associativity) : io_scope.
Notation "m ;;; k" := (bind m (fun _ => k))
  (at level 61, right associativity) : io_scope.

Local Open Scope io_scope.

(** [JSON.parse(await readFile(CACHE_FILE, 'utf8'))] *)
Definition readFileAndParse : IO json :=
  fun w =>
    match file w with
    | Parsed value => (Ok value, log EvReadFile w)
    | Absent | Unparseable => (Throw, log EvReadFile w)
    end.

(** [readJsonFile(CACHE_FILE)] of [src/utils.ts] *)
Definition readJsonFile : IO jsval :=
  tryCatch (value <- readFileAndParse ;; ret (Some value)) (ret None).

(** [writeJsonFile(CACHE_FILE, value)] of [src/utils.ts] *)
Definition writeJsonFile (value : json) : IO unit :=
  fun w =>
    match failedWrite w with
    | None => (Ok tt, setFile (Parsed (roundTrip value)) (log EvWriteFile w))
    | Some leftover => (Throw, setFile leftover (log EvWriteFile w))
    end.

(** [Date.now()] *)
Definition Date_now : IO Z := fun w => (Ok (clock w), w).

(** [fetch(LITELLM_PRICING_URL, ...)] *)
Definition fetch : IO Response :=
  fun w =>
    match network w with
    | NetResponse response => (Ok response, log EvFetch w)
    | NetError => (Throw, log EvFetch w)
    end.

(** [response.json()] *)
Definition response_json (response : Response) : IO json :=
  match body response with
  | Some value => ret value
  | None => throw
  end.

End Io.

(* ================================================================= *)
(** * [src/utils.ts] *)

Module Utils.
Import JsNumber Json Types.
Local Open Scope float_scope.

(** [normalizeNumber(value)] *)
Definition normalizeNumber (value : jsval) : number :=
  match value with
  | Some (JNum n) => if isFinite n then n else 0
  | _ => 0
  end.

(** [totalTokens(entry)] *)
Definition totalTokens (entry : UsageEntry) : number :=
  inputTokens entry + outputTokens entry + cacheReadTokens entry
  + cacheWriteTokens entry.

End Utils.

(* ================================================================= *)
(** * [src/pricing.ts] *)

Module Pricing.
Import JsNumber JsString Json Types Io.

Local Open Scope string_scope.

Record PricingRecord : Type := {
  input_cost_per_token : option number;
  output_cost_per_token : option number;
  cache_creation_input_token_cost : option number;
  cache_read_input_token_cost : option number;
  input_cost_per_token_above_200k_tokens : option number;
  output_cost_per_token_above_200k_tokens : option number;
  cache_creation_input_token_cost_above_200k_tokens : option number;
  cache_read_input_token_cost_above_200k_tokens : option number
}.

(** [Record<string, PricingRecord>]: the own properties, in the order
    [Object.entries] enumerates them. *)
Definition PricingMap : Type := list (string * PricingRecord).

Inductive PricingSource : Type :=
| fresh_cache
| remote
| stale_cache
| offline_cache
| offline_empty
| unavailable.

(** The casts to [PricingMap] are unchecked: the status carries the JSON
    value it was given. *)
Record PricingStatus : Type := {
  pricingMap : json;
  isEmpty : bool;
  source : PricingSource
}.

Definition CACHE_MAX_AGE_MS : Z := 1000 * 60 * 60 * 24.

Definition MODEL_ALIASES : list (string * string) :=
  [ ("gpt-5-codex", "gpt-5");
    ("gpt-5-codex-high", "gpt-5");
    ("gpt-5-codex-low", "gpt-5");
    ("gpt-5-codex-max", "gpt-5");
    ("gemini-3-pro-high", "gemini-3-pro-preview") ].

(** [map.get(key)] on a [Map<string, V>], and the own property [key] of
    an object given by its entries. *)
Fixpoint get {V : Type} (entries : list (string * V)) (key : string) : option V :=
  match entries with
  | [] => None
  | (k, v) :: rest => if String.eqb k key then Some v else get rest key
  end.

Section Acquisition.

(** [new Date(value).getTime()].  The constructor converts [value] to a
    primitive first, and that conversion throws a [TypeError] for an
    object without a primitive value, such as one whose own [toString] is
    not callable: [Throw].  [Ok None] is NaN, the time value of an
    invalid date. *)
Variable Date_getTime : jsval -> Result (option Z).

(** [new Date(ms).toISOString()] *)
Variable toISOString : Z -> string.

Local Open Scope io_scope.

Definition isFresh (timestamp : jsval) : IO bool :=
  time <- lift (Date_getTime timestamp) ;;
  match time with
  | None => ret false
  | Some ms =>
      now <- Date_now ;;
      ret (now - ms <? CACHE_MAX_AGE_MS)%Z
  end.

Definition readCache : IO jsval :=
  cached <- readJsonFile ;;
  match cached with
  | None | Some JNull => ret None
  | Some file =>
      if negb (typeofObject file) || isNullish (getProp file "data")
      then ret None
      else
        fresh <- isFresh (getProp file "fetchedAt") ;;
        if negb fresh then ret None else ret (Some file)
  end.

Definition writeCache (data : json) : IO unit :=
  now <- Date_now ;;
  writeJsonFile (JObj [("fetchedAt", JStr (toISOString now)); ("data", data)]).

Definition isArray (value : json) : bool :=
  match value with JArr _ => true | _ => false end.

Definition fetchLiteLLMPricing : IO jsval :=
  tryCatch
    (response <- fetch ;;
     if negb (ok response) then ret None
     else
       parsed <- response_json response ;;
       if isNullish (Some parsed) || negb (typeofObject parsed) || isArray parsed
       then ret None
       else writeCache parsed ;;; ret (Some parsed))
    (ret None).

(** [{ pricingMap: data, isEmpty: Object.keys(data).length === 0, source }];
    [Object.keys] throws on [null] and on [undefined]. *)
Definition statusOf (data : jsval) (tag : PricingSource) : IO PricingStatus :=
  match data with
  | Some value =>
      match Object_keys value with
      | Some keys =>
          ret {| pricingMap := value;
                 isEmpty := Nat.eqb (List.length keys) 0;
                 source := tag |}
      | None => throw
      end
  | None => throw
  end.

Definition emptyStatus (tag : PricingSource) : PricingStatus :=
  {| pricingMap := JObj []; isEmpty := true; source := tag |}.

(** [stale?.data] *)
Definition dataOf (stale : jsval) : jsval :=
  match stale with
  | None | Some JNull => None
  | Some file => getProp file "data"
  end.

Definition loadPricingStatus (offline : bool) : IO PricingStatus :=
  cached <- readCache ;;
  if offline then
    stale <- readJsonFile ;;
    if negb (isNullish (dataOf stale))
    then statusOf (dataOf stale) offline_cache
    else ret (emptyStatus offline_empty)
  else
    fetched <- fetchLiteLLMPricing ;;
    if negb (isNullish fetched) then statusOf fetched remote
    else if negb (isNullish cached) then statusOf (dataOf cached) fresh_cache
    else
      stale <- readJsonFile ;;
      if negb (isNullish (dataOf stale))
      then statusOf (dataOf stale) stale_cache
      else ret (emptyStatus unavailable).

Definition loadPricingMap (offline : bool) : IO json :=
  status <- loadPricingStatus offline ;;
  ret (pricingMap status).

End Acquisition.

Definition maybeVersionAlias (model : string) : list string :=
  let aliases : StringSet := [] in
  let aliases :=
    match execCodexVersion model with
    | Some (major, suffix) => add aliases (major ++ suffix)
    | None => aliases
    end in
  let aliases :=
    match execGptVersion model with
    | Some major => add aliases major
    | None => aliases
    end in
  if endsWith model "-latest"
  then add aliases (sliceDropEnd model (String.length "-latest"))
  else aliases.

Definition modelVariants (model : string) : list string :=
  let trimmed := trim model in
  let variants : StringSet :=
    if String.eqb trimmed "" then [] else add [] trimmed in
  let variants := fold_left add (maybeVersionAlias trimmed) variants in
  fold_left
    (fun acc candidate =>
       match get MODEL_ALIASES candidate with
       | Some explicitAlias => add acc explicitAlias
       | None => acc
       end)
    variants variants.

Definition toNonEmpty (value : option string) : list string :=
  match value with
  | None => []
  | Some text =>
      let trimmed := trim text in
      if String.eqb trimmed "" then [] else [trimmed]
  end.

(** One iteration of the loop of [pricingCandidates] over the variants;
    [provider] is [entry.provider?.trim()]. *)
Definition candidateStep (entry : UsageEntry)
    (candidates : StringSet) (baseModel : string) : StringSet :=
  let candidates :=
    fold_left
      (fun acc providerPrefix => add acc (providerPrefix ++ "/" ++ baseModel))
      (toNonEmpty (option_map trim (Types.provider entry))) candidates in
  let candidates :=
    if SourceKind_eqb (Types.source entry) claude
    then add (add candidates ("anthropic/" ++ baseModel))
             ("vertex_ai/" ++ baseModel)
    else candidates in
  if SourceKind_eqb (Types.source entry) codex
  then add (add (add candidates ("openai/" ++ baseModel))
                ("azure/" ++ baseModel))
           ("openrouter/openai/" ++ baseModel)
  else candidates.

Definition pricingCandidates (entry : UsageEntry) : list string :=
  let model := trim (Types.model entry) in
  let baseModels := modelVariants model in
  fold_left (candidateStep entry) baseModels (fromList baseModels).

(** The property names of [Object.prototype], which every object made by
    [JSON.parse] or by an object literal inherits. *)
Definition OBJECT_PROTOTYPE_KEYS : list string :=
  [ "constructor"; "hasOwnProperty"; "isPrototypeOf";
    "propertyIsEnumerable"; "toLocaleString"; "toString"; "valueOf";
    "__proto__"; "__defineGetter__"; "__defineSetter__";
    "__lookupGetter__"; "__lookupSetter__" ].

Definition isPrototypeKey (key : string) : bool :=
  existsb (String.eqb key) OBJECT_PROTOTYPE_KEYS.

(** An inherited member read as a [PricingRecord]: it is a function, or
    the prototype itself for [__proto__], so it is not [null] and none
    of the eight rates is defined on it. *)
Definition inheritedMember : PricingRecord :=
  {| input_cost_per_token := None;
     output_cost_per_token := None;
     cache_creation_input_token_cost := None;
     cache_read_input_token_cost := None;
     input_cost_per_token_above_200k_tokens := None;
     output_cost_per_token_above_200k_tokens := None;
     cache_creation_input_token_cost_above_200k_tokens := None;
     cache_read_input_token_cost_above_200k_tokens := None |}.

(** [pricingMap[candidate]]: the own property, or else the member
    inherited from [Object.prototype]. *)
Definition getMember (pricingMap : PricingMap) (candidate : string)
  : option PricingRecord :=
  match get pricingMap candidate with
  | Some found => Some found
  | None => if isPrototypeKey candidate then Some inheritedMember else None
  end.

(** First tier: exact key, candidates in order. *)
Fixpoint exactMatch (pricingMap : PricingMap) (candidates : list string)
  : option PricingRecord :=
  match candidates with
  | [] => None
  | candidate :: rest =>
      match getMember pricingMap candidate with
      | Some found => Some found
      | None => exactMatch pricingMap rest
      end
  end.

(** Second tier: the first key that ends with ["/" ++ candidate]. *)
Fixpoint suffixMatch (entries : PricingMap) (suffixes : list string)
  : option PricingRecord :=
  match entries with
  | [] => None
  | (key, value) :: rest =>
      if existsb (endsWith key) suffixes then Some value
      else suffixMatch rest suffixes
  end.

(** Third tier: one step of the scan that keeps the best score. *)
Definition fuzzyStep (modelLower : string)
    (best : option (nat * PricingRecord)) (entry : string * PricingRecord)
  : option (nat * PricingRecord) :=
  let keyLower := toLowerCase (fst entry) in
  if includes keyLower modelLower || includes modelLower keyLower then
    let score := Nat.min (String.length modelLower) (String.length keyLower) in
    match best with
    | None => Some (score, snd entry)
    | Some (bestScore, _) =>
        if (bestScore <? score)%nat then Some (score, snd entry) else best
    end
  else best.

Definition fuzzyMatch (pricingMap : PricingMap) (modelLower : string)
  : option PricingRecord :=
  option_map snd (fold_left (fuzzyStep modelLower) pricingMap None).

Definition resolvePricing (pricingMap : PricingMap) (entry : UsageEntry)
  : option PricingRecord :=
  let candidates := pricingCandidates entry in
  match exactMatch pricingMap candidates with
  | Some found => Some found
  | None =>
      let suffixes := map (fun candidate => "/" ++ candidate) candidates in
      match suffixMatch pricingMap suffixes with
      | Some found => Some found
      | None => fuzzyMatch pricingMap (toLowerCase (trim (Types.model entry)))
      end
  end.

Local Open Scope float_scope.

Definition safeCost (value : option number) : number :=
  match value with
  | Some rate => if isFinite rate then rate else 0
  | None => 0
  end.

(** The default of the [threshold] parameter. *)
Definition THRESHOLD : number := 200000.

Definition calculateTieredCost (totalTokens : number)
    (basePrice tieredPrice : option number) (threshold : number) : number :=
  if negb (isFinite totalTokens) || (totalTokens <=? 0) then 0
  else
    let base := safeCost basePrice in
    let tiered := safeCost tieredPrice in
    if (threshold <? totalTokens) && (0 <? tiered) then
      let below := Math_min totalTokens threshold in
      let above := Math_max 0 (totalTokens - threshold) in
      below * base + above * tiered
    else totalTokens * base.

Definition estimateEntryCostUSD (pricingMap : PricingMap) (entry : UsageEntry)
  : option number :=
  match resolvePricing pricingMap entry with
  | None => None
  | Some pricing =>
      let isCodexLikeInput := SourceKind_eqb (Types.source entry) codex in
      let cacheRead :=
        if isCodexLikeInput
        then Math_max (Math_min (cacheReadTokens entry) (inputTokens entry)) 0
        else Math_max (cacheReadTokens entry) 0 in
      let nonCachedInput :=
        if isCodexLikeInput
        then Math_max (inputTokens entry - cacheRead) 0
        else Math_max (inputTokens entry) 0 in
      let cacheWrite := Math_max (cacheWriteTokens entry) 0 in
      let output :=
        Math_max
          (outputTokens entry
           + (if SourceKind_eqb (Types.source entry) codex
              then reasoningOutputTokens entry else 0))
          0 in
      let total :=
        calculateTieredCost nonCachedInput
          (input_cost_per_token pricing)
          (input_cost_per_token_above_200k_tokens pricing) THRESHOLD
        + calculateTieredCost output
            (output_cost_per_token pricing)
            (output_cost_per_token_above_200k_tokens pricing) THRESHOLD
        + calculateTieredCost cacheWrite
            (cache_creation_input_token_cost pricing)
            (cache_creation_input_token_cost_above_200k_tokens pricing) THRESHOLD
        + calculateTieredCost cacheRead
            (cache_read_input_token_cost pricing)
            (cache_read_input_token_cost_above_200k_tokens pricing) THRESHOLD in
      if isFinite total then Some total else None
  end.

Definition hasKnownCost (entry : UsageEntry) : bool :=
  match costUSD entry with
  | Some cost => isFinite cost
  | None => false
  end.

Definition sourceSupportsServerPricing (kind : SourceKind) : bool :=
  match kind with
  | codex | opencode | claude => true
  end.

End Pricing.

(* ================================================================= *)
(** * [src/loaders.ts]: the Codex usage log *)

Module Loaders.
Import JsNumber JsString Json Types Utils.

Local Open Scope string_scope.

Record CodexRawUsage : Type := {
  input_tokens : number;
  cached_input_tokens : number;
  output_tokens : number;
  reasoning_output_tokens : number;
  total_tokens : number
}.

(** [Record<string, unknown>]: the property list of an object. *)
Definition record : Type := list (string * json).

Definition asRecord (value : jsval) : option record :=
  match value with
  | Some (JObj fields) => Some fields
  | _ => None
  end.

Definition asTrimmedString (value : jsval) : option string :=
  match value with
  | Some (JStr text) =>
      let trimmed := trim text in
      if String.eqb trimmed "" then None else Some trimmed
  | _ => None
  end.

(** The first candidate that is a non-blank string. *)
Fixpoint firstTrimmed (candidates : list jsval) : option string :=
  match candidates with
  | [] => None
  | candidate :: rest =>
      match asTrimmedString candidate with
      | Some text => Some text
      | None => firstTrimmed rest
      end
  end.

(** [record?.key] *)
Definition field (r : option record) (key : string) : jsval :=
  match r with
  | Some fields => lookup fields key
  | None => None
  end.

(** [extractModel] on a parsed value; the recursive call is on the value
    of the [info] property. *)
Fixpoint extractModelOf (value : json) : option string :=
  match value with
  | JObj fields =>
      match
        firstTrimmed
          [ lookup fields "model"; lookup fields "model_name";
            lookup fields "modelID"; lookup fields "modelId";
            lookup fields "model_name_for_display" ]
      with
      | Some text => Some text
      | None =>
          let infoModel :=
            (fix ofInfo (props : list (string * json)) : option string :=
               match props with
               | [] => None
               | (k, v) :: rest =>
                   if String.eqb k "info" then extractModelOf v else ofInfo rest
               end) fields in
          match infoModel with
          | Some text => Some text
          | None =>
              match asRecord (lookup fields "metadata") with
              | Some metadataRecord =>
                  asTrimmedString (lookup metadataRecord "model")
              | None => None
              end
          end
      end
  | _ => None
  end.

Definition extractModel (value : jsval) : option string :=
  match value with
  | Some v => extractModelOf v
  | None => None
  end.

Local Open Scope float_scope.

Definition normalizeCodexRawUsage (value : jsval) : option CodexRawUsage :=
  match asRecord value with
  | None => None
  | Some r =>
      let input := normalizeNumber (lookup r "input_tokens") in
      let cached :=
        normalizeNumber
          (nullish (lookup r "cached_input_tokens")
                   (lookup r "cache_read_input_tokens")) in
      let output := normalizeNumber (lookup r "output_tokens") in
      let reasoning := normalizeNumber (lookup r "reasoning_output_tokens") in
      let total := normalizeNumber (lookup r "total_tokens") in
      Some {| input_tokens := input;
              cached_input_tokens := cached;
              output_tokens := output;
              reasoning_output_tokens := reasoning;
              total_tokens := if 0 <? total then total else input + output |}
  end.

(** [previous?.f ?? 0] *)
Definition previousOr0 (previous : option CodexRawUsage)
    (f : CodexRawUsage -> number) : number :=
  match previous with
  | Some p => f p
  | None => 0
  end.

Definition subtractCodexUsage (current : CodexRawUsage)
    (previous : option CodexRawUsage) : CodexRawUsage :=
  {| input_tokens :=
       Math_max (input_tokens current - previousOr0 previous input_tokens) 0;
     cached_input_tokens :=
       Math_max (cached_input_tokens current
                 - previousOr0 previous cached_input_tokens) 0;
     output_tokens :=
       Math_max (output_tokens current - previousOr0 previous output_tokens) 0;
     reasoning_output_tokens :=
       Math_max (reasoning_output_tokens current
                 - previousOr0 previous reasoning_output_tokens) 0;
     total_tokens :=
       Math_max (total_tokens current - previousOr0 previous total_tokens) 0 |}.

(** The two variables the loop of [loadCodexEntries] keeps per file. *)
Record StreamState : Type := {
  previousTotals : option CodexRawUsage;
  currentModel : option string
}.

Definition initialState : StreamState :=
  {| previousTotals := None; currentModel := None |}.

(** [a ?? b] on optional strings. *)
Definition orElse (a b : option string) : option string :=
  match a with
  | Some _ => a
  | None => b
  end.

(** [text === literal] for an optional string. *)
Definition isText (text : option string) (literal : string) : bool :=
  match text with
  | Some t => String.eqb t literal
  | None => false
  end.

Section CodexLog.

(** [new Date(text).getTime()]; [None] is NaN (an invalid date). *)
Variable Date_parse : string -> option Z.

(** One iteration of the loop over the parsed lines of a file: the
    state after the line, and the entry pushed, if any. *)
Definition processLine (state : StreamState) (parsedLine : json)
  : StreamState * option UsageEntry :=
  match asRecord (Some parsedLine) with
  | None => (state, None)
  | Some lineRecord =>
      let type := asTrimmedString (lookup lineRecord "type") in
      if isText type "turn_context" then
        match extractModel (lookup lineRecord "payload") with
        | Some contextModel =>
            ({| previousTotals := previousTotals state;
                currentModel := Some contextModel |}, None)
        | None => (state, None)
        end
      else if negb (isText type "event_msg") then (state, None)
      else
        match asRecord (lookup lineRecord "payload") with
        | None => (state, None)
        | Some payload =>
            if negb (isText (asTrimmedString (lookup payload "type")) "token_count")
            then (state, None)
            else
              match asTrimmedString (lookup lineRecord "timestamp") with
              | None => (state, None)
              | Some timestampText =>
                  match Date_parse timestampText with
                  | None => (state, None)
                  | Some date =>
                      let info := asRecord (lookup payload "info") in
                      let lastUsage :=
                        normalizeCodexRawUsage (field info "last_token_usage") in
                      let totalUsage :=
                        normalizeCodexRawUsage (field info "total_token_usage") in
                      let '(rawUsage, previousTotals') :=
                        match totalUsage with
                        | Some total =>
                            (Some (subtractCodexUsage total (previousTotals state)),
                             Some total)
                        | None => (lastUsage, previousTotals state)
                        end in
                      match rawUsage with
                      | None =>
                          ({| previousTotals := previousTotals';
                              currentModel := currentModel state |}, None)
                      | Some usage =>
                          let modelFromPayload :=
                            orElse (extractModel (Some (JObj payload)))
                                   (extractModel (option_map JObj info)) in
                          let currentModel' :=
                            orElse modelFromPayload (currentModel state) in
                          let state' :=
                            {| previousTotals := previousTotals';
                               currentModel := currentModel' |} in
                          let model :=
                            match orElse modelFromPayload currentModel' with
                            | Some name => name
                            | None => "gpt-5"%string
                            end in
                          let inputTokens := input_tokens usage in
                          let cacheReadTokens :=
                            Math_min (cached_input_tokens usage) inputTokens in
                          let outputTokens := output_tokens usage in
                          let reasoningOutputTokens :=
                            reasoning_output_tokens usage in
                          if strictEq
                               (inputTokens + outputTokens + cacheReadTokens
                                + reasoningOutputTokens) 0
                          then (state', None)
                          else
                            (state',
                             Some {| source := codex;
                                     timestamp := date;
                                     model := model;
                                     provider := None;
                                     Types.inputTokens := inputTokens;
                                     Types.outputTokens := outputTokens;
                                     Types.cacheReadTokens := cacheReadTokens;
                                     cacheWriteTokens := 0;
                                     Types.reasoningOutputTokens :=
                                       reasoningOutputTokens;
                                     costUSD := None |})
                      end
                  end
              end
        end
  end.

(** The loop over the lines of one file. *)
Fixpoint processLines (state : StreamState) (parsedLines : list json)
  : list UsageEntry :=
  match parsedLines with
  | [] => []
  | parsedLine :: rest =>
      let '(state', pushed) := processLine state parsedLine in
      match pushed with
      | Some entry => entry :: processLines state' rest
      | None => processLines state' rest
      end
  end.

(** [loadCodexEntries] on the parsed lines of the session files, in the
    order [listFilesRecursively] returns the files. *)
Definition loadCodexEntries (files : list (list json)) : list UsageEntry :=
  flat_map (processLines initialState) files.

End CodexLog.

End Loaders.

(* ================================================================= *)
(** * [src/loaders.ts]: the Claude usage log *)

Module ClaudeLoader.
Import JsNumber JsString Json Types Utils Loaders.

Local Open Scope string_scope.

(** [typeof rawCost === 'number' && Number.isFinite(rawCost) ? rawCost : null] *)
Definition finiteCost (rawCost : jsval) : option number :=
  match rawCost with
  | Some (JNum cost) => if isFinite cost then Some cost else None
  | _ => None
  end.

Section ClaudeLog.

(** [new Date(text).getTime()]; [None] is NaN (an invalid date). *)
Variable Date_parse : string -> option Z.

(** One iteration of the loop of [loadClaudeEntries] over parsed lines:
    the [dedupe] set after the line, and the entry pushed, if any. *)
Definition processClaudeLine (dedupe : StringSet) (parsedLine : json)
  : StringSet * option UsageEntry :=
  match asRecord (Some parsedLine) with
  | None => (dedupe, None)
  | Some lineRecord =>
      let messageRecord := asRecord (lookup lineRecord "message") in
      match asRecord (field messageRecord "usage") with
      | None => (dedupe, None)
      | Some usageRecord =>
          match asTrimmedString (lookup lineRecord "timestamp") with
          | None => (dedupe, None)
          | Some timestampText =>
              match Date_parse timestampText with
              | None => (dedupe, None)
              | Some date =>
                  let messageId := asTrimmedString (field messageRecord "id") in
                  let requestId := asTrimmedString (lookup lineRecord "requestId") in
                  let seen :=
                    match messageId, requestId with
                    | Some mid, Some rid => has dedupe (mid ++ ":" ++ rid)
                    | _, _ => false
                    end in
                  if seen then (dedupe, None)
                  else
                    let dedupe' :=
                      match messageId, requestId with
                      | Some mid, Some rid => add dedupe (mid ++ ":" ++ rid)
                      | _, _ => dedupe
                      end in
                    let inputTokens :=
                      normalizeNumber (lookup usageRecord "input_tokens") in
                    let outputTokens :=
                      normalizeNumber (lookup usageRecord "output_tokens") in
                    let cacheWriteTokens :=
                      normalizeNumber
                        (lookup usageRecord "cache_creation_input_tokens") in
                    let cacheReadTokens :=
                      normalizeNumber
                        (lookup usageRecord "cache_read_input_tokens") in
                    if strictEq
                         (inputTokens + outputTokens + cacheReadTokens
                          + cacheWriteTokens)%float 0%float
                    then (dedupe', None)
                    else
                      let model :=
                        match
                          orElse (asTrimmedString (field messageRecord "model"))
                                 (asTrimmedString (lookup lineRecord "model"))
                        with
                        | Some name => name
                        | None => "unknown"
                        end in
                      (dedupe',
                       Some {| source := claude;
                               timestamp := date;
                               model := model;
                               provider := None;
                               Types.inputTokens := inputTokens;
                               Types.outputTokens := outputTokens;
                               Types.cacheReadTokens := cacheReadTokens;
                               Types.cacheWriteTokens := cacheWriteTokens;
                               reasoningOutputTokens := 0;
                               costUSD :=
                                 finiteCost (lookup lineRecord "costUSD") |})
              end
          end
      end
  end.

(** The loop over the lines of one file; the [dedupe] set goes on to the
    next file. *)
Fixpoint processClaudeLines (dedupe : StringSet) (parsedLines : list json)
  : StringSet * list UsageEntry :=
  match parsedLines with
  | [] => (dedupe, [])
  | parsedLine :: rest =>
      let '(dedupe', pushed) := processClaudeLine dedupe parsedLine in
      let '(dedupe'', entries) := processClaudeLines dedupe' rest in
      (dedupe'',
       match pushed with
       | Some entry => entry :: entries
       | None => entries
       end)
  end.

(** The loops over the roots and over the files of each root, on the
    parsed lines of the files in the order they are read. *)
Fixpoint processClaudeFiles (dedupe : StringSet) (files : list (list json))
  : list UsageEntry :=
  match files with
  | [] => []
  | parsedLines :: rest =>
      let '(dedupe', entries) := processClaudeLines dedupe parsedLines in
      (entries ++ processClaudeFiles dedupe' rest)%list
  end.

Definition loadClaudeEntries (files : list (list json)) : list UsageEntry :=
  processClaudeFiles [] files.

End ClaudeLog.

End ClaudeLoader.

(* ================================================================= *)
(** * [src/utils.ts]: comma lists, month windows and day buckets *)

Module CommaList.
Import JsString.

Local Open Scope string_scope.

(** [input.split(',')] *)
Fixpoint splitComma (input : string) : list string :=
  match input with
  | EmptyString => [EmptyString]
  | String c rest =>
      if Ascii.eqb c ","
      then EmptyString :: splitComma rest
      else
        match splitComma rest with
        | first :: others => String c first :: others
        | [] => [String c EmptyString]
        end
  end.

(** [splitCommaList(input)] *)
Definition splitCommaList (input : string) : list string :=
  filter (fun part => negb (String.eqb part ""))
    (map trim (splitComma input)).

End CommaList.

Module Month.
Import JsNumber JsString.

Local Open Scope string_scope.

Record MonthWindow : Type := {
  month : string;
  year : nat;
  monthIndex : nat;
  start : Z;
  endExclusive : Z;
  daysInMonth : Z
}.

(** [\d+] against the whole of [s] *)
Fixpoint digitsOnly (s : string) : bool :=
  match s with
  | EmptyString => true
  | String c rest => isDigit c && digitsOnly rest
  end.

(** [Number(text)] for a run of decimal digits. *)
Definition Number_ofDigits (text : string) : nat :=
  (fix value (acc : nat) (s : string) : nat :=
     match s with
     | EmptyString => acc
     | String c rest => value (acc * 10 + (codeUnit c - 48))%nat rest
     end) 0%nat text.

(** [/^(\d{4})-(\d{2})$/.exec(trimmed)]: the two groups. *)
Definition execMonth (trimmed : string) : option (string * string) :=
  let yearText := substring 0 4 trimmed in
  let monthText := substring 5 2 trimmed in
  if Nat.eqb (String.length trimmed) 7
     && digitsOnly yearText
     && String.eqb (substring 4 1 trimmed) "-"
     && digitsOnly monthText
  then Some (yearText, monthText) else None.

(** [String(value)] for a non-negative integer. *)
Definition String_ofNat (value : nat) : string :=
  NilEmpty.string_of_uint (Nat.to_uint value).

(** [pad2(value)]: [String(value).padStart(2, '0')] *)
Definition pad2 (value : nat) : string :=
  let text := String_ofNat value in
  if (String.length text <? 2)%nat then "0" ++ text else text.

Section Dates.

(** [new Date(year, monthIndex, day, 0, 0, 0, 0).getTime()], local time. *)
Variable Date_local : nat -> nat -> nat -> Z.

(** [new Date(time).getDate()], the local day of the month. *)
Variable Date_getDate : Z -> Z.

(** [parseMonthWindow(monthInput)]; [None] is the [Error] thrown. *)
Definition parseMonthWindow (monthInput : string) : option MonthWindow :=
  let trimmed := trim monthInput in
  match execMonth trimmed with
  | None => None
  | Some (yearText, monthText) =>
      let year := Number_ofDigits yearText in
      let monthNumber := Number_ofDigits monthText in
      if (monthNumber <? 1)%nat || (12 <? monthNumber)%nat then None
      else
        let monthIndex := (monthNumber - 1)%nat in
        Some {| month := String_ofNat year ++ "-" ++ pad2 monthNumber;
                year := year;
                monthIndex := monthIndex;
                start := Date_local year monthIndex 1;
                endExclusive := Date_local year (monthIndex + 1) 1;
                daysInMonth :=
                  Date_getDate (Date_local year (monthIndex + 1) 0) |}
  end.

(** [monthContainsDate(month, date)] on the time value of the date. *)
Definition monthContainsDate (window : MonthWindow) (date : Z) : bool :=
  (start window <=? date)%Z && (date <? endExclusive window)%Z.

(** [monthDayIndex(date)] *)
Definition monthDayIndex (date : Z) : Z := (Date_getDate date - 1)%Z.

End Dates.

End Month.

Module DayBucket.
Import JsNumber.

Record t : Type := {
  costUSD : number;
  tokens : number;
  entryCount : number;
  unknownCostEntries : number
}.

Definition empty : t :=
  {| costUSD := 0; tokens := 0; entryCount := 0; unknownCostEntries := 0 |}.

(** [makeEmptyDayBuckets(daysInMonth)] *)
Definition makeEmptyDayBuckets (daysInMonth : Z) : list t :=
  repeat empty (Z.to_nat daysInMonth).

(** [buckets[index]]; [None] is [undefined]. *)
Definition at_ (buckets : list t) (index : Z) : option t :=
  if (index <? 0)%Z then None else nth_error buckets (Z.to_nat index).

(** The array after the object at [index] was changed to [bucket]. *)
Fixpoint put (buckets : list t) (index : nat) (bucket : t) : list t :=
  match buckets, index with
  | [], _ => []
  | _ :: rest, O => bucket :: rest
  | first :: rest, S index' => first :: put rest index' bucket
  end.

End DayBucket.

(* ================================================================= *)
(** * [src/reporting/aggregate.ts] *)

Module Aggregate.
Import JsNumber JsString Types Utils Pricing Month.

Local Open Scope float_scope.

(** [SourceSummary]; a [RenderSummary] has [source = None]. *)
Record Summary : Type := {
  source : option SourceKind;
  label : string;
  month : string;
  dayBuckets : list DayBucket.t;
  totalCostUSD : number;
  totalTokens : number;
  totalEntries : number;
  unknownCostEntries : number
}.

(** The second loop: the four totals over the buckets, in order. *)
Definition summarize (kind : option SourceKind) (name monthText : string)
    (buckets : list DayBucket.t) : Summary :=
  {| source := kind;
     label := name;
     month := monthText;
     dayBuckets := buckets;
     totalCostUSD :=
       fold_left (fun total b => total + DayBucket.costUSD b) buckets 0;
     totalTokens :=
       fold_left (fun total b => total + DayBucket.tokens b) buckets 0;
     totalEntries :=
       fold_left (fun total b => total + DayBucket.entryCount b) buckets 0;
     unknownCostEntries :=
       fold_left (fun total b => total + DayBucket.unknownCostEntries b) buckets 0 |}.

Section Dates.

Variable Date_local : nat -> nat -> nat -> Z.
Variable Date_getDate : Z -> Z.

(** What one entry does to the bucket of its day. *)
Definition addEntry (pricingMap : PricingMap) (shouldComputeCost : bool)
    (bucket : DayBucket.t) (entry : UsageEntry) : DayBucket.t :=
  let counted :=
    {| DayBucket.costUSD := DayBucket.costUSD bucket;
       DayBucket.tokens := DayBucket.tokens bucket + Utils.totalTokens entry;
       DayBucket.entryCount := DayBucket.entryCount bucket + 1;
       DayBucket.unknownCostEntries := DayBucket.unknownCostEntries bucket |} in
  let withCost (cost : number) :=
    {| DayBucket.costUSD := DayBucket.costUSD counted + cost;
       DayBucket.tokens := DayBucket.tokens counted;
       DayBucket.entryCount := DayBucket.entryCount counted;
       DayBucket.unknownCostEntries := DayBucket.unknownCostEntries counted |} in
  let estimatedOrUnknown :=
    match estimateEntryCostUSD pricingMap entry with
    | None =>
        {| DayBucket.costUSD := DayBucket.costUSD counted;
           DayBucket.tokens := DayBucket.tokens counted;
           DayBucket.entryCount := DayBucket.entryCount counted;
           DayBucket.unknownCostEntries :=
             DayBucket.unknownCostEntries counted + 1 |}
    | Some estimated => withCost estimated
    end in
  if shouldComputeCost then
    match costUSD entry with
    | Some known => if isFinite known then withCost known else estimatedOrUnknown
    | None => estimatedOrUnknown
    end
  else counted.

(** One iteration of the loop over the entries. *)
Definition aggregateStep (window : MonthWindow) (pricingMap : PricingMap)
    (shouldComputeCost : bool) (buckets : list DayBucket.t) (entry : UsageEntry)
  : list DayBucket.t :=
  if negb (monthContainsDate window (timestamp entry)) then buckets
  else
    let index := monthDayIndex Date_getDate (timestamp entry) in
    match DayBucket.at_ buckets index with
    | None => buckets
    | Some bucket =>
        DayBucket.put buckets (Z.to_nat index)
          (addEntry pricingMap shouldComputeCost bucket entry)
    end.

(** [aggregateSourceSummary]; [None] is the [Error] of [parseMonthWindow]. *)
Definition aggregateSourceSummary (kind : SourceKind) (name monthText : string)
    (entries : list UsageEntry) (pricingMap : PricingMap)
    (shouldComputeCost : bool) : option Summary :=
  match parseMonthWindow Date_local Date_getDate monthText with
  | None => None
  | Some window =>
      let buckets :=
        fold_left (aggregateStep window pricingMap shouldComputeCost) entries
          (DayBucket.makeEmptyDayBuckets (daysInMonth window)) in
      Some (summarize (Some kind) name monthText buckets)
  end.

(** The inner loop of [aggregateCombinedSummary]: the buckets of one
    summary added to the combined ones, index by index. *)
Fixpoint addBuckets (combined sourceBuckets : list DayBucket.t)
  : list DayBucket.t :=
  match combined, sourceBuckets with
  | c :: combined', b :: sourceBuckets' =>
      {| DayBucket.costUSD := DayBucket.costUSD c + DayBucket.costUSD b;
         DayBucket.tokens := DayBucket.tokens c + DayBucket.tokens b;
         DayBucket.entryCount := DayBucket.entryCount c + DayBucket.entryCount b;
         DayBucket.unknownCostEntries :=
           DayBucket.unknownCostEntries c + DayBucket.unknownCostEntries b |}
      :: addBuckets combined' sourceBuckets'
  | _, _ => combined
  end.

(** [aggregateCombinedSummary] *)
Definition aggregateCombinedSummary (monthText : string)
    (summaries : list Summary) : option Summary :=
  match parseMonthWindow Date_local Date_getDate monthText with
  | None => None
  | Some window =>
      let buckets :=
        fold_left (fun combined summary => addBuckets combined (dayBuckets summary))
          summaries (DayBucket.makeEmptyDayBuckets (daysInMonth window)) in
      Some (summarize None "Combined" monthText buckets)
  end.

End Dates.

End Aggregate.

(* ================================================================= *)
(** * The specification's reading of the catalog acquisition *)

Module AcquisitionSpec.
Import Json Io Pricing.

Local Open Scope string_scope.

(** The catalog a cache file carries: its [data] member, when the file
    parses to an object that has one other than [null]. *)
Definition catalogOf (f : FileState) : option json :=
  match f with
  | Parsed (JObj fields) =>
      match lookup fields "data" with
      | Some JNull | None => None
      | Some catalog => Some catalog
      end
  | _ => None
  end.


(** The number of keys of a catalog. *)
Definition keyCount (catalog : json) : nat :=
  match Object_keys catalog with
  | Some keys => List.length keys
  | None => 0
  end.


Definition statusFor (catalog : json) (tag : PricingSource) : PricingStatus :=
  {| pricingMap := catalog;
     isEmpty := Nat.eqb (keyCount catalog) 0;
     source := tag |}.


Section WithDates.

Variable Date_getTime : jsval -> Result (option Z).
Variable toISOString : Z -> string.

(** The cache file carries a [fetchedAt] that parses to a time less
    than 24 hours before the clock. *)
Definition withinWindow (w : World) : bool :=
  match file w with
  | Parsed (JObj fields) =>
      match Date_getTime (lookup fields "fetchedAt") with
      | Ok (Some time) => (clock w - time <? 24 * 60 * 60 * 1000)%Z
      | Ok None | Throw => false
      end
  | _ => false
  end.

(** The cache file carries a catalog and a [fetchedAt] from which no
    [Date] can be constructed: the age check of the first read throws. *)
Definition dateThrows (w : World) : bool :=
  match catalogOf (file w), file w with
  | Some _, Parsed (JObj fields) =>
      match Date_getTime (lookup fields "fetchedAt") with
      | Throw => true
      | Ok _ => false
      end
  | _, _ => false
  end.

(** The catalog of a fresh cache: what the first read of step 1 keeps. *)
Definition freshCatalog (w : World) : option json :=
  if withinWindow w then catalogOf (file w) else None.

(** The payload of a response the fetch accepts: status ok, and a body
    that parses to an object that is not an array. *)
Definition acceptedPayload (w : World) : option json :=
  match network w with
  | NetResponse {| ok := true; body := Some (JObj fields) |} => Some (JObj fields)
  | _ => None
  end.

(** The fetch fails: no accepted payload, or the cache write throws. *)
Definition fetchFails (w : World) : bool :=
  match acceptedPayload w, failedWrite w with
  | Some _, None => false
  | _, _ => true
  end.

(** The cache file as the re-read after a failed fetch finds it. *)
Definition fileAfterFailedFetch (w : World) : FileState :=
  match acceptedPayload w, failedWrite w with
  | Some _, Some leftover => leftover
  | _, _ => file w
  end.

(** The status the fallback chain arrives at, case by case. *)
Definition acquired (offline : bool) (w : World) : PricingStatus :=
  if offline then
    match catalogOf (file w) with
    | Some catalog => statusFor catalog offline_cache
    | None => emptyStatus offline_empty
    end
  else
    match acceptedPayload w, fetchFails w with
    | Some payload, false => statusFor payload remote
    | _, _ =>
        match freshCatalog w with
        | Some catalog => statusFor catalog fresh_cache
        | None =>
            match catalogOf (fileAfterFailedFetch w) with
            | Some catalog => statusFor catalog stale_cache
            | None => emptyStatus unavailable
            end
        end
    end.



End WithDates.

End AcquisitionSpec.

(* ================================================================= *)
(** * The specification's reading of the cost estimate *)

Module CostSpec.
Import JsNumber Types Pricing.

Local Open Scope float_scope.

(** A rate that is present, finite and above zero. *)
Definition positiveFinite (rate : option number) : bool :=
  match rate with
  | Some r => isFinite r && (0 <? r)
  | None => false
  end.

(** The four token counts an entry is billed for. *)
Record Buckets : Type := {
  nonCachedInput : number;
  output : number;
  cacheWrite : number;
  cacheRead : number
}.

(** The four bucket costs, summed in the order input, output,
    cache-write, cache-read. *)
Definition bill (pricing : PricingRecord) (b : Buckets) : number :=
  calculateTieredCost (nonCachedInput b)
    (input_cost_per_token pricing)
    (input_cost_per_token_above_200k_tokens pricing) THRESHOLD
  + calculateTieredCost (output b)
      (output_cost_per_token pricing)
      (output_cost_per_token_above_200k_tokens pricing) THRESHOLD
  + calculateTieredCost (cacheWrite b)
      (cache_creation_input_token_cost pricing)
      (cache_creation_input_token_cost_above_200k_tokens pricing) THRESHOLD
  + calculateTieredCost (cacheRead b)
      (cache_read_input_token_cost pricing)
      (cache_read_input_token_cost_above_200k_tokens pricing) THRESHOLD.

(** [Number.isFinite(total) ? total : null] *)
Definition finiteOrNull (total : number) : option number :=
  if isFinite total then Some total else None.

(** Codex: cache reads are part of the input count. *)
Definition codexBuckets (entry : UsageEntry) : Buckets :=
  let capped :=
    Math_max (Math_min (cacheReadTokens entry) (inputTokens entry)) 0 in
  {| nonCachedInput := Math_max (inputTokens entry - capped) 0;
     output := Math_max (outputTokens entry + reasoningOutputTokens entry) 0;
     cacheWrite := Math_max (cacheWriteTokens entry) 0;
     cacheRead := capped |}.

(** Claude: cache reads come on top of the input count. *)
Definition claudeBuckets (entry : UsageEntry) : Buckets :=
  {| nonCachedInput := Math_max (inputTokens entry) 0;
     output := Math_max (outputTokens entry) 0;
     cacheWrite := Math_max (cacheWriteTokens entry) 0;
     cacheRead := Math_max (cacheReadTokens entry) 0 |}.

End CostSpec.

(* ================================================================= *)
(** * The specification's reading of the delta reconstructor *)

Module LoaderSpec.
Import JsNumber JsString Json Types Utils Loaders.

Local Open Scope string_scope.

(** The five numeric fields of a snapshot. *)
Definition snapshotFields : list (CodexRawUsage -> number) :=
  [ input_tokens; cached_input_tokens; output_tokens;
    reasoning_output_tokens; total_tokens ].

Definition zeroUsage : CodexRawUsage :=
  {| input_tokens := 0; cached_input_tokens := 0; output_tokens := 0;
     reasoning_output_tokens := 0; total_tokens := 0 |}.

(** The four counts an entry is made of are [0]. *)
Definition billedZero (delta : CodexRawUsage) : Prop :=
  input_tokens delta = 0%float
  /\ cached_input_tokens delta = 0%float
  /\ output_tokens delta = 0%float
  /\ reasoning_output_tokens delta = 0%float.

(** A reported value that is missing, not a number, or not finite. *)
Definition notANumber (value : jsval) : bool :=
  match value with
  | Some (JNum n) => negb (isFinite n)
  | _ => true
  end.

(** A reported total that is missing, not a number, not finite, or at
    most [0]. *)
Definition unusableTotal (value : jsval) : bool :=
  match value with
  | Some (JNum n) => negb (isFinite n) || (n <=? 0)%float
  | _ => true
  end.

Section Lines.

Variable Date_parse : string -> option Z.

(** The payload of a line that is a [token_count] event with a
    timestamp that parses: the lines the loop reads usage from. *)
Definition usagePayload (line : json) : option record :=
  match line with
  | JObj lineRecord =>
      if isText (asTrimmedString (lookup lineRecord "type")) "event_msg" then
        match asRecord (lookup lineRecord "payload") with
        | Some payload =>
            if isText (asTrimmedString (lookup payload "type")) "token_count"
            then
              match asTrimmedString (lookup lineRecord "timestamp") with
              | Some text =>
                  match Date_parse text with
                  | Some _ => Some payload
                  | None => None
                  end
              | None => None
              end
            else None
        | None => None
        end
      else None
  | _ => None
  end.

(** The cumulative-total snapshot a usage line carries. *)
Definition cumulativeSnapshot (line : json) : option CodexRawUsage :=
  match usagePayload line with
  | Some payload =>
      normalizeCodexRawUsage
        (field (asRecord (lookup payload "info")) "total_token_usage")
  | None => None
  end.

(** Claim C7 as the specification words it, for two lines in a row that
    carry the same snapshot: the delta of the second is zero in all five
    fields, and no entry is pushed for it. *)
Definition duplicate_as_stated (state : StreamState) (first second : json)
  : Prop :=
  forall c,
    cumulativeSnapshot first = Some c ->
    cumulativeSnapshot second = Some c ->
    let state1 := fst (processLine Date_parse state first) in
    Forall
      (fun f =>
         strictEq (f (subtractCodexUsage c (previousTotals state1))) 0 = true)
      snapshotFields
    /\ snd (processLine Date_parse state1 second) = None.

End Lines.

End LoaderSpec.

(* ================================================================= *)
(** * The specification's reading of the resolver's examples *)

Module ResolverSpec.
Import JsString Types Pricing.

Local Open Scope string_scope.

(** The model string of the fuzzy tie-break example. *)
Definition previewModel : string := "gpt-4-turbo-preview".

(** A catalog that contains exactly the two keys, in either order. *)
Definition exactlyKeys (short long : string) (pricingMap : PricingMap)
    (shortRecord longRecord : PricingRecord) : Prop :=
  pricingMap = [(short, shortRecord); (long, longRecord)]
  \/ pricingMap = [(long, longRecord); (short, shortRecord)].

(** Claim C1 as the specification words it: resolution succeeds and
    returns the record stored under ["openai/gpt-4-turbo"]. *)
Definition tiebreak_as_stated (pricingMap : PricingMap) (entry : UsageEntry)
  : Prop :=
  exists found,
    get pricingMap "openai/gpt-4-turbo" = Some found
    /\ resolvePricing pricingMap entry = Some found.

(** A candidate is a variant, or a variant behind a prefix and a slash. *)
Definition extends (variants : list string) (candidate : string) : Prop :=
  exists base,
    In base variants
    /\ (candidate = base \/ exists prefix, candidate = prefix ++ "/" ++ base).

End ResolverSpec.

(* ================================================================= *)
(** * Sample inputs *)

Module Samples.
Import JsNumber Json Types Io Pricing.

Local Open Scope string_scope.

(** The [Date] the samples are run with.  It parses one timestamp, the
    epoch, and takes every other string and a missing value for an
    invalid date; it throws on an object whose own [toString] is not
    callable, as every property of a parsed file is.  The sample files
    hold no other kind of [fetchedAt]. *)
Definition epochOnly (value : jsval) : Result (option Z) :=
  match value with
  | Some (JStr text) =>
      if String.eqb text "1970-01-01T00:00:00.000Z"
      then Ok (Some 0%Z) else Ok None
  | Some (JObj fields) =>
      match lookup fields "toString" with
      | Some _ => Throw
      | None => Ok None
      end
  | _ => Ok None
  end.

Definition epochText (ms : Z) : string := "1970-01-01T00:00:00.000Z".

Definition world (f : FileState) (now : Z) (net : Network) : World :=
  {| file := f; clock := now; network := net;
     failedWrite := None; trace := [] |}.

(** A cache file written at the epoch that holds the catalog [{}]. *)
Definition emptyCatalogFile : FileState :=
  Parsed (JObj [("fetchedAt", JStr "1970-01-01T00:00:00.000Z");
                ("data", JObj [])]).


(** A cache file written at the epoch with one model in its catalog. *)
Definition oneModelFile : FileState :=
  Parsed (JObj [("fetchedAt", JStr "1970-01-01T00:00:00.000Z");
                ("data", JObj [("openai/gpt-4", JObj [])])]).

(** A cache file with one model in its catalog whose [fetchedAt] is an
    object with an own [toString] that is not callable. *)
Definition unconvertibleStampFile : FileState :=
  Parsed (JObj [("fetchedAt", JObj [("toString", JNum 1)]);
                ("data", JObj [("openai/gpt-4", JObj [])])]).

(** Two days after the epoch, in milliseconds. *)
Definition twoDays : Z := 172800000.

(** A rate card with an input and an output rate only. *)
Definition rates (inputRate outputRate : number) : PricingRecord :=
  {| input_cost_per_token := Some inputRate;
     output_cost_per_token := Some outputRate;
     cache_creation_input_token_cost := None;
     cache_read_input_token_cost := None;
     input_cost_per_token_above_200k_tokens := None;
     output_cost_per_token_above_200k_tokens := None;
     cache_creation_input_token_cost_above_200k_tokens := None;
     cache_read_input_token_cost_above_200k_tokens := None |}.

(** An entry with 100,000 input and 50,000 output tokens, of which
    20,000 were read from the cache. *)
Definition usage (kind : SourceKind) (name : string) (hint : option string)
  : UsageEntry :=
  {| Types.source := kind;
     timestamp := 0;
     model := name;
     provider := hint;
     inputTokens := 100000;
     outputTokens := 50000;
     cacheReadTokens := 20000;
     cacheWriteTokens := 0;
     reasoningOutputTokens := 1000;
     costUSD := None |}.

(** A date parser that accepts every text. *)
Definition anyDate (text : string) : option Z := Some 0%Z.

(** A [token_count] line whose cumulative totals are 120 input tokens,
    of which 20 cached, and 30 output tokens. *)
Definition totalsLine : json :=
  JObj [("type", JStr "event_msg");
        ("timestamp", JStr "2025-01-01T00:00:00.000Z");
        ("payload",
         JObj [("type", JStr "token_count");
               ("info",
                JObj [("total_token_usage",
                       JObj [("input_tokens", JNum 120);
                             ("cached_input_tokens", JNum 20);
                             ("output_tokens", JNum 30);
                             ("reasoning_output_tokens", JNum 0);
                             ("total_tokens", JNum 150)])])])].

(** A [token_count] line whose cumulative totals are two counts near the
    top of the number range, and no reported total. *)
Definition overflowLine : json :=
  JObj [("type", JStr "event_msg");
        ("timestamp", JStr "2025-01-01T00:00:00.000Z");
        ("payload",
         JObj [("type", JStr "token_count");
               ("info",
                JObj [("total_token_usage",
                       JObj [("input_tokens", JNum 0x1p1023);
                             ("output_tokens", JNum 0x1p1023)])])])].

(** Totals late in a stream, and the totals right after a restart. *)
Definition earlierTotals : Loaders.CodexRawUsage :=
  {| Loaders.input_tokens := 900; Loaders.cached_input_tokens := 300;
     Loaders.output_tokens := 80; Loaders.reasoning_output_tokens := 10;
     Loaders.total_tokens := 980 |}.

Definition restartTotals : Loaders.CodexRawUsage :=
  {| Loaders.input_tokens := 40; Loaders.cached_input_tokens := 0;
     Loaders.output_tokens := 5; Loaders.reasoning_output_tokens := 0;
     Loaders.total_tokens := 45 |}.

(** A [token_count] line that carries a last-usage value only. *)
Definition lastOnlyLine : json :=
  JObj [("type", JStr "event_msg");
        ("timestamp", JStr "2025-01-01T00:00:05.000Z");
        ("payload",
         JObj [("type", JStr "token_count");
               ("info",
                JObj [("last_token_usage",
                       JObj [("input_tokens", JNum 10);
                             ("cached_input_tokens", JNum 4);
                             ("output_tokens", JNum 3)])])])].

(** A [turn_context] line that announces the model ["o3"]. *)
Definition contextLine : json :=
  JObj [("type", JStr "turn_context");
        ("payload", JObj [("model", JStr "o3")])].

(** A Claude line with 7 input and 2 output tokens; with or without the
    two ids it is de-duplicated under. *)
Definition claudeLine (withIds : bool) : json :=
  JObj ((if withIds then [("requestId", JStr "req_1")] else [])
        ++ [("timestamp", JStr "2025-01-01T00:00:00.000Z");
            ("message",
             JObj ((if withIds then [("id", JStr "msg_1")] else [])
                   ++ [("model", JStr "claude-3");
                       ("usage",
                        JObj [("input_tokens", JNum 7);
                              ("output_tokens", JNum 2)])]))])%list.

(** A calendar in which every month has 30 days of 86,400,000 ms, counted
    from day 1 of month 0 of year 0. *)
Definition thirtyDayLocal (year monthIndex day : nat) : Z :=
  (((Z.of_nat year * 12 + Z.of_nat monthIndex) * 30 + Z.of_nat day - 1)
   * 86400000)%Z.

Definition thirtyDayDate (time : Z) : Z :=
  ((time / 86400000) mod 30 + 1)%Z.

(** An entry like [usage], with a known cost of 3. *)
Definition paidUsage (kind : SourceKind) (name : string) : UsageEntry :=
  {| Types.source := kind;
     timestamp := 0;
     model := name;
     provider := None;
     inputTokens := 100000;
     outputTokens := 50000;
     cacheReadTokens := 20000;
     cacheWriteTokens := 0;
     reasoningOutputTokens := 1000;
     costUSD := Some 3%float |}.

(** A raw usage record that reports no total. *)
Definition noTotalUsage : list (string * json) :=
  [("input_tokens", JNum 5); ("output_tokens", JNum 7)].

(** The catalog of the fuzzy tie-break example. *)
Definition prefixedCatalog : PricingMap :=
  [("openai/gpt-4", rates 1 1); ("openai/gpt-4-turbo", rates 2 2)].

End Samples.

(* ================================================================= *)
(** * Notions used to state further properties of the resolver *)

Module CandidateSpec.
Import JsString Types Pricing.

Local Open Scope string_scope.

(** Every code unit of [s] is a decimal digit. *)
Fixpoint allDigits (s : string) : bool :=
  match s with
  | EmptyString => true
  | String c rest => isDigit c && allDigits rest
  end.

(** The suffixes the codex pattern accepts after the minor version. *)
Definition codexSuffixes : list string :=
  ["-codex"; "-codex-mini"; "-codex-max"; "-codex-high"; "-codex-low"].

(** The provider prefixes tried for an entry: its own trimmed provider,
    when not blank, then the ones its origin implies. *)
Definition providerHints (entry : UsageEntry) : list string :=
  (toNonEmpty (option_map trim (Types.provider entry))
   ++ (if SourceKind_eqb (Types.source entry) claude
       then ["anthropic"; "vertex_ai"] else [])
   ++ (if SourceKind_eqb (Types.source entry) codex
       then ["openai"; "azure"; "openrouter/openai"] else []))%list.

(** An entry without any token. *)
Definition noTokens (entry : UsageEntry) : Prop :=
  inputTokens entry = 0%float
  /\ outputTokens entry = 0%float
  /\ cacheReadTokens entry = 0%float
  /\ cacheWriteTokens entry = 0%float
  /\ reasoningOutputTokens entry = 0%float.

End CandidateSpec.

(* ================================================================= *)
(** * Notions used to state the effects of an acquisition *)

Module EffectSpec.
Import Json Io Pricing AcquisitionSpec.

Local Open Scope string_scope.

Definition isFetch (e : Event) : bool :=
  match e with EvFetch => true | _ => false end.

Definition isWrite (e : Event) : bool :=
  match e with EvWriteFile => true | _ => false end.

(** The events an acquisition adds to the trace. *)
Definition eventsOf (before after : World) : list Event :=
  skipn (List.length (trace before)) (trace after).

(** The cache file that a successful write of [payload] at time [now]
    leaves, as a later read parses it. *)
Definition writtenFile (toISOString : Z -> string) (now : Z) (payload : json)
  : FileState :=
  Parsed (JObj [("fetchedAt", JStr (toISOString now));
                ("data", roundTrip payload)]).

(** A body the fetch accepts: an object that is not an array. *)
Definition acceptedPayloadShape (payload : json) : bool :=
  match payload with JObj _ => true | _ => false end.

End EffectSpec.

(* ================================================================= *)
(** * Notions used to state further properties of the Codex log *)

Module StreamSpec.
Import JsNumber JsString Json Types Utils Loaders LoaderSpec.

Local Open Scope string_scope.

(** What every entry read from a Codex log looks like. *)
Definition codexShaped (entry : UsageEntry) : Prop :=
  Types.source entry = codex
  /\ provider entry = None
  /\ costUSD entry = None
  /\ cacheWriteTokens entry = 0%float
  /\ (inputTokens entry <? cacheReadTokens entry)%float = false
  /\ model entry <> ""
  /\ strictEq (inputTokens entry + outputTokens entry
               + cacheReadTokens entry + reasoningOutputTokens entry)%float
              0%float = false.

(** The model a [turn_context] line announces. *)
Definition contextModel (line : json) : option string :=
  match line with
  | JObj lineRecord =>
      if isText (asTrimmedString (lookup lineRecord "type")) "turn_context"
      then extractModel (lookup lineRecord "payload")
      else None
  | _ => None
  end.

(** The model a usage payload names itself, directly or in its [info]. *)
Definition ownModel (payload : record) : option string :=
  orElse (extractModel (Some (JObj payload)))
         (extractModel (option_map JObj (asRecord (lookup payload "info")))).

(** The two usage values of a payload: cumulative totals, last delta. *)
Definition totalUsageOf (payload : record) : option CodexRawUsage :=
  normalizeCodexRawUsage
    (field (asRecord (lookup payload "info")) "total_token_usage").

Definition lastUsageOf (payload : record) : option CodexRawUsage :=
  normalizeCodexRawUsage
    (field (asRecord (lookup payload "info")) "last_token_usage").

(** The four counts of a usage value sum to zero. *)
Definition sumsToZero (usage : CodexRawUsage) : bool :=
  strictEq
    (input_tokens usage + output_tokens usage
     + Math_min (cached_input_tokens usage) (input_tokens usage)
     + reasoning_output_tokens usage)%float 0%float.

(** The usage a payload is read as: the delta from the baseline when it
    carries cumulative totals, else its last delta as it is. *)
Definition usageOf (state : StreamState) (payload : record)
  : option CodexRawUsage :=
  match totalUsageOf payload with
  | Some total => Some (subtractCodexUsage total (previousTotals state))
  | None => lastUsageOf payload
  end.

(** The baseline after a payload: its cumulative totals when it has any. *)
Definition baselineAfter (state : StreamState) (payload : record)
  : option CodexRawUsage :=
  match totalUsageOf payload with
  | Some total => Some total
  | None => previousTotals state
  end.

(** The model of the entry a payload gives. *)
Definition modelFor (state : StreamState) (payload : record) : string :=
  match orElse (ownModel payload) (currentModel state) with
  | Some name => name
  | None => "gpt-5"
  end.

(** The entry pushed for a usage value. *)
Definition entryOf (date : Z) (name : string) (usage : CodexRawUsage)
  : UsageEntry :=
  {| Types.source := codex;
     timestamp := date;
     model := name;
     provider := None;
     inputTokens := input_tokens usage;
     outputTokens := output_tokens usage;
     cacheReadTokens := Math_min (cached_input_tokens usage) (input_tokens usage);
     cacheWriteTokens := 0;
     reasoningOutputTokens := reasoning_output_tokens usage;
     costUSD := None |}.

(** The current model is never blank. *)
Definition namedState (state : StreamState) : Prop :=
  forall name, currentModel state = Some name -> name <> "".

End StreamSpec.

(* ================================================================= *)
(** * Notions used to state properties of the Claude log *)

Module ClaudeSpec.
Import JsNumber JsString Json Types Utils Loaders ClaudeLoader.

Local Open Scope string_scope.

(** The key a line is de-duplicated under: its message id and its request
    id, when it has both. *)
Definition claudeKey (line : json) : option string :=
  match line with
  | JObj lineRecord =>
      match asTrimmedString (field (asRecord (lookup lineRecord "message")) "id"),
            asTrimmedString (lookup lineRecord "requestId") with
      | Some mid, Some rid => Some (mid ++ ":" ++ rid)
      | _, _ => None
      end
  | _ => None
  end.

(** The line has a usage record and a timestamp that parses: the lines
    the loop reads usage from. *)
Definition readable (Date_parse : string -> option Z) (line : json) : bool :=
  match line with
  | JObj lineRecord =>
      match asRecord (field (asRecord (lookup lineRecord "message")) "usage"),
            asTrimmedString (lookup lineRecord "timestamp") with
      | Some _, Some text =>
          match Date_parse text with Some _ => true | None => false end
      | _, _ => false
      end
  | _ => false
  end.

(** What every entry read from a Claude log looks like. *)
Definition claudeShaped (entry : UsageEntry) : Prop :=
  Types.source entry = claude
  /\ provider entry = None
  /\ reasoningOutputTokens entry = 0%float
  /\ model entry <> ""
  /\ isFinite (inputTokens entry) = true
  /\ isFinite (outputTokens entry) = true
  /\ isFinite (cacheReadTokens entry) = true
  /\ isFinite (cacheWriteTokens entry) = true
  /\ strictEq (inputTokens entry + outputTokens entry
               + cacheReadTokens entry + cacheWriteTokens entry)%float
              0%float = false
  /\ (forall cost, costUSD entry = Some cost -> isFinite cost = true).

End ClaudeSpec.

(* ================================================================= *)
(** * Notions used to state properties of the helpers and the aggregation *)

Module ReportSpec.
Import JsNumber JsString Types Pricing CommaList Month Aggregate.

Local Open Scope string_scope.

(** No code unit of [s] is a comma. *)
Fixpoint commaFree (s : string) : bool :=
  match s with
  | EmptyString => true
  | String c rest => negb (Ascii.eqb c ",") && commaFree rest
  end.

(** What an element of a comma list looks like: not blank, trimmed, and
    without a comma. *)
Definition listItem (part : string) : Prop :=
  part <> "" /\ trim part = part /\ commaFree part = true.

(** The items written one after the other with a comma in between, as a
    list is given in an environment variable. *)
Fixpoint joinComma (parts : list string) : string :=
  match parts with
  | [] => ""
  | [only] => only
  | first :: rest => first ++ "," ++ joinComma rest
  end.

(** A month text the parser accepts: four digits, a dash, and two digits
    that read as a month number from 1 to 12. *)
Definition monthShaped (trimmed yearText monthText : string) : Prop :=
  trimmed = yearText ++ "-" ++ monthText
  /\ String.length yearText = 4 /\ digitsOnly yearText = true
  /\ String.length monthText = 2 /\ digitsOnly monthText = true
  /\ 1 <= Number_ofDigits monthText <= 12.

(** The entry falls in the window and on a day the window has a bucket
    for. *)
Definition counted (Date_getDate : Z -> Z) (window : MonthWindow)
    (entry : UsageEntry) : bool :=
  monthContainsDate window (timestamp entry)
  && (0 <=? monthDayIndex Date_getDate (timestamp entry))%Z
  && (monthDayIndex Date_getDate (timestamp entry) <? Z.max 0 (daysInMonth window))%Z.

(** A bucket without cost and without unknown entries. *)
Definition costFree (bucket : DayBucket.t) : Prop :=
  DayBucket.costUSD bucket = 0%float
  /\ DayBucket.unknownCostEntries bucket = 0%float.

(** A summary with its buckets cut to the days of a window. *)
Definition cutTo (window : MonthWindow) (summary : Summary) : Summary :=
  {| Aggregate.source := Aggregate.source summary;
     Aggregate.label := Aggregate.label summary;
     Aggregate.month := Aggregate.month summary;
     Aggregate.dayBuckets :=
       firstn (Z.to_nat (daysInMonth window)) (Aggregate.dayBuckets summary);
     Aggregate.totalCostUSD := Aggregate.totalCostUSD summary;
     Aggregate.totalTokens := Aggregate.totalTokens summary;
     Aggregate.totalEntries := Aggregate.totalEntries summary;
     Aggregate.unknownCostEntries := Aggregate.unknownCostEntries summary |}.

End ReportSpec.

Module NumberFacts.
Import JsNumber.
Local Open Scope float_scope.

Lemma Prim2SF_zero : Prim2SF 0 = S754_zero false.
Proof. reflexivity. Qed.

Lemma Prim2SF_infinity : Prim2SF infinity = S754_infinity false.
Proof. reflexivity. Qed.

(** A finite number is a zero or a finite binary float. *)
Lemma isFinite_inv (x : number) :
  isFinite x = true ->
  (exists s, Prim2SF x = S754_zero s) \/
  (exists s m e, Prim2SF x = S754_finite s m e).
Proof.
  unfold isFinite, is_finite, is_nan, is_infinity.
  rewrite !eqb_spec, abs_spec, Prim2SF_infinity.
  destruct (Prim2SF x) as [s| s | | s m e]; simpl.
  - intros _. left. now exists s.
  - destruct s; discriminate.
  - discriminate.
  - intros _. right. now exists s, m, e.
Qed.

Lemma cond_Zopp_sub_self (s : bool) (z : Z) :
  (cond_Zopp s z - cond_Zopp s z)%Z = 0%Z.
Proof. lia. Qed.

(** [x - x] is [+0] for every finite [x] (round to nearest). *)
Lemma sub_self_finite (x : number) :
  isFinite x = true -> x - x = 0.
Proof.
  intros Hfin. apply Prim2SF_inj.
  rewrite sub_spec, Prim2SF_zero.
  destruct (isFinite_inv x Hfin) as [[s ->] | (s & m & e & ->)].
  - now destruct s.
  - unfold SF64sub, SFsub.
    cbv zeta. rewrite cond_Zopp_sub_self. reflexivity.
Qed.

(** [x - x] is NaN for every [x] that is not finite. *)
Lemma sub_self_not_finite (x : number) :
  isFinite x = false -> isNaN (x - x) = true.
Proof.
  unfold isFinite, isNaN, is_finite, is_nan, is_infinity.
  rewrite !eqb_spec, sub_spec, abs_spec, Prim2SF_infinity.
  destruct (Prim2SF x) as [s | s | | s m e]; simpl;
    try discriminate; try reflexivity.
  - now destruct s.
  - unfold SFeqb, SFcompare. rewrite Z.compare_refl.
    change (PosDef.Pos.compare_cont Eq m m) with (Pos.compare_cont Eq m m).
    fold (Pos.compare m m). rewrite Pos.compare_refl.
    destruct s; discriminate.
Qed.

(** [t <= 0] excludes [t > 0]. *)
Lemma leb_zero_not_gt (t : number) :
  (t <=? 0) = true -> (0 <? t) = false.
Proof.
  rewrite leb_spec, ltb_spec, Prim2SF_zero.
  unfold SFleb, SFltb.
  destruct (Prim2SF t) as [s | s | | s m e]; simpl; try reflexivity;
    destruct s; simpl; congruence.
Qed.

Lemma isNaN_false_compare (x : number) :
  isNaN x = false -> Prim2SF x <> S754_nan.
Proof.
  unfold isNaN, is_nan. rewrite eqb_spec.
  intros H E. rewrite E in H. discriminate.
Qed.

(** Against [+0], a number that is not NaN is smaller or at least [0]. *)
Lemma not_lt_zero_ge (x : number) :
  isNaN x = false -> (x <? 0) = false -> (0 <=? x) = true.
Proof.
  intros Hnan. apply isNaN_false_compare in Hnan.
  rewrite leb_spec, ltb_spec, Prim2SF_zero.
  unfold SFleb, SFltb.
  destruct (Prim2SF x) as [s | s | | s m e]; simpl; try congruence;
    destruct s; simpl; congruence.
Qed.

(** [Math.max(d, 0)] is never below zero, whatever [d] is. *)
Lemma Math_max_zero_not_neg (d : number) :
  (Math_max d 0 <? 0) = false.
Proof.
  unfold Math_max.
  destruct (isNaN d || isNaN 0); [reflexivity|].
  destruct (d <? 0) eqn:Hlt; [reflexivity|].
  destruct (0 <? d); [assumption|].
  destruct (isNegZero d); [reflexivity | assumption].
Qed.

(** [Math.max(d, 0)] is [>= 0] as soon as [d] is not NaN. *)
Lemma Math_max_zero_ge (d : number) :
  isNaN d = false -> (0 <=? Math_max d 0) = true.
Proof.
  intros Hnan. unfold Math_max. rewrite Hnan. simpl.
  destruct (d <? 0) eqn:Hlt; [reflexivity|].
  destruct (0 <? d); [now apply not_lt_zero_ge|].
  destruct (isNegZero d); [reflexivity | now apply not_lt_zero_ge].
Qed.

(** [Math.max(d, 0)] is never the negative zero. *)
Lemma Math_max_zero_not_negzero (d : number) :
  isNegZero (Math_max d 0) = false.
Proof.
  unfold Math_max.
  destruct (isNaN d || isNaN 0); [reflexivity|].
  destruct (d <? 0) eqn:Hlt; [reflexivity|].
  destruct (0 <? d) eqn:Hgt.
  - unfold isNegZero. rewrite classify_spec.
    rewrite ltb_spec, Prim2SF_zero in Hgt. unfold SFltb in Hgt.
    destruct (Prim2SF d) as [s | s | | s m e]; simpl in *; try discriminate.
    + now destruct s.
    + destruct s; [discriminate|]. unfold SF64classify, SFclassify.
      match goal with |- context [if ?c then _ else _] => destruct c end;
        reflexivity.
  - destruct (isNegZero d) eqn:E; [reflexivity | assumption].
Qed.

(** ** Order facts *)

Lemma Prim2SF_nan : Prim2SF nan = S754_nan.
Proof. reflexivity. Qed.

Lemma Prim2SF_neg_zero : Prim2SF neg_zero = S754_zero true.
Proof. reflexivity. Qed.

(** Swapping the operands of a comparison reverses its result. *)
Lemma SFcompare_swap (x y : spec_float) :
  SFcompare y x = option_map CompOpp (SFcompare x y).
Proof.
  destruct x as [sx | sx | | sx mx ex], y as [sy | sy | | sy my ey]; simpl;
    try reflexivity;
    try (destruct sx; reflexivity);
    try (destruct sy; reflexivity);
    try (destruct sx, sy; reflexivity).
  destruct sx, sy; simpl; try reflexivity;
    rewrite (Z.compare_antisym ex ey);
    destruct (ex ?= ey)%Z; simpl; try reflexivity;
    repeat f_equal; symmetry; exact (Pos.compare_cont_antisym mx my Eq).
Qed.

Lemma ltb_asym (x y : number) :
  (x <? y) = true -> (y <? x) = false.
Proof.
  rewrite !ltb_spec. unfold SFltb.
  rewrite (SFcompare_swap (Prim2SF x) (Prim2SF y)).
  destruct (SFcompare (Prim2SF x) (Prim2SF y)) as [[] |]; simpl; congruence.
Qed.

Lemma ltb_irrefl (x : number) : (x <? x) = false.
Proof.
  destruct (x <? x) eqn:H; [| reflexivity].
  now rewrite (ltb_asym H) in H.
Qed.

Lemma ltb_nan_r (x : number) : (x <? nan) = false.
Proof.
  rewrite ltb_spec, Prim2SF_nan. unfold SFltb.
  now destruct (Prim2SF x).
Qed.

(** [Math.min(a, b)] never exceeds [b]. *)
Lemma Math_min_le_r (a b : number) : (b <? Math_min a b) = false.
Proof.
  unfold Math_min.
  destruct (isNaN a || isNaN b); [apply ltb_nan_r |].
  destruct (a <? b) eqn:Hab; [now apply ltb_asym |].
  destruct (b <? a) eqn:Hba; [apply ltb_irrefl |].
  destruct (isPosZero a); [apply ltb_irrefl | assumption].
Qed.

Lemma SFeqb_refl (x : spec_float) :
  SFeqb x x = match x with S754_nan => false | _ => true end.
Proof.
  destruct x as [s | s | | s m e]; unfold SFeqb; simpl;
    try reflexivity; try (destruct s; reflexivity).
  pose proof (Pos.compare_cont_refl m Eq) as Hm.
  destruct s; rewrite Z.compare_refl;
    change (PosDef.Pos.compare_cont Eq m m) with (Pos.compare_cont Eq m m);
    rewrite Hm; reflexivity.
Qed.

(** The operands of a comparison that holds are not NaN. *)
Lemma ltb_not_nan (a b : number) :
  (a <? b) = true -> isNaN a = false /\ isNaN b = false.
Proof.
  unfold isNaN, is_nan. rewrite ltb_spec, !eqb_spec, !SFeqb_refl.
  unfold SFltb.
  destruct (Prim2SF a), (Prim2SF b); simpl;
    solve [discriminate | split; reflexivity].
Qed.

(** Above the threshold, [Math.min(t, threshold)] is the threshold. *)
Lemma Math_min_above (t threshold : number) :
  (threshold <? t) = true -> Math_min t threshold = threshold.
Proof.
  intros Hgt. unfold Math_min.
  destruct (ltb_not_nan Hgt) as [Hthreshold Ht].
  rewrite Ht, Hthreshold, (ltb_asym Hgt), Hgt. reflexivity.
Qed.

(** Adding [+0] changes nothing but the sign of [-0]. *)
Lemma add_zero_r (x : number) :
  x + 0 = x \/ (x = neg_zero /\ x + 0 = 0).
Proof.
  destruct (Prim2SF x) as [s | s | | s m e] eqn:Hx.
  - destruct s.
    + right. split.
      * apply Prim2SF_inj. now rewrite Hx.
      * apply Prim2SF_inj. rewrite add_spec, Hx. reflexivity.
    + left. apply Prim2SF_inj. rewrite add_spec, Hx. reflexivity.
  - left. apply Prim2SF_inj. rewrite add_spec, Hx. reflexivity.
  - left. apply Prim2SF_inj. rewrite add_spec, Hx. reflexivity.
  - left. apply Prim2SF_inj. rewrite add_spec, Hx. reflexivity.
Qed.

(** [Math.max(x + 0, 0)] is [Math.max(x, 0)]. *)
Lemma Math_max_add_zero (x : number) :
  Math_max (x + 0) 0 = Math_max x 0.
Proof.
  destruct (add_zero_r x) as [-> | [-> _]]; reflexivity.
Qed.

End NumberFacts.

(* ================================================================= *)
(** * Catalog acquisition: the fallback chain *)

Module AcquisitionFacts.
Import Json Io Pricing AcquisitionSpec.

Local Open Scope string_scope.

Section WithDates.

Variable Date_getTime : jsval -> Result (option Z).
Variable toISOString : Z -> string.

Lemma trace_log (e : Event) (w : World) : trace (log e w) = (trace w ++ [e])%list.
Proof. reflexivity. Qed.

(** [readJsonFile] never throws, logs one read and leaves the file. *)
Lemma readJsonFile_run (w : World) :
  readJsonFile w =
    (Ok (match file w with Parsed value => Some value | _ => None end),
     log EvReadFile w).
Proof. unfold readJsonFile, tryCatch, bind, readFileAndParse, ret.
       destruct (file w); reflexivity. Qed.

(** [stale?.data != null] holds exactly when the file carries a catalog. *)
Lemma dataOf_catalog (f : FileState) :
  let stale := match f with Parsed value => Some value | _ => None end in
  match catalogOf f with
  | Some catalog => dataOf stale = Some catalog /\ catalog <> JNull
  | None => isNullish (dataOf stale) = true
  end.
Proof.
  destruct f as [| | value]; simpl; try reflexivity.
  destruct value; simpl; try reflexivity.
  destruct (lookup fields "data") as [[]|]; simpl;
    try reflexivity; split; (reflexivity || discriminate).
Qed.

Lemma statusOf_catalog (catalog : json) (tag : PricingSource) (w : World) :
  catalog <> JNull ->
  statusOf (Some catalog) tag w = (Ok (statusFor catalog tag), w).
Proof.
  intros Hnn. unfold statusOf, statusFor, keyCount.
  destruct catalog; try reflexivity. now elim Hnn.
Qed.

Lemma catalog_not_nullish (catalog : json) :
  catalog <> JNull -> isNullish (Some catalog) = false.
Proof. destruct catalog; intros H; try reflexivity. now elim H. Qed.

(** [readCache] throws exactly when the age check does; otherwise it
    keeps the file when it is fresh. *)
Lemma readCache_run (w : World) :
  if dateThrows Date_getTime w
  then readCache Date_getTime w = (Throw, log EvReadFile w)
  else
    exists cached,
      readCache Date_getTime w = (Ok cached, log EvReadFile w)
      /\ match freshCatalog Date_getTime w with
         | Some catalog =>
             dataOf cached = Some catalog /\ catalog <> JNull
             /\ isNullish cached = false
         | None => cached = None
         end.
Proof.
  unfold readCache, bind. rewrite readJsonFile_run.
  unfold dateThrows, freshCatalog, withinWindow.
  change (file (log EvReadFile w)) with (file w).
  destruct (file w) as [| | value]; simpl;
    try (eexists; split; reflexivity).
  destruct value as [| b | n | s | items | fields]; simpl;
    try (eexists; split; reflexivity).
  unfold isFresh, lift, bind, Date_now, ret.
  change CACHE_MAX_AGE_MS with 86400000%Z.
  change (clock (log EvReadFile w)) with (clock w).
  destruct (lookup fields "data") as [[] |] eqn:Hdata; simpl;
    try (eexists; split; reflexivity);
    (destruct (Date_getTime (lookup fields "fetchedAt")) as [[time |] |];
     [destruct (clock w - time <? 86400000)%Z eqn:Hage | |];
     simpl; rewrite ?Hage; simpl; try reflexivity;
     eexists; (split; [reflexivity |]); simpl; rewrite ?Hdata;
     try reflexivity; repeat split; discriminate).
Qed.

(** [fetchLiteLLMPricing] never throws.  It returns the accepted
    payload when the cache write succeeds, and [null] otherwise; a
    failed write leaves the file as the world says. *)
Lemma fetchLiteLLMPricing_run (w : World) :
  exists w',
    fetchLiteLLMPricing toISOString w =
      (Ok (if fetchFails w then None else acceptedPayload w), w')
    /\ (fetchFails w = true -> file w' = fileAfterFailedFetch w)
    /\ (fetchFails w = false -> acceptedPayload w <> None).
Proof.
  unfold fetchLiteLLMPricing, tryCatch, bind, fetch, fetchFails,
    fileAfterFailedFetch, acceptedPayload.
  destruct (network w) as [| [[] [[| b | n | s | items | fields] |]]] eqn:Hnet;
    simpl;
    try (eexists; split; [reflexivity |]; split;
         [reflexivity | discriminate]).
  unfold writeCache, writeJsonFile, bind, Date_now, ret. simpl.
  destruct (failedWrite w) as [leftover |] eqn:Hwrite; simpl;
    eexists; (split; [reflexivity |]); split;
    try reflexivity; discriminate.
Qed.

Lemma catalogOf_not_null (f : FileState) (catalog : json) :
  catalogOf f = Some catalog -> catalog <> JNull.
Proof.
  destruct f as [| | []]; simpl; try discriminate.
  destruct (lookup fields "data") as [[] |]; intros [= <-]; discriminate.
Qed.

(** The second read of the file: [stale?.data != null ? ... : ...]. *)
Lemma staleBranch_run (tagHit tagMiss : PricingSource) (w : World) :
  (stale <- readJsonFile ;;
   if negb (isNullish (dataOf stale))
   then statusOf (dataOf stale) tagHit
   else ret (emptyStatus tagMiss))%io w =
  (Ok (match catalogOf (file w) with
       | Some catalog => statusFor catalog tagHit
       | None => emptyStatus tagMiss
       end),
   log EvReadFile w).
Proof.
  unfold bind. rewrite readJsonFile_run.
  pose proof (dataOf_catalog (file w)) as H. cbv zeta in H.
  destruct (catalogOf (file w)) as [catalog |].
  - destruct H as [-> Hnn].
    rewrite catalog_not_nullish by assumption. simpl.
    now apply statusOf_catalog.
  - rewrite H. reflexivity.
Qed.

(** The acquisition rejects when the age check throws, before the
    offline test and before any fetch. *)
Lemma loadPricingStatus_throws (offline : bool) (w : World) :
  dateThrows Date_getTime w = true ->
  loadPricingStatus Date_getTime toISOString offline w
  = (Throw, log EvReadFile w).
Proof.
  intros Hthrows. unfold loadPricingStatus. unfold bind at 1.
  pose proof (readCache_run w) as Hcache. rewrite Hthrows in Hcache.
  now rewrite Hcache.
Qed.

(** In every other case it returns [acquired]. *)
Lemma loadPricingStatus_run (offline : bool) (w : World) :
  dateThrows Date_getTime w = false ->
  exists w',
    loadPricingStatus Date_getTime toISOString offline w =
      (Ok (acquired Date_getTime offline w), w')
    /\ (offline = true ->
        trace w' = (trace w ++ [EvReadFile; EvReadFile])%list
        /\ file w' = file w).
Proof.
  intros Hreturns.
  unfold loadPricingStatus. unfold bind at 1.
  pose proof (readCache_run w) as Hcache. rewrite Hreturns in Hcache.
  destruct Hcache as (cached & -> & Hcached).
  destruct offline.
  - rewrite staleBranch_run. eexists. split; [reflexivity |].
    intros _. split; [| reflexivity].
    simpl. now rewrite <- app_assoc.
  - unfold bind at 1.
    destruct (fetchLiteLLMPricing_run (log EvReadFile w))
      as (w2 & -> & Hfile & Hpayload).
    change (fetchFails (log EvReadFile w)) with (fetchFails w) in *.
    change (acceptedPayload (log EvReadFile w)) with (acceptedPayload w) in *.
    change (fileAfterFailedFetch (log EvReadFile w))
      with (fileAfterFailedFetch w) in *.
    unfold acquired.
    destruct (fetchFails w) eqn:Hfails.
    + simpl.
      assert (Hgoal : exists w',
        (if negb (isNullish cached)
         then statusOf (dataOf cached) fresh_cache
         else (stale <- readJsonFile ;;
               if negb (isNullish (dataOf stale))
               then statusOf (dataOf stale) stale_cache
               else ret (emptyStatus unavailable))%io) w2 =
        (Ok match freshCatalog Date_getTime w with
            | Some catalog => statusFor catalog fresh_cache
            | None =>
                match catalogOf (fileAfterFailedFetch w) with
                | Some catalog => statusFor catalog stale_cache
                | None => emptyStatus unavailable
                end
            end, w')).
      { destruct (freshCatalog Date_getTime w) as [catalog |].
        - destruct Hcached as (-> & Hnn & ->). simpl.
          eexists. now apply statusOf_catalog.
        - subst cached. simpl. rewrite staleBranch_run.
          rewrite (Hfile eq_refl). eexists. reflexivity. }
      destruct Hgoal as (w' & Hrun). exists w'.
      split; [| discriminate].
      rewrite Hrun. now destruct (acceptedPayload w).
    + destruct (acceptedPayload w) as [payload |] eqn:Hacc;
        [| now elim (Hpayload eq_refl)].
      assert (Hnn : payload <> JNull).
      { unfold acceptedPayload in Hacc.
        destruct (network w) as [| [[] [[] |]]]; try discriminate.
        injection Hacc as <-. discriminate. }
      rewrite catalog_not_nullish by assumption. simpl.
      eexists. split; [now apply statusOf_catalog | discriminate].
Qed.

Lemma Object_keys_none (value : json) :
  Object_keys value = None -> value = JNull.
Proof. destruct value; simpl; congruence. Qed.

Lemma statusFor_isEmpty (catalog : json) (tag : PricingSource) :
  catalog <> JNull ->
  isEmpty (statusFor catalog tag) = true <->
  Object_keys (pricingMap (statusFor catalog tag)) = Some [].
Proof.
  intros Hnn. unfold statusFor, keyCount. simpl.
  destruct (Object_keys catalog) as [[| key keys] |] eqn:Hkeys; simpl.
  - split; reflexivity.
  - split; discriminate.
  - now apply Object_keys_none in Hkeys.
Qed.

Lemma acceptedPayload_not_null (w : World) (payload : json) :
  acceptedPayload w = Some payload -> payload <> JNull.
Proof.
  unfold acceptedPayload.
  destruct (network w) as [| [[] [[] |]]]; try discriminate.
  intros [= <-]. discriminate.
Qed.

Lemma freshCatalog_not_null (w : World) (catalog : json) :
  freshCatalog Date_getTime w = Some catalog -> catalog <> JNull.
Proof.
  unfold freshCatalog. destruct (withinWindow Date_getTime w);
    [apply catalogOf_not_null | discriminate].
Qed.

(** The status [acquired] describes meets the invariant of [isEmpty]. *)
Lemma acquired_isEmpty (offline : bool) (w : World) :
  isEmpty (acquired Date_getTime offline w) = true <->
  Object_keys (pricingMap (acquired Date_getTime offline w)) = Some [].
Proof.
  unfold acquired.
  destruct offline.
  - destruct (catalogOf (file w)) as [catalog |] eqn:Hcat.
    + apply statusFor_isEmpty. now apply catalogOf_not_null in Hcat.
    + split; reflexivity.
  - assert (Hfallback :
      isEmpty
        match freshCatalog Date_getTime w with
        | Some catalog => statusFor catalog fresh_cache
        | None =>
            match catalogOf (fileAfterFailedFetch w) with
            | Some catalog => statusFor catalog stale_cache
            | None => emptyStatus unavailable
            end
        end = true <->
      Object_keys (pricingMap
        match freshCatalog Date_getTime w with
        | Some catalog => statusFor catalog fresh_cache
        | None =>
            match catalogOf (fileAfterFailedFetch w) with
            | Some catalog => statusFor catalog stale_cache
            | None => emptyStatus unavailable
            end
        end) = Some []).
    { destruct (freshCatalog Date_getTime w) as [catalog |] eqn:Hfresh.
      - apply statusFor_isEmpty. now apply freshCatalog_not_null in Hfresh.
      - destruct (catalogOf (fileAfterFailedFetch w)) as [catalog |] eqn:Hcat.
        + apply statusFor_isEmpty. now apply catalogOf_not_null in Hcat.
        + split; reflexivity. }
    destruct (acceptedPayload w) as [payload |] eqn:Hacc; [| exact Hfallback].
    destruct (fetchFails w); [exact Hfallback |].
    apply statusFor_isEmpty. now apply acceptedPayload_not_null in Hacc.
Qed.


(** ** The claims about the acquisition *)



(** C9.  Every status an acquisition returns, whatever the offline flag
    and the world, has [isEmpty] true exactly when [Object.keys] of the
    returned catalog is empty; and the acquisition does return a status
    unless the age check of the first read throws. *)
Theorem isEmpty_iff_no_keys (offline : bool) (w : World) :
  (forall status w',
     loadPricingStatus Date_getTime toISOString offline w = (Ok status, w') ->
     (isEmpty status = true <->
      Object_keys (pricingMap status) = Some []))
  /\ (dateThrows Date_getTime w = false ->
      exists status w',
        loadPricingStatus Date_getTime toISOString offline w
        = (Ok status, w')).
Proof.
  split.
  - intros status w' Hrun.
    destruct (dateThrows Date_getTime w) eqn:Hdate.
    + rewrite (loadPricingStatus_throws offline w Hdate) in Hrun.
      discriminate.
    + destruct (loadPricingStatus_run offline w Hdate) as (w2 & Hrun2 & _).
      rewrite Hrun2 in Hrun. injection Hrun as <- _.
      apply acquired_isEmpty.
  - intros Hdate.
    destruct (loadPricingStatus_run offline w Hdate) as (w' & Hrun & _).
    now exists (acquired Date_getTime offline w), w'.
Qed.

End WithDates.

End AcquisitionFacts.

(* ================================================================= *)
(** * The acquisition at sample worlds *)

Module AcquisitionExamples.
Import Json Io Pricing AcquisitionSpec AcquisitionFacts Samples.




(** A failed fetch over a cache file whose [fetchedAt] cannot be turned
    into a [Date]: the acquisition rejects, and so it does offline. *)
Example unconvertible_stamp_rejects (offline : bool) :
  fst (loadPricingStatus epochOnly epochText offline
         (world unconvertibleStampFile twoDays NetError)) = Throw.
Proof. now destruct offline. Qed.

(** Offline over a cache file that holds the empty catalog: the status
    returned has [isEmpty] true and a catalog without keys. *)
Lemma isEmpty_iff_no_keys_witness :
  loadPricingStatus epochOnly epochText true
    (world emptyCatalogFile twoDays NetError)
  = (Ok (statusFor (JObj []) offline_cache),
     {| file := emptyCatalogFile; clock := twoDays; network := NetError;
        failedWrite := None; trace := [EvReadFile; EvReadFile] |})
  /\ (isEmpty (statusFor (JObj []) offline_cache) = true <->
      Object_keys (pricingMap (statusFor (JObj []) offline_cache)) = Some []).
Proof.
  split; [reflexivity |].
  exact (proj1 (isEmpty_iff_no_keys epochOnly epochText true
                  (world emptyCatalogFile twoDays NetError))
           (statusFor (JObj []) offline_cache)
           {| file := emptyCatalogFile; clock := twoDays; network := NetError;
              failedWrite := None; trace := [EvReadFile; EvReadFile] |}
           eq_refl).
Defined.

End AcquisitionExamples.

(* ================================================================= *)
(** * Tiered cost and the per-entry estimate *)

Module CostFacts.
Import JsNumber Types Pricing CostSpec NumberFacts Samples.

Local Open Scope float_scope.

(** C3.  [calculateTieredCost] at the default threshold: [0] for a token
    count that is not finite or is at most [0]; above 200000 with a
    positive finite high rate, [min(t, 200000) * base + max(0, t - 200000)
    * high], where the minimum is 200000; [t * base] otherwise; a missing
    or non-finite rate counts as [0]. *)
Theorem calculateTieredCost_cases (t : number) (base high : option number) :
  (isFinite t = false \/ (t <=? 0) = true ->
     calculateTieredCost t base high THRESHOLD = 0)
  /\ (forall h,
        isFinite t = true -> (t <=? 0) = false ->
        (200000 <? t) = true ->
        high = Some h -> isFinite h = true -> (0 <? h) = true ->
        calculateTieredCost t base high THRESHOLD =
          Math_min t 200000 * safeCost base + Math_max 0 (t - 200000) * h
        /\ Math_min t 200000 = 200000)
  /\ (isFinite t = true -> (t <=? 0) = false ->
      (200000 <? t) && positiveFinite high = false ->
      calculateTieredCost t base high THRESHOLD = t * safeCost base)
  /\ safeCost None = 0
  /\ (forall r, isFinite r = false -> safeCost (Some r) = 0)
  /\ (forall r, isFinite r = true -> safeCost (Some r) = r).
Proof.
  unfold calculateTieredCost, THRESHOLD.
  repeat split.
  - intros [-> | ->]; [reflexivity | now rewrite orb_true_r].
  - subst high. simpl. rewrite H, H0, H1, H3, H4. reflexivity.
  - now apply Math_min_above.
  - intros -> ->. simpl.
    destruct (200000 <? t); simpl; [| reflexivity].
    unfold positiveFinite, safeCost.
    destruct high as [r |]; [| reflexivity].
    destruct (isFinite r); simpl; [| reflexivity].
    now intros ->.
  - intros r Hr. simpl. now rewrite Hr.
  - intros r Hr. simpl. now rewrite Hr.
Qed.

(** C4.  For an entry that resolves to a rate card, the estimate is the
    sum of four bucket costs, [null] if that sum is not finite.  For a
    Codex entry the cache-read bucket is the cache-read count capped by
    the input count (and floored at 0), the input bucket is the input
    count minus that bucket, and the output bucket includes the
    reasoning-output count.  For a Claude entry the input bucket is the
    whole input count, the cache-read bucket is billed on top, and the
    reasoning-output count is left out. *)
Theorem estimate_by_origin (pricingMap : PricingMap) (entry : UsageEntry)
    (pricing : PricingRecord) :
  resolvePricing pricingMap entry = Some pricing ->
  (Types.source entry = codex ->
     estimateEntryCostUSD pricingMap entry =
       finiteOrNull (bill pricing (codexBuckets entry))
     /\ (inputTokens entry
         <? Math_min (cacheReadTokens entry) (inputTokens entry)) = false)
  /\ (Types.source entry = claude ->
        estimateEntryCostUSD pricingMap entry =
          finiteOrNull (bill pricing (claudeBuckets entry))).
Proof.
  intros Hresolve. unfold estimateEntryCostUSD. rewrite Hresolve.
  split; intros Hsource; rewrite Hsource; simpl.
  - split; [reflexivity | apply Math_min_le_r].
  - unfold finiteOrNull, bill, claudeBuckets. simpl.
    now rewrite Math_max_add_zero.
Qed.

Lemma calculateTieredCost_cases_witness :
  calculateTieredCost (-5) (Some 1) (Some 2) THRESHOLD = 0
  /\ calculateTieredCost 300000 (Some 1) (Some 2) THRESHOLD = 400000
  /\ calculateTieredCost 300000 (Some 1) None THRESHOLD = 300000.
Proof.
  pose proof (calculateTieredCost_cases (-5) (Some 1) (Some 2)) as Hlow.
  pose proof (calculateTieredCost_cases 300000 (Some 1) (Some 2)) as Hhigh.
  pose proof (calculateTieredCost_cases 300000 (Some 1) None) as Hbase.
  split; [| split].
  - exact (proj1 Hlow (or_intror eq_refl)).
  - exact (proj1 (proj1 (proj2 Hhigh) 2 eq_refl eq_refl eq_refl
                    eq_refl eq_refl eq_refl)).
  - exact (proj1 (proj2 (proj2 Hbase)) eq_refl eq_refl eq_refl).
Defined.

Lemma estimate_by_origin_witness :
  estimateEntryCostUSD [("openai/gpt-4"%string, rates 0.5 0.25)]
    (usage codex "gpt-4" None) = Some 52750
  /\ estimateEntryCostUSD [("anthropic/claude-3"%string, rates 0.5 0.25)]
       (usage claude "claude-3" None) = Some 62500.
Proof.
  split.
  - exact (proj1 (proj1 (@estimate_by_origin
             [("openai/gpt-4"%string, rates 0.5 0.25)]
             (usage codex "gpt-4" None) (rates 0.5 0.25) eq_refl) eq_refl)).
  - exact (proj2 (@estimate_by_origin
             [("anthropic/claude-3"%string, rates 0.5 0.25)]
             (usage claude "claude-3" None) (rates 0.5 0.25) eq_refl) eq_refl).
Defined.

End CostFacts.

(* ================================================================= *)
(** * The Codex log: normalisation and delta reconstruction *)

Module LoaderFacts.
Import JsNumber JsString Json Types Utils Loaders LoaderSpec NumberFacts Samples.

Local Open Scope float_scope.

Lemma normalizeNumber_finite (value : jsval) :
  isFinite (normalizeNumber value) = true.
Proof.
  destruct value as [[| b | n | s | items | fields] |]; simpl;
    try reflexivity.
  destruct (isFinite n) eqn:Hn; [assumption | reflexivity].
Qed.

Lemma normalizeNumber_notANumber (value : jsval) :
  notANumber value = true -> normalizeNumber value = 0.
Proof.
  destruct value as [[| b | n | s | items | fields] |]; simpl;
    try reflexivity.
  now destruct (isFinite n).
Qed.

(** A normalised snapshot has finite counts; only the synthesised total
    may overflow. *)
Lemma normalizeCodexRawUsage_finite (value : jsval) (c : CodexRawUsage) :
  normalizeCodexRawUsage value = Some c ->
  isFinite (input_tokens c) = true
  /\ isFinite (cached_input_tokens c) = true
  /\ isFinite (output_tokens c) = true
  /\ isFinite (reasoning_output_tokens c) = true.
Proof.
  unfold normalizeCodexRawUsage.
  destruct (asRecord value) as [r |]; [| discriminate].
  intros [= <-]. simpl. repeat split; apply normalizeNumber_finite.
Qed.

(** C6.  Every field of a reconstructed delta is [max(current - previous,
    0)], with [0] for a missing previous snapshot, also when the current
    totals are below the previous ones; it is never below zero and never
    the negative zero, and it is at least zero whenever the difference is
    a number. *)
Theorem subtractCodexUsage_never_negative
    (current : CodexRawUsage) (previous : option CodexRawUsage) :
  Forall
    (fun f =>
       f (subtractCodexUsage current previous)
         = Math_max (f current - previousOr0 previous f) 0
       /\ (f (subtractCodexUsage current previous) <? 0) = false
       /\ isNegZero (f (subtractCodexUsage current previous)) = false
       /\ (isNaN (f current - previousOr0 previous f) = false ->
           (0 <=? f (subtractCodexUsage current previous)) = true))
    snapshotFields.
Proof.
  unfold snapshotFields.
  repeat constructor; simpl;
    solve [ apply Math_max_zero_not_neg
          | apply Math_max_zero_not_negzero
          | apply Math_max_zero_ge ].
Qed.

(** After a restart the totals are below the previous ones: the delta of
    the input count is [max(40 - 900, 0)], which is zero. *)
Lemma subtractCodexUsage_never_negative_witness :
  input_tokens (subtractCodexUsage restartTotals (Some earlierTotals))
    = Math_max (40 - 900) 0
  /\ (0 <=? input_tokens (subtractCodexUsage restartTotals (Some earlierTotals)))
     = true.
Proof.
  pose proof (subtractCodexUsage_never_negative restartTotals (Some earlierTotals))
    as Hfields.
  apply Forall_inv in Hfields.
  destruct Hfields as (Hmax & _ & _ & Hge).
  split; [exact Hmax | exact (Hge eq_refl)].
Defined.

(** C10.  When the reported [total_tokens] is missing, not a number, not
    finite or at most [0], the normalised total is [input_tokens +
    output_tokens]; the other fields are [normalizeNumber] of what was
    reported, which is [0] for a value that is missing, not a number or
    not finite. *)
Theorem total_tokens_synthesized (r : record) :
  unusableTotal (lookup r "total_tokens") = true ->
  exists c,
    normalizeCodexRawUsage (Some (JObj r)) = Some c
    /\ total_tokens c = input_tokens c + output_tokens c
    /\ input_tokens c = normalizeNumber (lookup r "input_tokens")
    /\ output_tokens c = normalizeNumber (lookup r "output_tokens")
    /\ (forall key, notANumber (lookup r key) = true ->
                    normalizeNumber (lookup r key) = 0).
Proof.
  intros Htotal. unfold normalizeCodexRawUsage. simpl.
  eexists. split; [reflexivity |]. simpl.
  repeat split; [| intros key; apply normalizeNumber_notANumber].
  assert (Hgt : (0 <? normalizeNumber (lookup r "total_tokens")) = false).
  { destruct (lookup r "total_tokens") as [[| b | n | s | items | fields] |];
      simpl in *; try reflexivity.
    destruct (isFinite n); simpl in *; [| reflexivity].
    now apply leb_zero_not_gt. }
  now rewrite Hgt.
Qed.

(** The synthesised total is the one field that need not be finite: two
    counts near the top of the range add up to [Infinity]. *)
Example synthesized_total_overflow :
  option_map total_tokens
    (normalizeCodexRawUsage
       (Some (JObj [("input_tokens"%string, JNum 0x1p1023);
                    ("output_tokens"%string, JNum 0x1p1023)])))
  = Some infinity.
Proof. reflexivity. Qed.

Lemma total_tokens_synthesized_witness :
  exists c,
    normalizeCodexRawUsage (Some (JObj noTotalUsage)) = Some c
    /\ total_tokens c = 12.
Proof.
  destruct (@total_tokens_synthesized noTotalUsage eq_refl)
    as (c & Hc & Htotal & Hin & Hout & _).
  exists c. split; [exact Hc |].
  rewrite Htotal, Hin, Hout. reflexivity.
Defined.

Section Lines.

Variable Date_parse : string -> option Z.

Lemma isText_inv (text : option string) (literal : string) :
  isText text literal = true -> text = Some literal.
Proof.
  destruct text as [t |]; simpl; [| discriminate].
  intros H. apply String.eqb_eq in H. now subst.
Qed.

(** What the loop does with a line that carries cumulative totals: the
    totals become the baseline, and the line is dropped when the four
    billed counts of the delta sum to zero. *)
Lemma processLine_cumulative (state : StreamState) (line : json)
    (c : CodexRawUsage) :
  cumulativeSnapshot Date_parse line = Some c ->
  previousTotals (fst (processLine Date_parse state line)) = Some c
  /\ (let delta := subtractCodexUsage c (previousTotals state) in
      strictEq
        (input_tokens delta + output_tokens delta
         + Math_min (cached_input_tokens delta) (input_tokens delta)
         + reasoning_output_tokens delta) 0 = true ->
      snd (processLine Date_parse state line) = None).
Proof.
  unfold cumulativeSnapshot, usagePayload, processLine.
  destruct line as [| b | n | s | items | lineRecord]; try discriminate.
  simpl.
  destruct (isText (asTrimmedString (lookup lineRecord "type")) "event_msg")
    eqn:Htype; [| discriminate].
  rewrite (isText_inv _ _ Htype). simpl.
  destruct (asRecord (lookup lineRecord "payload")) as [payload |];
    [| discriminate].
  destruct (isText (asTrimmedString (lookup payload "type")) "token_count");
    [| discriminate].
  simpl.
  destruct (asTrimmedString (lookup lineRecord "timestamp")) as [text |];
    [| discriminate].
  destruct (Date_parse text) as [date |]; [| discriminate].
  intros ->. simpl. split; [now destruct (strictEq _ _) |].
  now intros ->.
Qed.

(** A snapshot subtracted from itself: the four billed counts are [+0];
    the total is [+0] when it is finite, and NaN when it is not. *)
Lemma subtract_self (value : jsval) (c : CodexRawUsage) :
  normalizeCodexRawUsage value = Some c ->
  let delta := subtractCodexUsage c (Some c) in
  input_tokens delta = 0
  /\ cached_input_tokens delta = 0
  /\ output_tokens delta = 0
  /\ reasoning_output_tokens delta = 0
  /\ (isFinite (total_tokens c) = true -> delta = zeroUsage)
  /\ (isFinite (total_tokens c) = false -> isNaN (total_tokens delta) = true).
Proof.
  intros Hc.
  destruct (normalizeCodexRawUsage_finite _ Hc) as (Hi & Hc' & Ho & Hr).
  unfold subtractCodexUsage, zeroUsage. simpl.
  rewrite (sub_self_finite _ Hi), (sub_self_finite _ Hc'),
    (sub_self_finite _ Ho), (sub_self_finite _ Hr).
  repeat split.
  - intros Ht. now rewrite (sub_self_finite _ Ht).
  - intros Ht. unfold Math_max.
    now rewrite (sub_self_not_finite _ Ht).
Qed.

(** C7 (amended).  Two lines in a row that carry the same cumulative
    snapshot: on the second the delta is zero in its input, cached-input,
    output and reasoning-output fields; its total field is zero when the
    total of the snapshot is finite, and NaN when that total is not
    finite.  In both cases no entry is pushed for the second line, the
    baseline stays the snapshot, and the pair pushes what the first line
    alone pushes. *)
Theorem duplicate_snapshot_dropped (state : StreamState)
    (first second : json) (c : CodexRawUsage) :
  cumulativeSnapshot Date_parse first = Some c ->
  cumulativeSnapshot Date_parse second = Some c ->
  let state1 := fst (processLine Date_parse state first) in
  let delta := subtractCodexUsage c (previousTotals state1) in
  previousTotals state1 = Some c
  /\ billedZero delta
  /\ (isFinite (total_tokens c) = true -> delta = zeroUsage)
  /\ (isFinite (total_tokens c) = false -> isNaN (total_tokens delta) = true)
  /\ snd (processLine Date_parse state1 second) = None
  /\ previousTotals (fst (processLine Date_parse state1 second)) = Some c
  /\ processLines Date_parse state [first; second]
     = processLines Date_parse state [first].
Proof.
  intros Hfirst Hsecond state1 delta. subst delta.
  destruct (processLine_cumulative state first Hfirst) as [Hbase _].
  fold state1 in Hbase.
  destruct (processLine_cumulative state1 second Hsecond) as [Hbase2 Hdrop].
  assert (Hnorm : exists value, normalizeCodexRawUsage value = Some c).
  { unfold cumulativeSnapshot in Hfirst.
    destruct (usagePayload Date_parse first); [| discriminate].
    eexists. exact Hfirst. }
  destruct Hnorm as (value & Hnorm).
  destruct (subtract_self _ Hnorm) as (Hi & Hc & Ho & Hr & Hall & Hnan).
  rewrite Hbase in *.
  assert (Hnone : snd (processLine Date_parse state1 second) = None).
  { apply Hdrop. cbv zeta. rewrite Hi, Hc, Ho, Hr. reflexivity. }
  unfold billedZero.
  repeat split; try assumption.
  simpl. fold state1.
  destruct (processLine Date_parse state first) as [s1 pushed] eqn:Hp.
  simpl in state1. subst state1.
  destruct (processLine Date_parse s1 second) as [s2 pushed2].
  simpl in Hnone. subst pushed2. reflexivity.
Qed.

End Lines.

Lemma duplicate_snapshot_dropped_witness :
  processLines anyDate initialState [totalsLine; totalsLine]
  = processLines anyDate initialState [totalsLine]
  /\ List.length (processLines anyDate initialState [totalsLine]) = 1%nat.
Proof.
  split; [| reflexivity].
  exact (proj2 (proj2 (proj2 (proj2 (proj2 (proj2
           (@duplicate_snapshot_dropped anyDate initialState
              totalsLine totalsLine _ eq_refl eq_refl))))))).
Defined.

(** C7 as worded fails: with two counts of [2^1023] and no reported
    total, the total is synthesised as [Infinity], and the total field of
    the second delta is NaN, not zero. *)
Lemma overflowed_duplicate_counterexample :
  ~ duplicate_as_stated anyDate initialState overflowLine overflowLine.
Proof.
  intros Hclaim.
  destruct (Hclaim _ eq_refl eq_refl) as [Hzero _].
  unfold snapshotFields in Hzero.
  do 4 apply Forall_inv_tail in Hzero. apply Forall_inv in Hzero.
  vm_compute in Hzero. discriminate.
Qed.

End LoaderFacts.

(* ================================================================= *)
(** * The resolver: candidates and tiers *)

Module ResolverFacts.
Import JsString Types Pricing ResolverSpec Samples.

Local Open Scope string_scope.

(** ** Insertion-ordered sets *)

Lemma has_In (set : StringSet) (x : string) : has set x = true <-> In x set.
Proof.
  unfold has. rewrite existsb_exists. split.
  - intros (y & Hy & Heq). apply String.eqb_eq in Heq. now subst.
  - intros Hin. exists x. split; [assumption | apply String.eqb_refl].
Qed.

Lemma In_add (set : StringSet) (x y : string) :
  In x (add set y) <-> In x set \/ x = y.
Proof.
  unfold add. destruct (has set y) eqn:Hhas.
  - apply has_In in Hhas. split; [now left |].
    intros [H | ->]; assumption.
  - rewrite in_app_iff. simpl. intuition.
Qed.

(** A loop that only ever adds keeps what the set holds, and what it
    adds satisfies whatever each step guarantees. *)
Lemma fold_left_invariant {A B : Type} (P : A -> Prop) (Q : B -> Prop)
    (f : A -> B -> A) (items : list B) (start : A) :
  P start ->
  (forall acc item, Q item -> P acc -> P (f acc item)) ->
  Forall Q items ->
  P (fold_left f items start).
Proof.
  intros Hstart Hstep Hitems. revert start Hstart.
  induction Hitems as [| item rest Hitem _ IH]; intros start Hstart; simpl.
  - assumption.
  - apply IH. now apply Hstep.
Qed.

Lemma fromList_In (items : list string) (x : string) :
  In x (fromList items) <-> In x items.
Proof.
  unfold fromList.
  assert (H : forall acc, In x (fold_left add items acc) <-> In x acc \/ In x items).
  { induction items as [| item rest IH]; intros acc; simpl.
    - intuition.
    - rewrite IH, In_add. intuition. }
  rewrite H. simpl. intuition.
Qed.

Lemma pricingCandidates_fold (entry : UsageEntry) :
  pricingCandidates entry =
    fold_left (candidateStep entry)
      (modelVariants (trim (Types.model entry)))
      (fromList (modelVariants (trim (Types.model entry)))).
Proof. reflexivity. Qed.

Lemma candidateStep_keeps (entry : UsageEntry) (candidates : StringSet)
    (baseModel x : string) :
  In x candidates -> In x (candidateStep entry candidates baseModel).
Proof.
  intros Hin. unfold candidateStep.
  assert (Hproviders :
    In x (fold_left
            (fun acc providerPrefix => add acc (providerPrefix ++ "/" ++ baseModel))
            (toNonEmpty (option_map trim (Types.provider entry))) candidates)).
  { apply (@fold_left_invariant _ _ (fun acc => In x acc) (fun _ => True));
      [assumption | | apply Forall_forall; trivial].
    intros acc item _ Hacc. apply In_add. now left. }
  destruct (SourceKind_eqb (Types.source entry) claude),
           (SourceKind_eqb (Types.source entry) codex);
    rewrite ?In_add; tauto.
Qed.

(** Every variant of the model is a candidate. *)
Lemma variants_are_candidates (entry : UsageEntry) (x : string) :
  In x (modelVariants (trim (Types.model entry))) ->
  In x (pricingCandidates entry).
Proof.
  intros Hin. rewrite pricingCandidates_fold.
  apply (@fold_left_invariant _ _ (fun acc => In x acc) (fun _ => True)).
  - now apply fromList_In.
  - intros acc item _. apply candidateStep_keeps.
  - apply Forall_forall. trivial.
Qed.

Lemma candidateStep_extends (entry : UsageEntry) (variants : list string)
    (candidates : StringSet) (baseModel : string) :
  In baseModel variants ->
  Forall (extends variants) candidates ->
  Forall (extends variants) (candidateStep entry candidates baseModel).
Proof.
  intros Hbase Hall.
  assert (Hnew : forall prefix, extends variants (prefix ++ "/" ++ baseModel)).
  { intros prefix. exists baseModel. split; [assumption |]. right. now exists prefix. }
  assert (Hadd : forall acc prefix,
             Forall (extends variants) acc ->
             Forall (extends variants) (add acc (prefix ++ "/" ++ baseModel))).
  { intros acc prefix Hacc. apply Forall_forall. intros x Hx.
    apply In_add in Hx. destruct Hx as [Hx | ->]; [| apply Hnew].
    now apply (proj1 (Forall_forall _ _) Hacc). }
  unfold candidateStep.
  assert (Hproviders :
    Forall (extends variants)
      (fold_left
         (fun acc providerPrefix => add acc (providerPrefix ++ "/" ++ baseModel))
         (toNonEmpty (option_map trim (Types.provider entry))) candidates)).
  { apply (@fold_left_invariant _ _ (Forall (extends variants)) (fun _ => True));
      [assumption | | apply Forall_forall; trivial].
    intros acc item _. apply Hadd. }
  destruct (SourceKind_eqb (Types.source entry) claude),
           (SourceKind_eqb (Types.source entry) codex);
    repeat first [ apply (Hadd _ "anthropic") | apply (Hadd _ "vertex_ai")
                 | apply (Hadd _ "openai") | apply (Hadd _ "azure")
                 | apply (Hadd _ "openrouter/openai") ];
    assumption.
Qed.

Lemma candidates_extend_variants (entry : UsageEntry) :
  Forall (extends (modelVariants (trim (Types.model entry))))
    (pricingCandidates entry).
Proof.
  rewrite pricingCandidates_fold.
  apply (@fold_left_invariant _ _
           (Forall (extends (modelVariants (trim (Types.model entry)))))
           (fun b => In b (modelVariants (trim (Types.model entry))))).
  - apply Forall_forall. intros x Hx.
    exists x. split; [now apply (proj1 (fromList_In _ _)) | now left].
  - intros acc item Hitem Hacc. now apply candidateStep_extends.
  - apply Forall_forall. intros x Hx. exact Hx.
Qed.

(** ** Tiers that cannot hit *)

Lemma length_append (a b : string) :
  String.length (a ++ b) = String.length a + String.length b.
Proof. induction a as [| c a IH]; simpl; [reflexivity | now rewrite IH]. Qed.

Lemma eqb_longer (key candidate : string) :
  String.length key < String.length candidate ->
  String.eqb key candidate = false.
Proof.
  intros Hlen. apply String.eqb_neq. intros ->. lia.
Qed.

Lemma get_too_long (pricingMap : PricingMap) (candidate : string) (n : nat) :
  Forall (fun kv => String.length (fst kv) < n) pricingMap ->
  n <= String.length candidate ->
  get pricingMap candidate = None.
Proof.
  intros Hkeys Hlen.
  induction Hkeys as [| [key value] rest Hkey _ IH]; simpl; [reflexivity |].
  simpl in Hkey. rewrite eqb_longer by lia. exact IH.
Qed.

(** No name of [Object.prototype] has a slash in it. *)
Lemma isPrototypeKey_no_slash (key : string) :
  isPrototypeKey key = true -> includes key "/" = false.
Proof.
  unfold isPrototypeKey, OBJECT_PROTOTYPE_KEYS. cbn [existsb].
  intros H.
  repeat (apply orb_prop in H; destruct H as [H | H]);
    try discriminate; apply String.eqb_eq in H; subst key; reflexivity.
Qed.

Lemma includes_slash (prefix rest : string) :
  includes (prefix ++ "/" ++ rest) "/" = true.
Proof.
  induction prefix as [| c prefix IH].
  - destruct rest; reflexivity.
  - cbn [append includes] in *. rewrite IH. apply orb_true_r.
Qed.

(** A candidate behind a provider prefix is never inherited. *)
Lemma isPrototypeKey_prefixed (prefix base : string) :
  isPrototypeKey (prefix ++ "/" ++ base) = false.
Proof.
  destruct (isPrototypeKey (prefix ++ "/" ++ base)) eqn:Hkey; [| reflexivity].
  apply isPrototypeKey_no_slash in Hkey.
  now rewrite includes_slash in Hkey.
Qed.

(** Candidates longer than every key, and not inherited, miss the exact
    tier. *)
Lemma exactMatch_too_long (pricingMap : PricingMap)
    (candidates : list string) (n : nat) :
  Forall (fun kv => String.length (fst kv) < n) pricingMap ->
  Forall (fun c => n <= String.length c) candidates ->
  Forall (fun c => isPrototypeKey c = false) candidates ->
  exactMatch pricingMap candidates = None.
Proof.
  intros Hkeys Hcands Hown.
  induction Hcands as [| candidate rest Hlen _ IH]; simpl; [reflexivity |].
  unfold getMember.
  rewrite (get_too_long candidate Hkeys Hlen), (Forall_inv Hown).
  apply IH. exact (Forall_inv_tail Hown).
Qed.

Lemma endsWith_too_long (key suffix : string) :
  String.length key < String.length suffix -> endsWith key suffix = false.
Proof.
  intros Hlen. unfold endsWith.
  replace (String.length suffix <=? String.length key)%nat with false;
    [reflexivity |].
  symmetry. apply Nat.leb_gt. exact Hlen.
Qed.

Lemma no_suffix_too_long (key : string) (candidates : list string) (n : nat) :
  String.length key < n ->
  Forall (fun c => n <= String.length c) candidates ->
  existsb (endsWith key) (map (fun candidate => "/" ++ candidate) candidates)
  = false.
Proof.
  intros Hkey Hcands.
  induction Hcands as [| candidate others Hlen _ IH]; [reflexivity |].
  cbn [map existsb]. rewrite IH, orb_false_r.
  apply endsWith_too_long. rewrite length_append. simpl. lia.
Qed.

(** Candidates longer than every key miss the suffix tier. *)
Lemma suffixMatch_too_long (pricingMap : PricingMap)
    (candidates : list string) (n : nat) :
  Forall (fun kv => String.length (fst kv) < n) pricingMap ->
  Forall (fun c => n <= String.length c) candidates ->
  suffixMatch pricingMap (map (fun candidate => "/" ++ candidate) candidates)
  = None.
Proof.
  intros Hkeys Hcands.
  induction Hkeys as [| [key value] rest Hkey _ IH]; [reflexivity |].
  cbn [suffixMatch]. simpl in Hkey.
  now rewrite (no_suffix_too_long key Hkey Hcands).
Qed.

(** Every candidate for the preview model has at least its 19 code units. *)
Lemma preview_candidates_long (entry : UsageEntry) :
  Types.model entry = previewModel ->
  Forall (fun c => 19 <= String.length c) (pricingCandidates entry).
Proof.
  intros Hmodel.
  pose proof (candidates_extend_variants entry) as Hshape.
  rewrite Hmodel in Hshape.
  change (modelVariants (trim previewModel)) with [previewModel] in Hshape.
  eapply Forall_impl; [| exact Hshape].
  intros c (base & [<- | []] & [-> | (prefix & ->)]).
  - apply Nat.le_refl.
  - rewrite length_append. simpl. lia.
Qed.

(** No candidate for the preview model is a name of [Object.prototype]. *)
Lemma preview_candidates_own (entry : UsageEntry) :
  Types.model entry = previewModel ->
  Forall (fun c => isPrototypeKey c = false) (pricingCandidates entry).
Proof.
  intros Hmodel.
  pose proof (candidates_extend_variants entry) as Hshape.
  rewrite Hmodel in Hshape.
  change (modelVariants (trim previewModel)) with [previewModel] in Hshape.
  eapply Forall_impl; [| exact Hshape].
  intros c (base & [<- | []] & [-> | (prefix & ->)]).
  - reflexivity.
  - apply isPrototypeKey_prefixed.
Qed.

(** ** The claims about the resolver *)

(** C1 (amended).  An entry whose model is ["gpt-4-turbo-preview"], of
    any origin and with any provider hint: against a catalog with exactly
    the keys ["openai/gpt-4"] and ["openai/gpt-4-turbo"] no tier hits,
    since neither key contains the model string or is contained in it,
    and resolution returns not-found; against a catalog with exactly the
    keys ["gpt-4"] and ["gpt-4-turbo"] the exact and suffix tiers miss and
    the fuzzy fallback returns the record of ["gpt-4-turbo"], the longer
    overlapping key, in either key order. *)
Theorem preview_model_resolution (entry : UsageEntry)
    (pricingMap : PricingMap) (shortRecord longRecord : PricingRecord) :
  Types.model entry = previewModel ->
  (exactlyKeys "openai/gpt-4" "openai/gpt-4-turbo"
     pricingMap shortRecord longRecord ->
   resolvePricing pricingMap entry = None)
  /\ (exactlyKeys "gpt-4" "gpt-4-turbo" pricingMap shortRecord longRecord ->
      exactMatch pricingMap (pricingCandidates entry) = None
      /\ resolvePricing pricingMap entry = Some longRecord).
Proof.
  intros Hmodel.
  pose proof (preview_candidates_long entry Hmodel) as Hlong.
  pose proof (preview_candidates_own entry Hmodel) as Hown.
  assert (Hmiss : forall pm,
    Forall (fun kv => String.length (fst kv) < 19) pm ->
    resolvePricing pm entry = fuzzyMatch pm (toLowerCase (trim previewModel))).
  { intros pm Hkeys. unfold resolvePricing.
    rewrite (exactMatch_too_long Hkeys Hlong Hown).
    rewrite (suffixMatch_too_long Hkeys Hlong).
    now rewrite Hmodel. }
  split; intros [-> | ->].
  - rewrite Hmiss; [reflexivity | repeat constructor; simpl; lia].
  - rewrite Hmiss; [reflexivity | repeat constructor; simpl; lia].
  - split; [apply (exactMatch_too_long (n := 19));
            [repeat constructor; simpl; lia | assumption | assumption] |].
    rewrite Hmiss; [reflexivity | repeat constructor; simpl; lia].
  - split; [apply (exactMatch_too_long (n := 19));
            [repeat constructor; simpl; lia | assumption | assumption] |].
    rewrite Hmiss; [reflexivity | repeat constructor; simpl; lia].
Qed.

(** C8.  The version aliases of the two examples are among the variants,
    and so among the candidates, whatever the origin and the provider. *)
Theorem version_alias_candidates (entry : UsageEntry) :
  (Types.model entry = "gpt-5.1-codex-high" ->
     In "gpt-5-codex-high" (modelVariants (Types.model entry))
     /\ In "gpt-5-codex-high" (pricingCandidates entry))
  /\ (Types.model entry = "claude-3.5-sonnet-latest" ->
        In "claude-3.5-sonnet" (modelVariants (Types.model entry))
        /\ In "claude-3.5-sonnet" (pricingCandidates entry)).
Proof.
  split; intros Hmodel; split;
    try apply variants_are_candidates;
    rewrite Hmodel; vm_compute; tauto.
Qed.

(** C1 as worded fails: with the two prefixed keys the resolution of
    ["gpt-4-turbo-preview"] finds nothing. *)
Lemma prefixed_tiebreak_counterexample :
  ~ tiebreak_as_stated prefixedCatalog (usage codex previewModel None).
Proof.
  intros (found & _ & Hresolve). vm_compute in Hresolve. discriminate.
Qed.

Lemma preview_model_resolution_witness :
  resolvePricing prefixedCatalog (usage codex previewModel (Some "openai"))
    = None
  /\ resolvePricing [("gpt-4-turbo", rates 2 2); ("gpt-4", rates 1 1)]
       (usage claude previewModel None) = Some (rates 2 2).
Proof.
  split.
  - exact (proj1 (@preview_model_resolution
             (usage codex previewModel (Some "openai")) prefixedCatalog
             (rates 1 1) (rates 2 2) eq_refl) (or_introl eq_refl)).
  - exact (proj2 (proj2 (@preview_model_resolution
             (usage claude previewModel None)
             [("gpt-4-turbo", rates 2 2); ("gpt-4", rates 1 1)]
             (rates 1 1) (rates 2 2) eq_refl) (or_intror eq_refl))).
Defined.

Lemma version_alias_candidates_witness :
  In "gpt-5-codex-high" (pricingCandidates (usage codex "gpt-5.1-codex-high" None))
  /\ In "claude-3.5-sonnet"
       (pricingCandidates (usage claude "claude-3.5-sonnet-latest" None)).
Proof.
  split.
  - exact (proj2 (proj1 (version_alias_candidates
             (usage codex "gpt-5.1-codex-high" None)) eq_refl)).
  - exact (proj2 (proj2 (version_alias_candidates
             (usage claude "claude-3.5-sonnet-latest" None)) eq_refl)).
Defined.

End ResolverFacts.

(* ================================================================= *)
(** * Strings: trimming, suffixes, digits *)

Module StringFacts.
Import JsString CandidateSpec.

Local Open Scope string_scope.

Lemma length_app (a b : string) :
  String.length (a ++ b) = String.length a + String.length b.
Proof. induction a as [| c a IH]; simpl; [reflexivity | now rewrite IH]. Qed.

Lemma substring_app_r (a b : string) :
  substring (String.length a) (String.length b) (a ++ b) = b.
Proof.
  induction a as [| c a IH]; simpl; [| exact IH].
  induction b as [| d b IHb]; simpl; [reflexivity |].
  destruct b; simpl in *; now rewrite ?IHb.
Qed.

Lemma substring_app_l (a b : string) :
  substring 0 (String.length a) (a ++ b) = a.
Proof.
  induction a as [| c a IH]; simpl.
  - now destruct b.
  - now rewrite IH.
Qed.

(** [(a ++ b).endsWith(b)] *)
Lemma endsWith_app (a b : string) : endsWith (a ++ b) b = true.
Proof.
  unfold endsWith. rewrite length_app.
  replace (String.length a + String.length b - String.length b)
    with (String.length a) by lia.
  rewrite substring_app_r, String.eqb_refl, andb_true_r.
  apply Nat.leb_le. lia.
Qed.

(** [(a ++ b).slice(0, -b.length)] *)
Lemma sliceDropEnd_app (a b : string) :
  sliceDropEnd (a ++ b) (String.length b) = a.
Proof.
  unfold sliceDropEnd. rewrite length_app.
  replace (String.length a + String.length b - String.length b)
    with (String.length a) by lia.
  apply substring_app_l.
Qed.

Lemma sliceFrom_app (a b : string) : sliceFrom (String.length a) (a ++ b) = b.
Proof. induction a as [| c a IH]; simpl; [reflexivity | exact IH]. Qed.

Lemma foldCase_length (s : string) :
  String.length (foldCase s) = String.length s.
Proof. induction s as [| c s IH]; simpl; [reflexivity | now rewrite IH]. Qed.

(** ** Trimming *)

Lemma trimStart_head (s : string) :
  trimStart s = EmptyString
  \/ exists c rest, trimStart s = String c rest /\ isWhiteSpace c = false.
Proof.
  induction s as [| c s IH]; simpl; [now left |].
  destruct (isWhiteSpace c) eqn:Hc; [exact IH |].
  right. now exists c, s.
Qed.

Lemma trimEnd_head (c : ascii) (rest : string) :
  isWhiteSpace c = false ->
  exists kept, trimEnd (String c rest) = String c kept.
Proof.
  intros Hc. simpl. destruct (trimEnd rest) as [| d kept].
  - rewrite Hc. now exists EmptyString.
  - now exists (String d kept).
Qed.

Lemma trimEnd_idempotent (s : string) : trimEnd (trimEnd s) = trimEnd s.
Proof.
  induction s as [| c s IH]; simpl; [reflexivity |].
  destruct (trimEnd s) as [| d kept] eqn:Hs.
  - destruct (isWhiteSpace c) eqn:Hc; simpl; [reflexivity | now rewrite Hc].
  - change (trimEnd (String c (String d kept)))
      with (match trimEnd (String d kept) with
            | EmptyString =>
                if isWhiteSpace c then EmptyString else String c EmptyString
            | String a b => String c (String a b)
            end).
    now rewrite IH.
Qed.

(** [s.trim().trim() === s.trim()] *)
Lemma trim_idempotent (s : string) : trim (trim s) = trim s.
Proof.
  unfold trim.
  destruct (trimStart_head s) as [-> | (c & rest & -> & Hc)]; [reflexivity |].
  destruct (@trimEnd_head c rest Hc) as (kept & Hkept).
  rewrite Hkept. simpl trimStart. rewrite Hc.
  rewrite <- Hkept. apply trimEnd_idempotent.
Qed.

(** ** Digits *)

Lemma spanDigits_app (digits rest : string) :
  allDigits digits = true ->
  (rest = EmptyString
   \/ exists c tail, rest = String c tail /\ isDigit c = false) ->
  spanDigits (digits ++ rest) = (digits, rest).
Proof.
  intros Hdigits Hrest.
  induction digits as [| d digits IH]; simpl in *.
  - destruct Hrest as [-> | (c & tail & -> & Hc)]; simpl;
      [reflexivity | now rewrite Hc].
  - apply andb_prop in Hdigits. destruct Hdigits as [Hd Hds].
    now rewrite Hd, (IH Hds).
Qed.

End StringFacts.

(* ================================================================= *)
(** * The resolver: what the candidate list looks like *)

Module CandidateFacts.
Import JsString Types Pricing ResolverSpec CandidateSpec ResolverFacts StringFacts.

Local Open Scope string_scope.

Lemma add_NoDup (set : StringSet) (x : string) :
  NoDup set -> NoDup (add set x).
Proof.
  intros Hset. unfold add. destruct (has set x) eqn:Hhas; [assumption |].
  apply NoDup_app; [assumption | repeat constructor; intros [] |].
  intros a Ha [<- | []].
  apply has_In in Ha. congruence.
Qed.

Lemma fold_add_NoDup (items : list string) (set : StringSet) :
  NoDup set -> NoDup (fold_left add items set).
Proof.
  revert set. induction items as [| item rest IH]; intros set Hset; simpl.
  - assumption.
  - apply IH. now apply add_NoDup.
Qed.

Lemma modelVariants_NoDup (model : string) : NoDup (modelVariants model).
Proof.
  unfold modelVariants.
  apply (@fold_left_invariant _ _ (@NoDup string) (fun _ => True)).
  - apply fold_add_NoDup.
    destruct (String.eqb (trim model) ""); [constructor |].
    apply add_NoDup. constructor.
  - intros acc item _ Hacc.
    destruct (get MODEL_ALIASES item); [now apply add_NoDup | assumption].
  - apply Forall_forall. trivial.
Qed.

Lemma candidateStep_NoDup (entry : UsageEntry) (candidates : StringSet)
    (baseModel : string) :
  NoDup candidates -> NoDup (candidateStep entry candidates baseModel).
Proof.
  intros Hset. unfold candidateStep.
  assert (Hproviders :
    NoDup (fold_left
             (fun acc providerPrefix => add acc (providerPrefix ++ "/" ++ baseModel))
             (toNonEmpty (option_map trim (Types.provider entry))) candidates)).
  { apply (@fold_left_invariant _ _ (@NoDup string) (fun _ => True));
      [assumption | | apply Forall_forall; trivial].
    intros acc item _. apply add_NoDup. }
  destruct (SourceKind_eqb (Types.source entry) claude),
           (SourceKind_eqb (Types.source entry) codex);
    repeat apply add_NoDup; assumption.
Qed.

(** X1.  The candidate list has the semantics of the [Set] it is built
    with: no candidate occurs twice, and neither does a variant. *)
Theorem pricingCandidates_NoDup (entry : UsageEntry) :
  NoDup (pricingCandidates entry)
  /\ NoDup (modelVariants (Types.model entry)).
Proof.
  split; [| apply modelVariants_NoDup].
  rewrite pricingCandidates_fold.
  apply (@fold_left_invariant _ _ (@NoDup string) (fun _ => True)).
  - apply fold_add_NoDup. constructor.
  - intros acc item _. apply candidateStep_NoDup.
  - apply Forall_forall. trivial.
Qed.

(** ** Which strings are candidates *)

Lemma fold_add_In (items : list string) (set : StringSet) (x : string) :
  In x (fold_left add items set) <-> In x set \/ In x items.
Proof.
  revert set. induction items as [| item rest IH]; intros set; simpl.
  - tauto.
  - rewrite IH, In_add. intuition.
Qed.

Lemma fold_prefix_In (prefixes : list string) (set : StringSet)
    (baseModel x : string) :
  In x (fold_left
          (fun acc providerPrefix => add acc (providerPrefix ++ "/" ++ baseModel))
          prefixes set)
  <-> In x set \/ exists prefix, In prefix prefixes /\ x = prefix ++ "/" ++ baseModel.
Proof.
  revert set. induction prefixes as [| p rest IH]; intros set; simpl.
  - split; [now left | intros [H | (prefix & [] & _)]; exact H].
  - rewrite IH, In_add. split.
    + intros [[H | ->] | (prefix & Hin & ->)].
      * now left.
      * right. exists p. split; [now left | reflexivity].
      * right. exists prefix. split; [now right | reflexivity].
    + intros [H | (prefix & [<- | Hin] & ->)].
      * left. now left.
      * left. now right.
      * right. now exists prefix.
Qed.

Lemma candidateStep_In (entry : UsageEntry) (candidates : StringSet)
    (baseModel x : string) :
  In x (candidateStep entry candidates baseModel)
  <-> In x candidates
      \/ exists prefix,
           In prefix (providerHints entry) /\ x = prefix ++ "/" ++ baseModel.
Proof.
  unfold candidateStep, providerHints.
  destruct (SourceKind_eqb (Types.source entry) claude),
           (SourceKind_eqb (Types.source entry) codex);
    rewrite ?In_add, fold_prefix_In; simpl; rewrite ?app_nil_r.
  - split.
    + intros [[[[[[H | (p & Hp & ->)] | ->] | ->] | ->] | ->] | ->].
      * now left.
      * right. exists p. split; [apply in_or_app; now left | reflexivity].
      * right. exists "anthropic". split; [apply in_or_app; right; simpl; tauto | reflexivity].
      * right. exists "vertex_ai". split; [apply in_or_app; right; simpl; tauto | reflexivity].
      * right. exists "openai". split; [apply in_or_app; right; simpl; tauto | reflexivity].
      * right. exists "azure". split; [apply in_or_app; right; simpl; tauto | reflexivity].
      * right. exists "openrouter/openai". split; [apply in_or_app; right; simpl; tauto | reflexivity].
    + intros [H | (p & Hp & ->)]; [tauto |].
      apply in_app_or in Hp. destruct Hp as [Hp | Hp].
      * do 5 left. right. now exists p.
      * simpl in Hp. destruct Hp as [<- | [<- | [<- | [<- | [<- | []]]]]]; tauto.
  - split.
    + intros [[[H | (p & Hp & ->)] | ->] | ->].
      * now left.
      * right. exists p. split; [apply in_or_app; now left | reflexivity].
      * right. exists "anthropic". split; [apply in_or_app; right; simpl; tauto | reflexivity].
      * right. exists "vertex_ai". split; [apply in_or_app; right; simpl; tauto | reflexivity].
    + intros [H | (p & Hp & ->)]; [tauto |].
      apply in_app_or in Hp. destruct Hp as [Hp | Hp].
      * do 2 left. right. now exists p.
      * simpl in Hp. destruct Hp as [<- | [<- | []]]; tauto.
  - split.
    + intros [[[[H | (p & Hp & ->)] | ->] | ->] | ->].
      * now left.
      * right. exists p. split; [apply in_or_app; now left | reflexivity].
      * right. exists "openai". split; [apply in_or_app; right; simpl; tauto | reflexivity].
      * right. exists "azure". split; [apply in_or_app; right; simpl; tauto | reflexivity].
      * right. exists "openrouter/openai". split; [apply in_or_app; right; simpl; tauto | reflexivity].
    + intros [H | (p & Hp & ->)]; [tauto |].
      apply in_app_or in Hp. destruct Hp as [Hp | Hp].
      * do 3 left. right. now exists p.
      * simpl in Hp. destruct Hp as [<- | [<- | [<- | []]]]; tauto.
  - split.
    + intros [H | (p & Hp & ->)]; [now left |].
      right. now exists p.
    + intros [H | (p & Hp & ->)]; [now left |].
      right. now exists p.
Qed.

Lemma fold_candidateStep_In (entry : UsageEntry) (variants : list string)
    (candidates : StringSet) (x : string) :
  In x (fold_left (candidateStep entry) variants candidates)
  <-> In x candidates
      \/ exists base prefix,
           In base variants /\ In prefix (providerHints entry)
           /\ x = prefix ++ "/" ++ base.
Proof.
  revert candidates. induction variants as [| v rest IH]; intros candidates; simpl.
  - split; [now left | intros [H | (b & p & [] & _)]; exact H].
  - rewrite IH, candidateStep_In. split.
    + intros [[H | (p & Hp & ->)] | (b & p & Hb & Hp & ->)].
      * now left.
      * right. exists v, p. tauto.
      * right. exists b, p. tauto.
    + intros [H | (b & p & [<- | Hb] & Hp & ->)].
      * left. now left.
      * left. right. now exists p.
      * right. now exists b, p.
Qed.

(** X2.  The candidates are exactly the variants of the trimmed model and
    every variant behind a provider hint and a slash; the hints are the
    entry's own trimmed provider, when not blank, [anthropic] and
    [vertex_ai] for a Claude entry, [openai], [azure] and
    [openrouter/openai] for a Codex entry, and nothing more. *)
Theorem pricingCandidates_exactly (entry : UsageEntry) (x : string) :
  In x (pricingCandidates entry)
  <-> In x (modelVariants (trim (Types.model entry)))
      \/ exists base prefix,
           In base (modelVariants (trim (Types.model entry)))
           /\ In prefix (providerHints entry)
           /\ x = prefix ++ "/" ++ base.
Proof.
  rewrite pricingCandidates_fold, fold_candidateStep_In, fromList_In.
  reflexivity.
Qed.

End CandidateFacts.

(* ================================================================= *)
(** * The resolver: tiers, aliases and edge cases *)

Module ResolverExtras.
Import JsNumber JsString Types Pricing ResolverSpec CandidateSpec CostSpec.
Import ResolverFacts StringFacts CandidateFacts Samples.

Local Open Scope string_scope.

(** ** The trimmed model comes first *)

Lemma add_extends (set : StringSet) (x : string) :
  exists ext, add set x = (set ++ ext)%list.
Proof.
  unfold add. destruct (has set x).
  - exists []. now rewrite app_nil_r.
  - now exists [x].
Qed.

Lemma fold_extends {B : Type} (f : StringSet -> B -> StringSet)
    (items : list B) (set : StringSet) :
  (forall acc b, exists ext, f acc b = (acc ++ ext)%list) ->
  exists ext, fold_left f items set = (set ++ ext)%list.
Proof.
  intros Hstep. revert set.
  induction items as [| item rest IH]; intros set; simpl.
  - exists []. now rewrite app_nil_r.
  - destruct (Hstep set item) as (ext1 & ->).
    destruct (IH (set ++ ext1)%list) as (ext2 & ->).
    exists (ext1 ++ ext2)%list. now rewrite app_assoc.
Qed.

Lemma candidateStep_extends_list (entry : UsageEntry) (acc : StringSet)
    (baseModel : string) :
  exists ext, candidateStep entry acc baseModel = (acc ++ ext)%list.
Proof.
  unfold candidateStep.
  destruct (@fold_extends string
              (fun acc providerPrefix => add acc (providerPrefix ++ "/" ++ baseModel))
              (toNonEmpty (option_map trim (Types.provider entry))) acc)
    as (ext0 & ->); [intros; apply add_extends |].
  destruct (SourceKind_eqb (Types.source entry) claude),
           (SourceKind_eqb (Types.source entry) codex);
    repeat match goal with
      | |- context [add ?set ?x] =>
          let e := fresh "ext" in
          destruct (add_extends set x) as (e & ->)
      end;
    rewrite <- ?app_assoc; eexists; reflexivity.
Qed.

Lemma modelVariants_head (model : string) :
  trim model <> "" ->
  exists rest, modelVariants model = trim model :: rest.
Proof.
  intros Hmodel. unfold modelVariants.
  destruct (String.eqb (trim model) "") eqn:Hblank;
    [apply String.eqb_eq in Hblank; contradiction |].
  change (add [] (trim model)) with [trim model].
  destruct (@fold_extends string add (maybeVersionAlias (trim model)) [trim model])
    as (ext1 & ->); [apply add_extends |].
  destruct (@fold_extends string
              (fun acc candidate =>
                 match get MODEL_ALIASES candidate with
                 | Some explicitAlias => add acc explicitAlias
                 | None => acc
                 end)
              ([trim model] ++ ext1)%list ([trim model] ++ ext1)%list)
    as (ext2 & ->).
  - intros acc b. destruct (get MODEL_ALIASES b); [apply add_extends |].
    exists []. now rewrite app_nil_r.
  - simpl. eexists. reflexivity.
Qed.

(** The first candidate is the trimmed model, when it is not blank. *)
Lemma pricingCandidates_head (entry : UsageEntry) :
  trim (Types.model entry) <> "" ->
  exists rest, pricingCandidates entry = trim (Types.model entry) :: rest.
Proof.
  intros Hmodel. rewrite pricingCandidates_fold.
  destruct (@modelVariants_head (trim (Types.model entry))) as (tl & Hvariants).
  { now rewrite trim_idempotent. }
  rewrite trim_idempotent in Hvariants. rewrite Hvariants.
  destruct (@fold_extends string (candidateStep entry)
              (trim (Types.model entry) :: tl)
              (fromList (trim (Types.model entry) :: tl)))
    as (ext1 & ->); [apply candidateStep_extends_list |].
  unfold fromList. simpl fold_left.
  change (add [] (trim (Types.model entry))) with [trim (Types.model entry)].
  destruct (@fold_extends string add tl [trim (Types.model entry)])
    as (ext2 & ->); [apply add_extends |].
  simpl. eexists. reflexivity.
Qed.

(** X3.  A catalog key that equals the trimmed model name wins over every
    other candidate and every later tier. *)
Theorem exact_model_key_wins (pricingMap : PricingMap) (entry : UsageEntry)
    (found : PricingRecord) :
  trim (Types.model entry) <> "" ->
  get pricingMap (trim (Types.model entry)) = Some found ->
  resolvePricing pricingMap entry = Some found.
Proof.
  intros Hmodel Hget. unfold resolvePricing.
  destruct (pricingCandidates_head entry Hmodel) as (rest & ->).
  cbn [exactMatch]. unfold getMember. now rewrite Hget.
Qed.

Lemma exact_model_key_wins_witness :
  resolvePricing
    [("gpt-4-turbo", rates 2 2); ("gpt-4", rates 1 1)]
    (usage codex "  gpt-4 " None) = Some (rates 1 1).
Proof.
  apply exact_model_key_wins; [discriminate | reflexivity].
Defined.

(** ** Every hit is a catalog entry *)

Lemma get_In {V : Type} (entries : list (string * V)) (key : string) (v : V) :
  get entries key = Some v -> In (key, v) entries.
Proof.
  induction entries as [| [k w] rest IH]; simpl; [discriminate |].
  destruct (String.eqb k key) eqn:Hk.
  - apply String.eqb_eq in Hk. intros [= <-]. subst. now left.
  - intros H. right. now apply IH.
Qed.

Lemma exactMatch_In (pricingMap : PricingMap) (candidates : list string)
    (found : PricingRecord) :
  exactMatch pricingMap candidates = Some found ->
  exists key,
    In key candidates
    /\ (In (key, found) pricingMap
        \/ (found = inheritedMember /\ isPrototypeKey key = true)).
Proof.
  induction candidates as [| c rest IH]; simpl; [discriminate |].
  unfold getMember.
  destruct (get pricingMap c) as [r |] eqn:Hget.
  - intros [= <-]. exists c. split; [now left |]. left. now apply get_In.
  - destruct (isPrototypeKey c) eqn:Hkey.
    + intros [= <-]. exists c. split; [now left |]. right. now split.
    + intros H. destruct (IH H) as (key & Hin & Hmap).
      exists key. split; [now right | assumption].
Qed.

Lemma suffixMatch_In (pricingMap : PricingMap) (suffixes : list string)
    (found : PricingRecord) :
  suffixMatch pricingMap suffixes = Some found ->
  exists key, In (key, found) pricingMap
              /\ existsb (endsWith key) suffixes = true.
Proof.
  induction pricingMap as [| [k r] rest IH]; simpl; [discriminate |].
  destruct (existsb (endsWith k) suffixes) eqn:Hends.
  - intros [= <-]. exists k. split; [now left | assumption].
  - intros H. destruct (IH H) as (key & Hin & Hkey).
    exists key. split; [now right | assumption].
Qed.

Lemma fuzzyMatch_In (pricingMap : PricingMap) (modelLower : string)
    (found : PricingRecord) :
  fuzzyMatch pricingMap modelLower = Some found ->
  exists key, In (key, found) pricingMap.
Proof.
  unfold fuzzyMatch.
  assert (Hinv :
    forall items best,
      (forall score r, best = Some (score, r) -> exists key, In (key, r) pricingMap) ->
      (forall item, In item items -> In item pricingMap) ->
      forall score r,
        fold_left (fuzzyStep modelLower) items best = Some (score, r) ->
        exists key, In (key, r) pricingMap).
  { induction items as [| [k v] rest IH]; intros best Hbest Hitems score r; simpl.
    - apply Hbest.
    - apply IH; [| intros item Hitem; apply Hitems; now right].
      intros score' r'. unfold fuzzyStep. simpl.
      destruct (includes (toLowerCase k) modelLower
                || includes modelLower (toLowerCase k)); [| apply Hbest].
      destruct best as [[bestScore bestRecord] |].
      + destruct (bestScore <? _)%nat; [| apply Hbest].
        intros [= _ <-]. exists k. apply Hitems. now left.
      + intros [= _ <-]. exists k. apply Hitems. now left. }
  destruct (fold_left (fuzzyStep modelLower) pricingMap None)
    as [[score r] |] eqn:Hfold; simpl; [| discriminate].
  intros [= <-].
  apply (Hinv pricingMap None) with (score := score); try assumption.
  - discriminate.
  - trivial.
Qed.

Lemma exactMatch_none (candidates : list string) :
  Forall (fun c => isPrototypeKey c = false) candidates ->
  exactMatch [] candidates = None.
Proof.
  induction 1 as [| c rest Hc _ IH]; simpl; [reflexivity |].
  unfold getMember. simpl. now rewrite Hc.
Qed.

(** X4.  Whatever tier answers, the record returned is stored in the
    catalog under some key, or it is the member that a candidate names
    on [Object.prototype].  When no candidate is such a name, an empty
    catalog resolves nothing, and every estimate against it is
    unknown. *)
Theorem resolved_record_is_stored (pricingMap : PricingMap) (entry : UsageEntry) :
  (forall found,
     resolvePricing pricingMap entry = Some found ->
     (exists key, In (key, found) pricingMap)
     \/ (found = inheritedMember
         /\ Exists (fun c => isPrototypeKey c = true)
              (pricingCandidates entry)))
  /\ (Forall (fun c => isPrototypeKey c = false) (pricingCandidates entry) ->
      resolvePricing [] entry = None
      /\ estimateEntryCostUSD [] entry = None).
Proof.
  split.
  - intros found. unfold resolvePricing.
    destruct (exactMatch pricingMap (pricingCandidates entry)) as [r |] eqn:Hexact.
    + intros [= <-].
      destruct (exactMatch_In _ _ Hexact) as (key & Hcand & [Hin | [-> Hkey]]).
      * left. now exists key.
      * right. split; [reflexivity |]. apply Exists_exists. now exists key.
    + destruct (suffixMatch pricingMap _) as [r |] eqn:Hsuffix.
      * intros [= <-]. destruct (suffixMatch_In _ _ Hsuffix) as (key & Hin & _).
        left. now exists key.
      * intros Hfuzzy. left. now apply fuzzyMatch_In with (modelLower := toLowerCase (trim (Types.model entry))).
  - intros Hown.
    assert (Hempty : resolvePricing [] entry = None).
    { unfold resolvePricing. now rewrite (exactMatch_none Hown). }
    split; [exact Hempty |].
    unfold estimateEntryCostUSD. now rewrite Hempty.
Qed.

Lemma resolved_record_is_stored_witness :
  (exists key,
     In (key, rates 2 2) [("gpt-4", rates 1 1); ("gpt-4-turbo", rates 2 2)])
  /\ estimateEntryCostUSD [] (usage codex previewModel None) = None.
Proof.
  split.
  - destruct (proj1 (resolved_record_is_stored
                       [("gpt-4", rates 1 1); ("gpt-4-turbo", rates 2 2)]
                       (usage codex previewModel None))
                (rates 2 2) eq_refl) as [Hstored | [Hinherited _]].
    + exact Hstored.
    + discriminate Hinherited.
  - apply (proj2 (resolved_record_is_stored [] (usage codex previewModel None))).
    repeat constructor.
Defined.

(** ** The suffix tier *)

Lemma suffixMatch_hit (pricingMap : PricingMap) (suffixes : list string)
    (key : string) (stored : PricingRecord) :
  In (key, stored) pricingMap ->
  existsb (endsWith key) suffixes = true ->
  suffixMatch pricingMap suffixes <> None.
Proof.
  intros Hin Hends.
  induction pricingMap as [| [k r] rest IH]; simpl; [destruct Hin |].
  destruct (existsb (endsWith k) suffixes) eqn:Hk; [discriminate |].
  destruct Hin as [[= -> ->] | Hin]; [congruence | now apply IH].
Qed.

(** X5.  A catalog that holds the trimmed model behind any prefix and a
    slash always resolves the entry, whatever its origin and provider. *)
Theorem prefixed_key_resolves (pricingMap : PricingMap) (entry : UsageEntry)
    (prefix : string) (stored : PricingRecord) :
  trim (Types.model entry) <> "" ->
  In (prefix ++ "/" ++ trim (Types.model entry), stored) pricingMap ->
  resolvePricing pricingMap entry <> None.
Proof.
  intros Hmodel Hin. unfold resolvePricing.
  destruct (exactMatch pricingMap (pricingCandidates entry)); [discriminate |].
  destruct (pricingCandidates_head entry Hmodel) as (rest & ->).
  destruct (suffixMatch pricingMap _) eqn:Hsuffix; [discriminate |].
  exfalso. revert Hsuffix.
  apply (@suffixMatch_hit pricingMap _ _ _ Hin).
  cbn [map existsb]. now rewrite endsWith_app.
Qed.

Lemma prefixed_key_resolves_witness :
  resolvePricing [("bedrock/eu/claude-3", rates 1 1)]
    (usage opencode " claude-3" None) <> None.
Proof.
  apply (@prefixed_key_resolves _ _ "bedrock/eu" (rates 1 1));
    [discriminate | now left].
Defined.

(** ** A blank model *)

Lemma suffixMatch_no_suffix (pricingMap : PricingMap) :
  suffixMatch pricingMap [] = None.
Proof. induction pricingMap as [| [k r] rest IH]; simpl; [reflexivity | exact IH]. Qed.

Lemma fuzzy_blank_keeps (pricingMap : PricingMap) (first : PricingRecord) :
  fold_left (fuzzyStep "") pricingMap (Some (0, first)) = Some (0, first).
Proof.
  induction pricingMap as [| [k r] rest IH]; simpl; [reflexivity |].
  replace (fuzzyStep "" (Some (0, first)) (k, r)) with (Some (0, first));
    [exact IH |].
  unfold fuzzyStep. simpl.
  match goal with |- context [if ?c then _ else _] => now destruct c end.
Qed.

Lemma includes_empty (s : string) : includes s "" = true.
Proof. now destruct s. Qed.

(** X6.  An entry whose model is blank has no candidate at all; the fuzzy
    tier then accepts every key with score 0, so the entry resolves to the
    first record of the catalog. *)
Theorem blank_model_takes_first (pricingMap : PricingMap) (entry : UsageEntry)
    (key : string) (first : PricingRecord) :
  trim (Types.model entry) = "" ->
  pricingCandidates entry = []
  /\ resolvePricing ((key, first) :: pricingMap) entry = Some first.
Proof.
  intros Hblank.
  assert (Hnone : pricingCandidates entry = []).
  { rewrite pricingCandidates_fold, Hblank. reflexivity. }
  split; [assumption |].
  unfold resolvePricing. rewrite Hnone, Hblank.
  cbn [exactMatch map]. rewrite suffixMatch_no_suffix.
  unfold fuzzyMatch. cbn [fold_left toLowerCase].
  unfold fuzzyStep at 2. cbn [fst snd].
  rewrite includes_empty. cbn [orb String.length Nat.min].
  now rewrite fuzzy_blank_keeps.
Qed.

Lemma blank_model_takes_first_witness :
  resolvePricing [("gpt-4", rates 1 1); ("gpt-4-turbo", rates 2 2)]
    (usage claude "   " None) = Some (rates 1 1).
Proof.
  exact (proj2 (@blank_model_takes_first [("gpt-4-turbo", rates 2 2)]
                  (usage claude "   " None) "gpt-4" (rates 1 1) eq_refl)).
Defined.

(** ** Version aliases in general *)

Lemma matchGptVersion_digits (head major minor tail : string) :
  foldCase head = "gpt-" ->
  allDigits major = true -> major <> "" ->
  allDigits minor = true -> minor <> "" ->
  (tail = "" \/ exists c rest, tail = String c rest /\ isDigit c = false) ->
  matchGptVersion (head ++ major ++ "." ++ minor ++ tail)
  = Some (head ++ major, tail).
Proof.
  intros Hhead Hmajor Hmajor0 Hminor Hminor0 Htail.
  assert (Hlen : String.length head = 4).
  { rewrite <- foldCase_length, Hhead. reflexivity. }
  unfold matchGptVersion.
  replace (substring 0 4 (head ++ major ++ "." ++ minor ++ tail)) with head
    by (rewrite <- Hlen; symmetry; apply substring_app_l).
  replace (sliceFrom 4 (head ++ major ++ "." ++ minor ++ tail))
    with (major ++ "." ++ minor ++ tail)
    by (rewrite <- Hlen; symmetry; apply sliceFrom_app).
  unfold matchesLiteral. rewrite Hhead, String.eqb_refl.
  rewrite spanDigits_app;
    [| assumption | right; exists "."%char, (minor ++ tail); now split].
  destruct major as [| m0 major']; [contradiction |].
  cbn [append]. rewrite spanDigits_app by assumption.
  destruct minor as [| n0 minor']; [contradiction | reflexivity].
Qed.

Lemma dash_not_digit (c : ascii) : foldUnit c = "-"%char -> isDigit c = false.
Proof.
  destruct c as [[] [] [] [] [] [] [] []]; vm_compute;
    solve [reflexivity | discriminate].
Qed.

Lemma codexSuffix_shape (suffix : string) :
  existsb (matchesLiteral suffix) codexSuffixes = true ->
  exists c rest, suffix = String c rest /\ isDigit c = false.
Proof.
  intros Hsuffix. apply existsb_exists in Hsuffix.
  destruct Hsuffix as (lit & Hlit & Hmatch).
  unfold matchesLiteral in Hmatch. apply String.eqb_eq in Hmatch.
  destruct suffix as [| c rest].
  - simpl in Hmatch. subst lit. simpl in Hlit.
    repeat destruct Hlit as [Hlit | Hlit]; discriminate || destruct Hlit.
  - exists c, rest. split; [reflexivity |]. apply dash_not_digit.
    simpl in Hmatch. subst lit. simpl in Hlit.
    repeat destruct Hlit as [Hlit | Hlit];
      first [ now injection Hlit | destruct Hlit ].
Qed.

Lemma alias_fold_keeps (start : StringSet) (items : list string) (x : string) :
  In x start ->
  In x (fold_left
          (fun acc candidate =>
             match get MODEL_ALIASES candidate with
             | Some explicitAlias => add acc explicitAlias
             | None => acc
             end) items start).
Proof.
  intros Hin.
  apply (@fold_left_invariant _ _ (fun acc => In x acc) (fun _ => True));
    [assumption | | apply Forall_forall; trivial].
  intros acc item _ Hacc.
  destruct (get MODEL_ALIASES item); [apply In_add; now left | assumption].
Qed.

(** An alias of the trimmed model is a variant, and so a candidate. *)
Lemma alias_is_candidate (entry : UsageEntry) (alias : string) :
  In alias (maybeVersionAlias (trim (Types.model entry))) ->
  In alias (pricingCandidates entry).
Proof.
  intros Halias. apply variants_are_candidates.
  unfold modelVariants. rewrite trim_idempotent.
  apply alias_fold_keeps. apply fold_add_In. now right.
Qed.

(** X7.  Version aliases, for every major and minor version: a trimmed
    model [gpt-<N>.<m>] (in any letter case) yields the candidate
    [gpt-<N>]; [gpt-<N>.<m>] followed by [-codex], [-codex-mini],
    [-codex-max], [-codex-high] or [-codex-low] yields [gpt-<N>] followed
    by the same suffix; and a trimmed model that ends with [-latest]
    yields the candidate without that ending. *)
Theorem version_aliases_in_general (entry : UsageEntry)
    (head major minor suffix base : string) :
  (foldCase head = "gpt-" ->
   allDigits major = true -> major <> "" ->
   allDigits minor = true -> minor <> "" ->
   (trim (Types.model entry) = head ++ major ++ "." ++ minor ->
    In (head ++ major) (pricingCandidates entry))
   /\ (existsb (matchesLiteral suffix) codexSuffixes = true ->
       trim (Types.model entry) = head ++ major ++ "." ++ minor ++ suffix ->
       In ((head ++ major) ++ suffix) (pricingCandidates entry)))
  /\ (trim (Types.model entry) = base ++ "-latest" ->
      In base (pricingCandidates entry)).
Proof.
  split.
  - intros Hhead Hmajor Hmajor0 Hminor Hminor0. split.
    + intros Hmodel. apply alias_is_candidate. rewrite Hmodel.
      pose proof (@matchGptVersion_digits head major minor ""
                    Hhead Hmajor Hmajor0 Hminor Hminor0 (or_introl eq_refl))
        as Hmatch.
      assert (Hnil : minor ++ "" = minor).
      { clear. induction minor as [| c m IH]; simpl; [reflexivity | now rewrite IH]. }
      rewrite Hnil in Hmatch.
      unfold maybeVersionAlias, execCodexVersion, execGptVersion.
      rewrite Hmatch. cbn [existsb matchesLiteral foldCase String.eqb orb].
      destruct (endsWith _ "-latest"); rewrite ?In_add; simpl; tauto.
    + intros Hsuffix Hmodel. apply alias_is_candidate. rewrite Hmodel.
      pose proof (@matchGptVersion_digits head major minor suffix
                    Hhead Hmajor Hmajor0 Hminor Hminor0
                    (or_intror (codexSuffix_shape suffix Hsuffix)))
        as Hmatch.
      unfold maybeVersionAlias, execCodexVersion, execGptVersion.
      rewrite Hmatch. fold codexSuffixes. rewrite Hsuffix.
      destruct suffix; destruct (endsWith _ "-latest");
        rewrite ?In_add; simpl; tauto.
  - intros Hmodel. apply alias_is_candidate. rewrite Hmodel.
    unfold maybeVersionAlias.
    rewrite endsWith_app.
    change (String.length "-latest") with (String.length "-latest").
    rewrite (sliceDropEnd_app base "-latest").
    apply In_add. now right.
Qed.

Lemma version_aliases_in_general_witness :
  In "GPT-12" (pricingCandidates (usage codex " GPT-12.34 " None))
  /\ In "gpt-7-codex-mini" (pricingCandidates (usage codex "gpt-7.0-codex-mini" None))
  /\ In "sonnet" (pricingCandidates (usage claude "sonnet-latest" None)).
Proof.
  split; [| split].
  - exact (proj1 (proj1 (@version_aliases_in_general
             (usage codex " GPT-12.34 " None) "GPT-" "12" "34" "" "")
             eq_refl eq_refl ltac:(discriminate) eq_refl ltac:(discriminate))
             eq_refl).
  - exact (proj2 (proj1 (@version_aliases_in_general
             (usage codex "gpt-7.0-codex-mini" None) "gpt-" "7" "0" "-codex-mini" "")
             eq_refl eq_refl ltac:(discriminate) eq_refl ltac:(discriminate))
             eq_refl eq_refl).
  - exact (proj2 (@version_aliases_in_general
             (usage claude "sonnet-latest" None) "" "" "" "" "sonnet") eq_refl).
Defined.

(** ** An entry without tokens *)

(** X8.  An entry that resolves and has no token at all is estimated at
    exactly [0], whatever the rates are, also rates that are not finite. *)
Theorem no_tokens_cost_nothing (pricingMap : PricingMap) (entry : UsageEntry)
    (pricing : PricingRecord) :
  resolvePricing pricingMap entry = Some pricing ->
  noTokens entry ->
  estimateEntryCostUSD pricingMap entry = Some 0%float.
Proof.
  intros Hresolve (Hin & Hout & Hread & Hwrite & Hreason).
  unfold estimateEntryCostUSD.
  rewrite Hresolve, Hin, Hout, Hread, Hwrite, Hreason.
  now destruct (SourceKind_eqb (Types.source entry) codex).
Qed.

Lemma no_tokens_cost_nothing_witness :
  estimateEntryCostUSD [("gpt-4", rates infinity infinity)]
    {| Types.source := codex; timestamp := 0; model := "gpt-4";
       provider := None; inputTokens := 0; outputTokens := 0;
       cacheReadTokens := 0; cacheWriteTokens := 0;
       reasoningOutputTokens := 0; costUSD := None |}
  = Some 0%float.
Proof.
  apply (@no_tokens_cost_nothing _ _ (rates infinity infinity));
    [reflexivity | repeat split].
Defined.

(** ** Names of [Object.prototype] *)

Lemma mul_zero_positive (t : number) :
  isFinite t = true -> (t <=? 0)%float = false -> (t * 0 = 0)%float.
Proof.
  intros Hfin Hpos. apply Prim2SF_inj.
  revert Hfin Hpos.
  unfold isFinite, is_finite, is_nan, is_infinity.
  rewrite mul_spec, leb_spec, !eqb_spec, abs_spec.
  change (Prim2SF 0) with (S754_zero false).
  change (Prim2SF infinity) with (S754_infinity false).
  destruct (Prim2SF t) as [s | s | | s m e]; simpl; try discriminate.
  - destruct s; discriminate.
  - destruct s; simpl; try discriminate. reflexivity.
Qed.

(** Without any rate, every token count costs [0]. *)
Lemma calculateTieredCost_no_rate (tokens : number) :
  calculateTieredCost tokens None None THRESHOLD = 0%float.
Proof.
  unfold calculateTieredCost.
  destruct (isFinite tokens) eqn:Hfin; [| reflexivity].
  destruct (tokens <=? 0)%float eqn:Hpos; [reflexivity |].
  cbn [negb orb safeCost].
  replace (0 <? 0)%float with false by reflexivity.
  rewrite andb_false_r. now apply mul_zero_positive.
Qed.

(** X28.  A model whose trimmed name is a property name of
    [Object.prototype], such as ["constructor"] or ["toString"], and is
    not a key of the catalog, resolves all the same, to the inherited
    member: the exact tier reads [pricingMap[candidate]].  None of the
    rates is defined on that member, so the entry is estimated at [0]
    rather than reported as of unknown cost, whatever its token counts
    and whatever the catalog holds, also when the catalog is empty. *)
Theorem inherited_name_resolves (pricingMap : PricingMap) (entry : UsageEntry) :
  isPrototypeKey (trim (Types.model entry)) = true ->
  get pricingMap (trim (Types.model entry)) = None ->
  resolvePricing pricingMap entry = Some inheritedMember
  /\ estimateEntryCostUSD pricingMap entry = Some 0%float.
Proof.
  intros Hkey Hget.
  assert (Hmodel : trim (Types.model entry) <> "").
  { intros Hblank. rewrite Hblank in Hkey. discriminate. }
  assert (Hresolve : resolvePricing pricingMap entry = Some inheritedMember).
  { unfold resolvePricing.
    destruct (pricingCandidates_head entry Hmodel) as (rest & ->).
    cbn [exactMatch]. unfold getMember. now rewrite Hget, Hkey. }
  split; [exact Hresolve |].
  unfold estimateEntryCostUSD. rewrite Hresolve.
  cbn [inheritedMember input_cost_per_token output_cost_per_token
       cache_creation_input_token_cost cache_read_input_token_cost
       input_cost_per_token_above_200k_tokens
       output_cost_per_token_above_200k_tokens
       cache_creation_input_token_cost_above_200k_tokens
       cache_read_input_token_cost_above_200k_tokens].
  now rewrite !calculateTieredCost_no_rate.
Qed.

Lemma inherited_name_resolves_witness :
  estimateEntryCostUSD [] (usage claude " constructor " None) = Some 0%float
  /\ estimateEntryCostUSD [("gpt-4", rates 1 1)] (usage codex "toString" None)
     = Some 0%float.
Proof.
  split.
  - exact (proj2 (inherited_name_resolves []
                    (usage claude " constructor " None) eq_refl eq_refl)).
  - exact (proj2 (inherited_name_resolves [("gpt-4", rates 1 1)]
                    (usage codex "toString" None) eq_refl eq_refl)).
Defined.

(** ** The alias table *)

Lemma alias_fold_adds (items : list string) (start : StringSet)
    (name target : string) :
  In name items ->
  get MODEL_ALIASES name = Some target ->
  In target
    (fold_left
       (fun acc candidate =>
          match get MODEL_ALIASES candidate with
          | Some explicitAlias => add acc explicitAlias
          | None => acc
          end) items start).
Proof.
  revert start. induction items as [| item rest IH]; intros start Hin Hget;
    [destruct Hin |].
  cbn [fold_left]. destruct Hin as [-> | Hin].
  - rewrite Hget. apply alias_fold_keeps. apply In_add. now right.
  - now apply IH.
Qed.

(** X19.  The alias table is applied to the trimmed model and to its
    version aliases alike: whenever one of them is a key of the table, the
    name it maps to is a candidate too. *)
Theorem table_alias_is_candidate (entry : UsageEntry) (name target : string) :
  trim (Types.model entry) <> "" ->
  name = trim (Types.model entry)
  \/ In name (maybeVersionAlias (trim (Types.model entry))) ->
  get MODEL_ALIASES name = Some target ->
  In target (pricingCandidates entry).
Proof.
  intros Hmodel Hname Hget. apply variants_are_candidates.
  unfold modelVariants. rewrite trim_idempotent.
  apply alias_fold_adds with (name := name); [| assumption].
  apply fold_add_In.
  destruct (String.eqb (trim (Types.model entry)) "") eqn:Hblank;
    [apply String.eqb_eq in Hblank; contradiction |].
  destruct Hname as [-> | Hname]; [left; now left | now right].
Qed.

Lemma table_alias_is_candidate_witness :
  In "gpt-5" (pricingCandidates (usage codex "gpt-5.1-codex-max" None)).
Proof.
  apply (@table_alias_is_candidate (usage codex "gpt-5.1-codex-max" None)
           "gpt-5-codex-max" "gpt-5");
    [discriminate | right; now left | reflexivity].
Defined.

End ResolverExtras.

(* ================================================================= *)
(** * Catalog acquisition: effects and the cache round trip *)

Module AcquisitionExtras.
Import Json Io Pricing AcquisitionSpec EffectSpec AcquisitionFacts Samples.

Local Open Scope string_scope.

Section WithDates.

Variable Date_getTime : jsval -> Result (option Z).
Variable toISOString : Z -> string.

Lemma eventsOf_app (w w' : World) (events : list Event) :
  trace w' = (trace w ++ events)%list -> eventsOf w w' = events.
Proof.
  intros Htrace. unfold eventsOf.
  now rewrite Htrace, skipn_app, skipn_all, Nat.sub_diag.
Qed.

(** The world after [fetchLiteLLMPricing]: one request; a write exactly
    when a payload was accepted. *)
Lemma fetchLiteLLMPricing_world (w : World) :
  exists w',
    snd (fetchLiteLLMPricing toISOString w) = w'
    /\ clock w' = clock w /\ network w' = network w
    /\ failedWrite w' = failedWrite w
    /\ trace w' = (trace w ++ EvFetch
                     :: match acceptedPayload w with
                        | Some _ => [EvWriteFile]
                        | None => []
                        end)%list
    /\ file w' = match acceptedPayload w, failedWrite w with
                 | Some payload, None => writtenFile toISOString (clock w) payload
                 | Some _, Some leftover => leftover
                 | None, _ => file w
                 end.
Proof.
  eexists. split; [reflexivity |].
  unfold fetchLiteLLMPricing, tryCatch, bind, fetch, acceptedPayload.
  destruct (network w) as [| [[] [[| b | n | s | items | fields] |]]] eqn:Hnet;
    simpl; rewrite ?Hnet; try (repeat split; reflexivity).
  unfold writeCache, writeJsonFile, bind, Date_now, ret. simpl.
  destruct (failedWrite w) as [leftover |] eqn:Hwrite; simpl;
    rewrite ?Hnet, ?Hwrite; repeat split; try reflexivity;
    now rewrite <- app_assoc.
Qed.

(** The world after an online acquisition whose age check returns. *)
Lemma online_world (w : World) :
  dateThrows Date_getTime w = false ->
  exists status w',
    loadPricingStatus Date_getTime toISOString false w = (Ok status, w')
    /\ status = acquired Date_getTime false w
    /\ trace w' =
         (trace w
          ++ EvReadFile :: EvFetch
             :: (match acceptedPayload w with
                 | Some _ => [EvWriteFile]
                 | None => []
                 end
                 ++ if fetchFails w
                    then match freshCatalog Date_getTime w with
                         | Some _ => []
                         | None => [EvReadFile]
                         end
                    else []))%list
    /\ file w' = match acceptedPayload w, failedWrite w with
                 | Some payload, None => writtenFile toISOString (clock w) payload
                 | Some _, Some leftover => leftover
                 | None, _ => file w
                 end.
Proof.
  intros Hdate.
  destruct (loadPricingStatus_run Date_getTime toISOString false w Hdate)
    as (w0 & Hrun & _).
  assert (Hworld : exists status w',
    loadPricingStatus Date_getTime toISOString false w = (Ok status, w')
    /\ trace w' =
         (trace w
          ++ EvReadFile :: EvFetch
             :: (match acceptedPayload w with
                 | Some _ => [EvWriteFile]
                 | None => []
                 end
                 ++ if fetchFails w
                    then match freshCatalog Date_getTime w with
                         | Some _ => []
                         | None => [EvReadFile]
                         end
                    else []))%list
    /\ file w' = match acceptedPayload w, failedWrite w with
                 | Some payload, None => writtenFile toISOString (clock w) payload
                 | Some _, Some leftover => leftover
                 | None, _ => file w
                 end).
  { clear w0 Hrun.
    unfold loadPricingStatus. unfold bind at 1.
    pose proof (readCache_run Date_getTime w) as Hcache.
    rewrite Hdate in Hcache. destruct Hcache as (cached & -> & Hcached).
    unfold bind at 1.
    destruct (fetchLiteLLMPricing_run toISOString (log EvReadFile w))
      as (w2 & Hfetch & _ & Hpayload).
    destruct (fetchLiteLLMPricing_world (log EvReadFile w))
      as (w2' & Hw2 & Hclock & Hnet & Hwrite & Htrace & Hfile).
    rewrite Hfetch in *. simpl in Hw2. subst w2'.
    change (fetchFails (log EvReadFile w)) with (fetchFails w) in *.
    change (acceptedPayload (log EvReadFile w)) with (acceptedPayload w) in *.
    change (failedWrite (log EvReadFile w)) with (failedWrite w) in *.
    change (file (log EvReadFile w)) with (file w) in *.
    change (clock (log EvReadFile w)) with (clock w) in *.
    change (trace (log EvReadFile w)) with (trace w ++ [EvReadFile])%list in *.
    rewrite <- app_assoc in Htrace. simpl in Htrace.
    destruct (fetchFails w) eqn:Hfails.
    + simpl.
      destruct (freshCatalog Date_getTime w) as [catalog |].
      * destruct Hcached as (Hdata & Hnn & ->). simpl.
        rewrite Hdata.
        do 2 eexists. split; [now apply statusOf_catalog |].
        rewrite Htrace, app_nil_r. now split.
      * subst cached. simpl. rewrite staleBranch_run.
        do 2 eexists. split; [reflexivity |]. simpl.
        rewrite Htrace, <- app_assoc. simpl.
        split; [| exact Hfile].
        destruct (acceptedPayload w); reflexivity.
    + destruct (acceptedPayload w) as [payload |] eqn:Hacc;
        [| now elim (Hpayload eq_refl)].
      rewrite (catalog_not_nullish (acceptedPayload_not_null _ Hacc)). simpl.
      do 2 eexists.
      split; [apply statusOf_catalog, (acceptedPayload_not_null _ Hacc) |].
      rewrite Htrace. split; [reflexivity | exact Hfile]. }
  destruct Hworld as (status & w' & Hrun' & Htrace & Hfile).
  exists status, w'. repeat split; try assumption.
  rewrite Hrun in Hrun'. now injection Hrun' as <- _.
Qed.

(** X9.  An online acquisition whose age check returns makes exactly
    one network request; it writes the cache file at most once, and only
    when the response was accepted.  One whose age check throws makes no
    request and no write.  In both cases, when no payload was accepted
    the file is left as it was. *)
Theorem online_effects (w : World) :
  exists outcome w',
    loadPricingStatus Date_getTime toISOString false w = (outcome, w')
    /\ (outcome = Throw <-> dateThrows Date_getTime w = true)
    /\ List.length (filter isFetch (eventsOf w w'))
       = (if dateThrows Date_getTime w then 0 else 1)
    /\ List.length (filter isWrite (eventsOf w w'))
       = (if dateThrows Date_getTime w then 0
          else match acceptedPayload w with Some _ => 1 | None => 0 end)
    /\ (acceptedPayload w = None -> file w' = file w).
Proof.
  destruct (dateThrows Date_getTime w) eqn:Hdate.
  - exists Throw, (log EvReadFile w).
    split; [now apply loadPricingStatus_throws |].
    rewrite (@eventsOf_app w (log EvReadFile w) [EvReadFile] eq_refl).
    repeat split; reflexivity.
  - destruct (online_world w Hdate)
      as (status & w' & Hrun & _ & Htrace & Hfile).
    exists (Ok status), w'. split; [assumption |].
    rewrite (@eventsOf_app _ _ _ Htrace).
    split; [split; discriminate |].
    repeat split.
    + destruct (acceptedPayload w), (fetchFails w),
        (freshCatalog Date_getTime w); reflexivity.
    + destruct (acceptedPayload w), (fetchFails w),
        (freshCatalog Date_getTime w); reflexivity.
    + intros Hnone. now rewrite Hnone in Hfile.
Qed.

Lemma roundTrip_not_null (payload : json) :
  acceptedPayloadShape payload = true -> roundTrip payload <> JNull.
Proof. destruct payload; simpl; discriminate. Qed.

(** X10.  After an acquisition that fetched the catalog and wrote the
    cache, an offline acquisition over the file it left, at any later
    clock and with any network, returns what was fetched, as JSON
    serialisation gives it back, tagged [offline-cache], with the same
    [isEmpty] as the online status.  The age check of the first
    acquisition must return; that of the second does, since constructing
    a [Date] from a string never throws. *)
Theorem fetched_catalog_is_cached (w : World) (payload : json) :
  (forall text, Date_getTime (Some (JStr text)) <> Throw) ->
  dateThrows Date_getTime w = false ->
  acceptedPayload w = Some payload ->
  failedWrite w = None ->
  exists w1,
    loadPricingStatus Date_getTime toISOString false w
      = (Ok (statusFor payload remote), w1)
    /\ (forall later,
          file later = file w1 ->
          exists w2,
            loadPricingStatus Date_getTime toISOString true later
            = (Ok (statusFor (roundTrip payload) offline_cache), w2))
    /\ isEmpty (statusFor (roundTrip payload) offline_cache)
       = isEmpty (statusFor payload remote).
Proof.
  intros Hstrings Hdate Hacc Hwrite.
  destruct (online_world w Hdate) as (status & w1 & Hrun & Hstatus & _ & Hfile).
  rewrite Hacc, Hwrite in Hfile.
  assert (Hshape : acceptedPayloadShape payload = true).
  { unfold acceptedPayload in Hacc.
    destruct (network w) as [| [[] [[] |]]]; try discriminate.
    now injection Hacc as <-. }
  assert (Hremote : status = statusFor payload remote).
  { rewrite Hstatus. unfold acquired, fetchFails. now rewrite Hacc, Hwrite. }
  rewrite Hremote in Hrun. clear Hstatus Hremote status.
  exists w1. split; [exact Hrun |]. split.
  - intros later Hlater. rewrite Hfile in Hlater.
    assert (Hdate1 : dateThrows Date_getTime later = false).
    { unfold dateThrows. rewrite Hlater. unfold writtenFile.
      destruct (catalogOf _); [| reflexivity].
      cbn [lookup String.eqb Ascii.eqb Bool.eqb].
      destruct (Date_getTime _) eqn:Htime; [reflexivity |].
      now elim (Hstrings _ Htime). }
    destruct (loadPricingStatus_run Date_getTime toISOString true later Hdate1)
      as (w2 & Hoffline & _).
    exists w2. rewrite Hoffline. f_equal. f_equal.
    unfold acquired. rewrite Hlater.
    unfold writtenFile, catalogOf. simpl.
    pose proof (roundTrip_not_null payload Hshape) as Hnn.
    destruct (roundTrip payload); try reflexivity. now elim Hnn.
  - unfold statusFor, keyCount. simpl.
    destruct payload; try discriminate. simpl.
    now rewrite !length_map.
Qed.

(** X20.  Freshness only looks at how long ago the cache was stamped: a
    cache whose [fetchedAt] lies in the future, however far, counts as
    fresh, and is what a failed fetch falls back on, tagged [fresh-cache]. *)
Theorem future_stamp_is_fresh (w : World) (fields : list (string * json))
    (catalog : json) (time : Z) :
  file w = Parsed (JObj fields) ->
  catalogOf (file w) = Some catalog ->
  Date_getTime (lookup fields "fetchedAt") = Ok (Some time) ->
  (clock w <= time)%Z ->
  fetchFails w = true ->
  exists w',
    loadPricingStatus Date_getTime toISOString false w
    = (Ok (statusFor catalog fresh_cache), w').
Proof.
  intros Hfile Hcatalog Htime Hfuture Hfails.
  assert (Hdate : dateThrows Date_getTime w = false).
  { unfold dateThrows. now rewrite Hcatalog, Hfile, Htime. }
  destruct (loadPricingStatus_run Date_getTime toISOString false w Hdate)
    as (w' & Hrun & _).
  exists w'. rewrite Hrun. f_equal. f_equal.
  unfold acquired, freshCatalog, withinWindow.
  rewrite Hfails, Hfile, Htime.
  replace (clock w - time <? 24 * 60 * 60 * 1000)%Z with true
    by (symmetry; apply Z.ltb_lt; lia).
  rewrite <- Hfile, Hcatalog. now destruct (acceptedPayload w).
Qed.

End WithDates.

Lemma epochOnly_strings (text : string) :
  epochOnly (Some (JStr text)) <> Throw.
Proof.
  unfold epochOnly.
  now destruct (String.eqb text "1970-01-01T00:00:00.000Z").
Qed.

Lemma online_effects_witness :
  exists outcome w',
    loadPricingStatus epochOnly epochText false
      (world oneModelFile twoDays NetError) = (outcome, w')
    /\ List.length (filter isFetch
                      (eventsOf (world oneModelFile twoDays NetError) w')) = 1
    /\ file w' = oneModelFile.
Proof.
  destruct (online_effects epochOnly epochText (world oneModelFile twoDays NetError))
    as (outcome & w' & Hrun & _ & Hfetch & _ & Hfile).
  exists outcome, w'.
  split; [exact Hrun |]. split; [exact Hfetch | exact (Hfile eq_refl)].
Defined.

Lemma future_stamp_is_fresh_witness :
  exists w',
    loadPricingStatus epochOnly epochText false
      (world oneModelFile (-twoDays) NetError)
    = (Ok (statusFor (JObj [("openai/gpt-4", JObj [])]) fresh_cache), w').
Proof.
  apply (@future_stamp_is_fresh epochOnly epochText
           (world oneModelFile (-twoDays) NetError) _ _ 0%Z
           eq_refl eq_refl eq_refl);
    [discriminate | reflexivity].
Defined.

Lemma fetched_catalog_is_cached_witness :
  exists w1 w2,
    loadPricingStatus epochOnly epochText false
      (world Absent twoDays
         (NetResponse {| ok := true;
                         body := Some (JObj [("m", JObj [("rate", JNum infinity)])]) |}))
      = (Ok (statusFor (JObj [("m", JObj [("rate", JNum infinity)])]) remote), w1)
    /\ loadPricingStatus epochOnly epochText true
         (world (file w1) (3 * twoDays) NetError)
       = (Ok (statusFor (JObj [("m", JObj [("rate", JNull)])]) offline_cache), w2).
Proof.
  destruct (@fetched_catalog_is_cached epochOnly epochText
              (world Absent twoDays
                 (NetResponse {| ok := true;
                                 body := Some (JObj [("m", JObj [("rate", JNum infinity)])]) |}))
              _ epochOnly_strings eq_refl eq_refl eq_refl)
    as (w1 & H1 & H2 & _).
  destruct (H2 (world (file w1) (3 * twoDays) NetError) eq_refl) as (w2 & Hoffline).
  exists w1, w2. split; [exact H1 | exact Hoffline].
Defined.

End AcquisitionExtras.

(* ================================================================= *)
(** * The Codex log: what the loop pushes *)

Module StreamFacts.
Import JsNumber JsString Json Types Utils Loaders LoaderSpec StreamSpec.
Import NumberFacts LoaderFacts Samples.

Local Open Scope string_scope.

Lemma asTrimmedString_nonblank (value : jsval) (text : string) :
  asTrimmedString value = Some text -> text <> "".
Proof.
  destruct value as [[| b | n | s | items | fields] |]; simpl; try discriminate.
  destruct (String.eqb (trim s) "") eqn:Hblank; [discriminate |].
  intros [= <-]. now apply String.eqb_neq.
Qed.

Lemma firstTrimmed_nonblank (candidates : list jsval) (text : string) :
  firstTrimmed candidates = Some text -> text <> "".
Proof.
  induction candidates as [| c rest IH]; simpl; [discriminate |].
  destruct (asTrimmedString c) eqn:Hc; [| exact IH].
  intros [= <-]. now apply asTrimmedString_nonblank in Hc.
Qed.

(** A model read from a record is never blank. *)
Lemma extractModelOf_nonblank :
  forall (value : json) (text : string),
    extractModelOf value = Some text -> text <> "".
Proof.
  fix IH 1. intros value text.
  destruct value as [| b | n | s | items | fields];
    try (simpl; discriminate).
  cbn [extractModelOf].
  match goal with
  | |- context [firstTrimmed ?l] =>
      destruct (firstTrimmed l) as [direct |] eqn:Hdirect
  end.
  - intros [= <-]. now apply firstTrimmed_nonblank in Hdirect.
  - match goal with
    | |- match ?inner with _ => _ end = _ -> _ =>
        assert (Hinfo : forall t, inner = Some t -> t <> "")
    end.
    { clear Hdirect. induction fields as [| [k v] rest IHfields]; [discriminate |].
      destruct (String.eqb k "info"); [apply IH | exact IHfields]. }
    match goal with
    | |- match ?inner with _ => _ end = _ -> _ =>
        destruct inner as [fromInfo |]
    end.
    + intros [= <-]. now apply Hinfo.
    + destruct (asRecord (lookup fields "metadata")); [| discriminate].
      apply asTrimmedString_nonblank.
Qed.

Lemma extractModel_nonblank (value : jsval) (text : string) :
  extractModel value = Some text -> text <> "".
Proof.
  destruct value as [v |]; simpl; [apply extractModelOf_nonblank | discriminate].
Qed.

Lemma orElse_absorb (a b : option string) :
  orElse a (orElse a b) = orElse a b.
Proof. now destruct a. Qed.

Section Lines.

Variable Date_parse : string -> option Z.

(** What the loop does with a usage line, in one equation. *)
Lemma processLine_usage (state : StreamState) (line : json) (payload : record) :
  usagePayload Date_parse line = Some payload ->
  exists date,
    processLine Date_parse state line =
      match usageOf state payload with
      | None =>
          ({| previousTotals := baselineAfter state payload;
              currentModel := currentModel state |}, None)
      | Some usage =>
          ({| previousTotals := baselineAfter state payload;
              currentModel := orElse (ownModel payload) (currentModel state) |},
           if sumsToZero usage then None
           else Some (entryOf date (modelFor state payload) usage))
      end.
Proof.
  unfold usagePayload, processLine.
  destruct line as [| b | n | s | items | lineRecord]; try discriminate.
  cbn [asRecord].
  destruct (isText (asTrimmedString (lookup lineRecord "type")) "event_msg")
    eqn:Htype; [| discriminate].
  rewrite (isText_inv _ _ Htype). cbn [isText String.eqb Ascii.eqb Bool.eqb negb].
  destruct (asRecord (lookup lineRecord "payload")) as [found |];
    [| discriminate].
  destruct (isText (asTrimmedString (lookup found "type")) "token_count");
    [| discriminate].
  cbn [negb].
  destruct (asTrimmedString (lookup lineRecord "timestamp")) as [text |];
    [| discriminate].
  destruct (Date_parse text) as [date |]; [| discriminate].
  intros [= ->]. exists date.
  unfold usageOf, baselineAfter, totalUsageOf, lastUsageOf, modelFor, ownModel,
    sumsToZero, entryOf.
  destruct (normalizeCodexRawUsage
              (field (asRecord (lookup payload "info")) "total_token_usage"))
    as [total |].
  - cbv zeta. rewrite orElse_absorb.
    match goal with |- context [strictEq ?a ?b] => now destruct (strictEq a b) end.
  - destruct (normalizeCodexRawUsage
                (field (asRecord (lookup payload "info")) "last_token_usage"))
      as [lastUsage |]; [| reflexivity].
    cbv zeta. rewrite orElse_absorb.
    match goal with |- context [strictEq ?a ?b] => now destruct (strictEq a b) end.
Qed.

(** What the loop does with any other line. *)
Lemma processLine_other (state : StreamState) (line : json) :
  usagePayload Date_parse line = None ->
  snd (processLine Date_parse state line) = None
  /\ previousTotals (fst (processLine Date_parse state line))
     = previousTotals state
  /\ currentModel (fst (processLine Date_parse state line))
     = orElse (contextModel line) (currentModel state).
Proof.
  unfold usagePayload, processLine, contextModel.
  destruct line as [| b | n | s | items | lineRecord];
    try (intros _; repeat split; reflexivity).
  cbn [asRecord].
  destruct (isText (asTrimmedString (lookup lineRecord "type")) "turn_context")
    eqn:Hcontext.
  - intros _.
    destruct (extractModel (lookup lineRecord "payload")); repeat split.
  - destruct (isText (asTrimmedString (lookup lineRecord "type")) "event_msg");
      [| intros _; repeat split].
    cbn [negb].
    destruct (asRecord (lookup lineRecord "payload")) as [payload |];
      [| intros _; repeat split].
    destruct (isText (asTrimmedString (lookup payload "type")) "token_count");
      [| intros _; repeat split].
    cbn [negb].
    destruct (asTrimmedString (lookup lineRecord "timestamp")) as [text |];
      [| intros _; repeat split].
    destruct (Date_parse text); [discriminate | intros _; repeat split].
Qed.

(** X11.  A line that is not a [token_count] event with a timestamp that
    parses pushes no entry and leaves the cumulative baseline alone; it can
    only change the current model, and only when it is a [turn_context]
    line that names one. *)
Theorem other_lines_are_inert (state : StreamState) (line : json) :
  usagePayload Date_parse line = None ->
  snd (processLine Date_parse state line) = None
  /\ previousTotals (fst (processLine Date_parse state line))
     = previousTotals state
  /\ currentModel (fst (processLine Date_parse state line))
     = orElse (contextModel line) (currentModel state).
Proof. exact (processLine_other state line). Qed.

Lemma contextModel_not_usage (line : json) (name : string) :
  contextModel line = Some name -> usagePayload Date_parse line = None.
Proof.
  unfold contextModel, usagePayload.
  destruct line as [| b | n | s | items | lineRecord]; try discriminate.
  destruct (isText (asTrimmedString (lookup lineRecord "type")) "turn_context")
    eqn:Hcontext; [| discriminate].
  now rewrite (isText_inv _ _ Hcontext).
Qed.

Lemma ownModel_nonblank (payload : record) (name : string) :
  ownModel payload = Some name -> name <> "".
Proof.
  unfold ownModel.
  destruct (extractModel (Some (JObj payload))) as [direct |] eqn:Hdirect; simpl.
  - intros [= <-]. now apply extractModel_nonblank in Hdirect.
  - apply extractModel_nonblank.
Qed.

Lemma modelFor_nonblank (state : StreamState) (payload : record) :
  namedState state -> modelFor state payload <> "".
Proof.
  intros Hnamed. unfold modelFor.
  destruct (ownModel payload) as [own |] eqn:Hown; simpl.
  - now apply ownModel_nonblank in Hown.
  - destruct (currentModel state) as [current |] eqn:Hcurrent;
      [now apply Hnamed | discriminate].
Qed.

(** One line keeps the current model named and pushes only shaped entries. *)
Lemma processLine_shaped (state : StreamState) (line : json) :
  namedState state ->
  namedState (fst (processLine Date_parse state line))
  /\ (forall entry,
        snd (processLine Date_parse state line) = Some entry ->
        codexShaped entry).
Proof.
  intros Hnamed.
  destruct (usagePayload Date_parse line) as [payload |] eqn:Hpayload.
  - destruct (processLine_usage state line Hpayload) as (date & ->).
    destruct (usageOf state payload) as [usage |]; cbn [fst snd].
    + split.
      * intros name. cbn [currentModel].
        destruct (ownModel payload) as [own |] eqn:Hown; simpl.
        -- intros [= <-]. now apply ownModel_nonblank in Hown.
        -- apply Hnamed.
      * destruct (sumsToZero usage) eqn:Hzero; [discriminate |].
        intros entry [= <-]. unfold codexShaped, entryOf. cbn.
        repeat split.
        -- apply Math_min_le_r.
        -- now apply modelFor_nonblank.
        -- exact Hzero.
    + split; [exact Hnamed | discriminate].
  - destruct (processLine_other state line Hpayload) as (Hnone & _ & Hmodel).
    split; [| rewrite Hnone; discriminate].
    intros name. rewrite Hmodel.
    destruct (contextModel line) as [announced |] eqn:Hcontext; simpl.
    + intros [= <-]. unfold contextModel in Hcontext.
      destruct line; try discriminate.
      destruct (isText _ "turn_context"); [| discriminate].
      now apply extractModel_nonblank in Hcontext.
    + apply Hnamed.
Qed.

Lemma processLines_shaped (parsedLines : list json) (state : StreamState) :
  namedState state ->
  Forall codexShaped (processLines Date_parse state parsedLines).
Proof.
  revert state. induction parsedLines as [| line rest IH]; intros state Hnamed.
  - constructor.
  - cbn [processLines].
    destruct (@processLine_shaped state line Hnamed) as [Hnext Hpushed].
    destruct (processLine Date_parse state line) as [state' pushed].
    cbn [fst snd] in *.
    destruct pushed as [entry |]; [constructor |]; auto.
Qed.

(** X12.  Every entry read from Codex logs is of Codex origin, has no
    provider, no known cost and no cache-write tokens, a cache-read count
    that does not exceed its input count, a model name that is not blank,
    and four counts that do not sum to zero. *)
Theorem codex_entries_shaped (files : list (list json)) :
  Forall codexShaped (loadCodexEntries Date_parse files).
Proof.
  unfold loadCodexEntries.
  induction files as [| parsedLines rest IH]; simpl; [constructor |].
  apply Forall_app. split; [| exact IH].
  apply processLines_shaped. intros name. discriminate.
Qed.

(** X13.  A usage line without cumulative totals but with a last-usage
    value passes that value through: the baseline stays, and the entry
    pushed carries its counts as they are (cache reads capped by the
    input), unless the four counts sum to zero. *)
Theorem last_usage_passes_through (state : StreamState) (line : json)
    (payload : record) (usage : CodexRawUsage) :
  usagePayload Date_parse line = Some payload ->
  totalUsageOf payload = None ->
  lastUsageOf payload = Some usage ->
  previousTotals (fst (processLine Date_parse state line)) = previousTotals state
  /\ exists date,
       snd (processLine Date_parse state line)
       = if sumsToZero usage then None
         else Some (entryOf date (modelFor state payload) usage).
Proof.
  intros Hpayload Htotal Hlast.
  destruct (processLine_usage state line Hpayload) as (date & ->).
  unfold usageOf, baselineAfter. rewrite Htotal, Hlast. cbn [fst snd].
  split; [reflexivity | now exists date].
Qed.

(** X14.  The model of a pushed entry: the one the payload names itself,
    which also becomes the current model; else the one the last
    [turn_context] line announced; else ["gpt-5"]. *)
Theorem entry_model_inherited (state : StreamState) (context line : json)
    (payload : record) (entry : UsageEntry) (name : string) :
  usagePayload Date_parse line = Some payload ->
  (ownModel payload = Some name ->
   snd (processLine Date_parse state line) = Some entry ->
   model entry = name
   /\ currentModel (fst (processLine Date_parse state line)) = Some name)
  /\ (ownModel payload = None ->
      contextModel context = Some name ->
      snd (processLine Date_parse
             (fst (processLine Date_parse state context)) line) = Some entry ->
      model entry = name)
  /\ (ownModel payload = None ->
      currentModel state = None ->
      snd (processLine Date_parse state line) = Some entry ->
      model entry = "gpt-5").
Proof.
  intros Hpayload.
  assert (Hmodel : forall st,
            snd (processLine Date_parse st line) = Some entry ->
            model entry = modelFor st payload
            /\ currentModel (fst (processLine Date_parse st line))
               = orElse (ownModel payload) (currentModel st)).
  { intros st. destruct (processLine_usage st line Hpayload) as (date & ->).
    destruct (usageOf st payload) as [usage |]; cbn [fst snd]; [| discriminate].
    destruct (sumsToZero usage); [discriminate |].
    intros [= <-]. now split. }
  split; [| split].
  - intros Hown Hpushed. destruct (Hmodel state Hpushed) as [-> ->].
    unfold modelFor. now rewrite Hown.
  - intros Hown Hcontext Hpushed.
    destruct (Hmodel _ Hpushed) as [-> _].
    destruct (processLine_other state context
                (contextModel_not_usage _ Hcontext)) as (_ & _ & Hcurrent).
    unfold modelFor. now rewrite Hown, Hcurrent, Hcontext.
  - intros Hown Hcurrent Hpushed.
    destruct (Hmodel state Hpushed) as [-> _].
    unfold modelFor. now rewrite Hown, Hcurrent.
Qed.

(** X15.  The cumulative baseline belongs to one file: a snapshot repeated
    within a file adds nothing to what the file gives, the same snapshot
    in a second file is read again from scratch, and in general the
    entries of several files are those of each file read alone. *)
Theorem baseline_is_per_file (files more : list (list json))
    (line : json) (c : CodexRawUsage) :
  loadCodexEntries Date_parse (files ++ more)
  = (loadCodexEntries Date_parse files ++ loadCodexEntries Date_parse more)%list
  /\ (cumulativeSnapshot Date_parse line = Some c ->
      loadCodexEntries Date_parse [[line; line]]
      = loadCodexEntries Date_parse [[line]]
      /\ loadCodexEntries Date_parse [[line]; [line]]
         = (loadCodexEntries Date_parse [[line]]
            ++ loadCodexEntries Date_parse [[line]])%list).
Proof.
  split; [apply flat_map_app |].
  intros Hline.
  split; [| unfold loadCodexEntries; cbn [flat_map];
            now rewrite !app_nil_r].
  unfold loadCodexEntries. cbn [flat_map]. f_equal.
  cbn [processLines].
  destruct (processLine_cumulative Date_parse initialState line Hline)
    as [Hbase _].
  destruct (processLine Date_parse initialState line) as [state1 pushed].
  cbn [fst] in Hbase.
  destruct (processLine_cumulative Date_parse state1 line Hline) as [_ Hdrop].
  assert (Hnorm : exists value, normalizeCodexRawUsage value = Some c).
  { unfold cumulativeSnapshot in Hline.
    destruct (usagePayload Date_parse line); [| discriminate].
    eexists. exact Hline. }
  destruct Hnorm as (value & Hnorm).
  destruct (subtract_self _ Hnorm) as (Hi & Hc & Ho & Hr & _).
  rewrite Hbase in Hdrop.
  assert (Hnone : snd (processLine Date_parse state1 line) = None).
  { apply Hdrop. cbv zeta. rewrite Hi, Hc, Ho, Hr. reflexivity. }
  destruct (processLine Date_parse state1 line) as [state2 pushed2].
  cbn [snd] in Hnone. subst pushed2. reflexivity.
Qed.

End Lines.

Lemma last_usage_passes_through_witness :
  exists date,
    snd (processLine anyDate initialState lastOnlyLine)
    = Some (entryOf date "gpt-5"
              {| input_tokens := 10; cached_input_tokens := 4;
                 output_tokens := 3; reasoning_output_tokens := 0;
                 total_tokens := 13 |}).
Proof.
  exact (proj2 (@last_usage_passes_through anyDate initialState lastOnlyLine
                  _ _ eq_refl eq_refl eq_refl)).
Defined.

Lemma entry_model_inherited_witness :
  exists entry,
    snd (processLine anyDate
           (fst (processLine anyDate initialState contextLine)) lastOnlyLine)
    = Some entry
    /\ model entry = "o3".
Proof.
  eexists. split; [reflexivity |].
  refine (proj1 (proj2 (@entry_model_inherited anyDate initialState contextLine
                          lastOnlyLine _ _ "o3" eq_refl)) eq_refl eq_refl eq_refl).
Defined.

Lemma baseline_is_per_file_witness :
  List.length (loadCodexEntries anyDate [[totalsLine; totalsLine]]) = 1
  /\ List.length (loadCodexEntries anyDate [[totalsLine]; [totalsLine]]) = 2.
Proof.
  destruct (proj2 (@baseline_is_per_file anyDate [] [] totalsLine _) eq_refl)
    as [Hsame Htwice].
  rewrite Hsame, Htwice. split; reflexivity.
Defined.

Lemma other_lines_are_inert_witness :
  snd (processLine anyDate initialState
         (JObj [("type", JStr "turn_context");
                ("payload", JObj [("model", JStr " gpt-5.1 ")])])) = None
  /\ currentModel
       (fst (processLine anyDate initialState
               (JObj [("type", JStr "turn_context");
                      ("payload", JObj [("model", JStr " gpt-5.1 ")])])))
     = Some "gpt-5.1".
Proof.
  destruct (@other_lines_are_inert anyDate initialState
              (JObj [("type", JStr "turn_context");
                     ("payload", JObj [("model", JStr " gpt-5.1 ")])])
              eq_refl) as (Hnone & _ & Hmodel).
  split; [exact Hnone | exact Hmodel].
Defined.

End StreamFacts.

(* ================================================================= *)
(** * The Claude log: de-duplication and what the loop pushes *)

Module ClaudeFacts.
Import JsNumber JsString Json Types Utils Loaders ClaudeLoader ClaudeSpec.
Import ResolverFacts LoaderFacts StreamFacts Samples.

Local Open Scope string_scope.
Local Unset Implicit Arguments.

Section Lines.

Variable Date_parse : string -> option Z.

(** The set only grows. *)
Lemma processClaudeLine_grows (dedupe : StringSet) (line : json) (key : string) :
  In key dedupe -> In key (fst (processClaudeLine Date_parse dedupe line)).
Proof.
  intros Hin. unfold processClaudeLine.
  destruct (asRecord (Some line)) as [lineRecord |]; [| assumption].
  destruct (asRecord (field (asRecord (lookup lineRecord "message")) "usage"));
    [| assumption].
  destruct (asTrimmedString (lookup lineRecord "timestamp")) as [text |];
    [| assumption].
  destruct (Date_parse text); [| assumption].
  destruct (asTrimmedString (field (asRecord (lookup lineRecord "message")) "id"))
    as [mid |],
    (asTrimmedString (lookup lineRecord "requestId")) as [rid |];
    cbv zeta;
    repeat match goal with
      | |- context [if ?c then _ else _] => destruct c
      end;
    cbn [fst]; rewrite ?In_add; tauto.
Qed.

Lemma processClaudeLines_grows (parsedLines : list json) (dedupe : StringSet)
    (key : string) :
  In key dedupe -> In key (fst (processClaudeLines Date_parse dedupe parsedLines)).
Proof.
  revert dedupe. induction parsedLines as [| line rest IH]; intros dedupe Hin.
  - exact Hin.
  - cbn [processClaudeLines].
    pose proof (processClaudeLine_grows dedupe line key Hin) as Hnext.
    destruct (processClaudeLine Date_parse dedupe line) as [dedupe' pushed].
    cbn [fst] in Hnext. specialize (IH dedupe' Hnext).
    destruct (processClaudeLines Date_parse dedupe' rest) as [dedupe'' entries].
    exact IH.
Qed.

(** A readable line leaves its key in the set. *)
Lemma processClaudeLine_records (dedupe : StringSet) (line : json) (key : string) :
  readable Date_parse line = true ->
  claudeKey line = Some key ->
  In key (fst (processClaudeLine Date_parse dedupe line)).
Proof.
  unfold readable, claudeKey, processClaudeLine.
  destruct line as [| b | n | s | items | lineRecord]; try discriminate.
  cbn [asRecord].
  destruct (asRecord (field (asRecord (lookup lineRecord "message")) "usage"));
    [| discriminate].
  destruct (asTrimmedString (lookup lineRecord "timestamp")) as [text |];
    [| discriminate].
  destruct (Date_parse text); [| discriminate]. intros _.
  destruct (asTrimmedString (field (asRecord (lookup lineRecord "message")) "id"))
    as [mid |]; [| discriminate].
  destruct (asTrimmedString (lookup lineRecord "requestId")) as [rid |];
    [| discriminate].
  intros [= <-]. cbv zeta.
  destruct (has dedupe (mid ++ ":" ++ rid)) eqn:Hseen.
  - cbn [fst]. now apply has_In.
  - match goal with
    | |- context [if ?c then _ else _] => destruct c
    end; cbn [fst]; apply In_add; now right.
Qed.

(** A line whose key is in the set pushes nothing. *)
Lemma processClaudeLine_seen (dedupe : StringSet) (line : json) (key : string) :
  claudeKey line = Some key ->
  In key dedupe ->
  processClaudeLine Date_parse dedupe line = (dedupe, None).
Proof.
  unfold claudeKey, processClaudeLine.
  destruct line as [| b | n | s | items | lineRecord]; try discriminate.
  cbn [asRecord].
  destruct (asTrimmedString (field (asRecord (lookup lineRecord "message")) "id"))
    as [mid |]; [| discriminate].
  destruct (asTrimmedString (lookup lineRecord "requestId")) as [rid |];
    [| discriminate].
  intros [= <-] Hin. apply has_In in Hin.
  destruct (asRecord (field (asRecord (lookup lineRecord "message")) "usage"));
    [| reflexivity].
  destruct (asTrimmedString (lookup lineRecord "timestamp")) as [text |];
    [| reflexivity].
  destruct (Date_parse text); [| reflexivity].
  cbv zeta.
  match goal with
  | |- context [has dedupe ?k] =>
      replace (has dedupe k) with true by (symmetry; exact Hin)
  end.
  reflexivity.
Qed.

Lemma processClaudeLines_records (parsedLines : list json) (dedupe : StringSet)
    (line : json) (key : string) :
  In line parsedLines ->
  readable Date_parse line = true ->
  claudeKey line = Some key ->
  In key (fst (processClaudeLines Date_parse dedupe parsedLines)).
Proof.
  revert dedupe.
  induction parsedLines as [| first rest IH]; intros dedupe Hin Hread Hkey;
    [destruct Hin |].
  cbn [processClaudeLines].
  destruct Hin as [-> | Hin].
  - pose proof (processClaudeLine_records dedupe line key Hread Hkey) as Hrecorded.
    destruct (processClaudeLine Date_parse dedupe line) as [dedupe' pushed].
    cbn [fst] in Hrecorded.
    pose proof (processClaudeLines_grows rest dedupe' key Hrecorded) as Hkept.
    destruct (processClaudeLines Date_parse dedupe' rest) as [dedupe'' entries].
    exact Hkept.
  - destruct (processClaudeLine Date_parse dedupe first) as [dedupe' pushed].
    specialize (IH dedupe' Hin Hread Hkey).
    destruct (processClaudeLines Date_parse dedupe' rest) as [dedupe'' entries].
    exact IH.
Qed.

Lemma processClaudeFiles_repeat (files : list (list json)) (dedupe : StringSet)
    (line again : json) (key : string) :
  readable Date_parse line = true ->
  claudeKey line = Some key ->
  claudeKey again = Some key ->
  In key dedupe \/ In line (List.concat files) ->
  processClaudeFiles Date_parse dedupe (files ++ [[again]])
  = processClaudeFiles Date_parse dedupe files.
Proof.
  intros Hread Hkey Hagain. revert dedupe.
  induction files as [| parsedLines rest IH]; intros dedupe Hseen.
  - destruct Hseen as [Hseen | []].
    cbn [app processClaudeFiles processClaudeLines].
    now rewrite (processClaudeLine_seen dedupe again key Hagain Hseen).
  - cbn [app processClaudeFiles].
    assert (Hnext :
      In key (fst (processClaudeLines Date_parse dedupe parsedLines))
      \/ In line (List.concat rest)).
    { destruct Hseen as [Hseen | Hseen].
      - left. now apply processClaudeLines_grows.
      - cbn [List.concat] in Hseen. apply in_app_or in Hseen.
        destruct Hseen as [Hhere | Hlater]; [left | now right].
        now apply processClaudeLines_records with (line := line). }
    destruct (processClaudeLines Date_parse dedupe parsedLines)
      as [dedupe' entries].
    cbn [fst] in Hnext. now rewrite (IH dedupe' Hnext).
Qed.

(** X16.  De-duplication by message id and request id spans all files: a
    line that has both ids adds nothing when a readable line with the same
    ids was read before, in the same file or in an earlier one. *)
Theorem claude_duplicates_dropped (files : list (list json))
    (line again : json) (key : string) :
  readable Date_parse line = true ->
  claudeKey line = Some key ->
  claudeKey again = Some key ->
  In line (List.concat files) ->
  loadClaudeEntries Date_parse (files ++ [[again]])
  = loadClaudeEntries Date_parse files.
Proof.
  intros Hread Hkey Hagain Hin. unfold loadClaudeEntries.
  apply processClaudeFiles_repeat with (line := line) (key := key); auto.
Qed.

(** X17.  A line that lacks the message id or the request id is never
    de-duplicated: it leaves the set as it is, and what it pushes does not
    depend on what was read before. *)
Theorem claude_unkeyed_not_deduplicated (dedupe : StringSet) (line : json) :
  claudeKey line = None ->
  processClaudeLine Date_parse dedupe line
  = (dedupe, snd (processClaudeLine Date_parse [] line)).
Proof.
  unfold claudeKey, processClaudeLine.
  destruct line as [| b | n | s | items | lineRecord];
    try (intros _; reflexivity).
  cbn [asRecord].
  destruct (asRecord (field (asRecord (lookup lineRecord "message")) "usage"));
    [| reflexivity].
  destruct (asTrimmedString (lookup lineRecord "timestamp")) as [text |];
    [| reflexivity].
  destruct (Date_parse text); [| reflexivity].
  destruct (asTrimmedString (field (asRecord (lookup lineRecord "message")) "id"))
    as [mid |],
    (asTrimmedString (lookup lineRecord "requestId")) as [rid |];
    try discriminate; intros _; cbv zeta;
    match goal with
    | |- context [if ?c then _ else _] => now destruct c
    end.
Qed.

Lemma finiteCost_finite (rawCost : jsval) (cost : number) :
  finiteCost rawCost = Some cost -> isFinite cost = true.
Proof.
  destruct rawCost as [[| b | n | s | items | fields] |]; simpl; try discriminate.
  destruct (isFinite n) eqn:Hn; [| discriminate]. now intros [= <-].
Qed.

Lemma processClaudeLine_shaped (dedupe : StringSet) (line : json)
    (entry : UsageEntry) :
  snd (processClaudeLine Date_parse dedupe line) = Some entry ->
  claudeShaped entry.
Proof.
  unfold processClaudeLine.
  destruct (asRecord (Some line)) as [lineRecord |]; [| discriminate].
  destruct (asRecord (field (asRecord (lookup lineRecord "message")) "usage"))
    as [usageRecord |]; [| discriminate].
  destruct (asTrimmedString (lookup lineRecord "timestamp")) as [text |];
    [| discriminate].
  destruct (Date_parse text) as [date |]; [| discriminate].
  cbv zeta.
  match goal with
  | |- context [if ?c then (dedupe, None) else _] => destruct c
  end; [discriminate |].
  match goal with
  | |- context [strictEq ?a ?b] => destruct (strictEq a b) eqn:Hzero
  end; [discriminate |].
  cbn [snd]. intros [= <-]. unfold claudeShaped. cbn.
  repeat split; try apply normalizeNumber_finite.
  - destruct (asTrimmedString (field (asRecord (lookup lineRecord "message")) "model"))
      as [own |] eqn:Hown; simpl.
    + now apply asTrimmedString_nonblank in Hown.
    + destruct (asTrimmedString (lookup lineRecord "model")) as [other |] eqn:Hother.
      * now apply asTrimmedString_nonblank in Hother.
      * discriminate.
  - exact Hzero.
  - intros cost. apply finiteCost_finite.
Qed.

Lemma processClaudeLines_shaped (parsedLines : list json) (dedupe : StringSet) :
  Forall claudeShaped (snd (processClaudeLines Date_parse dedupe parsedLines)).
Proof.
  revert dedupe. induction parsedLines as [| line rest IH]; intros dedupe.
  - constructor.
  - cbn [processClaudeLines].
    pose proof (processClaudeLine_shaped dedupe line) as Hpushed.
    destruct (processClaudeLine Date_parse dedupe line) as [dedupe' pushed].
    specialize (IH dedupe').
    destruct (processClaudeLines Date_parse dedupe' rest) as [dedupe'' entries].
    cbn [snd] in *.
    destruct pushed as [entry |]; [constructor |]; auto.
Qed.

(** X18.  Every entry read from Claude logs is of Claude origin, has no
    provider and no reasoning-output tokens, a model name that is not
    blank, four finite counts that do not sum to zero, and a known cost,
    if any, that is a finite number. *)
Theorem claude_entries_shaped (files : list (list json)) :
  Forall claudeShaped (loadClaudeEntries Date_parse files).
Proof.
  unfold loadClaudeEntries. generalize (@nil string) as dedupe.
  induction files as [| parsedLines rest IH]; intros dedupe.
  - constructor.
  - cbn [processClaudeFiles].
    pose proof (processClaudeLines_shaped parsedLines dedupe) as Hhere.
    destruct (processClaudeLines Date_parse dedupe parsedLines)
      as [dedupe' entries].
    apply Forall_app. split; [exact Hhere | apply IH].
Qed.

End Lines.

Lemma claude_duplicates_dropped_witness :
  loadClaudeEntries anyDate [[claudeLine true]; [claudeLine true]]
  = loadClaudeEntries anyDate [[claudeLine true]]
  /\ List.length (loadClaudeEntries anyDate [[claudeLine true]]) = 1.
Proof.
  split; [| reflexivity].
  apply (@claude_duplicates_dropped anyDate [[claudeLine true]]
           (claudeLine true) (claudeLine true) "msg_1:req_1");
    first [reflexivity | now left].
Defined.

Lemma claude_unkeyed_not_deduplicated_witness :
  List.length
    (snd (processClaudeLines anyDate [] [claudeLine false; claudeLine false]))
  = 2.
Proof.
  cbn [processClaudeLines].
  rewrite (@claude_unkeyed_not_deduplicated anyDate [] (claudeLine false) eq_refl).
  rewrite (@claude_unkeyed_not_deduplicated anyDate [] (claudeLine false) eq_refl).
  reflexivity.
Defined.

End ClaudeFacts.

(* ================================================================= *)
(** * Comma lists *)

Module CommaListFacts.
Import JsString CommaList ReportSpec StringFacts.

Local Open Scope string_scope.
Local Unset Implicit Arguments.

Lemma splitComma_nonempty (input : string) : splitComma input <> [].
Proof.
  induction input as [| c rest IH]; simpl; [discriminate |].
  destruct (Ascii.eqb c ","); [discriminate |].
  destruct (splitComma rest); discriminate.
Qed.

Lemma splitComma_commaFree (input : string) :
  Forall (fun part => commaFree part = true) (splitComma input).
Proof.
  induction input as [| c rest IH]; simpl.
  - repeat constructor.
  - destruct (Ascii.eqb c ",") eqn:Hc; [constructor; [reflexivity | exact IH] |].
    destruct (splitComma rest) as [| first others].
    + repeat constructor. simpl. now rewrite Hc.
    + inversion IH as [| ? ? Hfirst Hothers]; subst.
      constructor; [| assumption]. simpl. now rewrite Hc, Hfirst.
Qed.

Lemma trimStart_commaFree (s : string) :
  commaFree s = true -> commaFree (trimStart s) = true.
Proof.
  induction s as [| c rest IH]; simpl; [reflexivity |].
  intros H. apply andb_prop in H. destruct H as [Hc Hrest].
  destruct (isWhiteSpace c); [now apply IH |].
  simpl. now rewrite Hc, Hrest.
Qed.

Lemma trimEnd_commaFree (s : string) :
  commaFree s = true -> commaFree (trimEnd s) = true.
Proof.
  induction s as [| c rest IH]; simpl; [reflexivity |].
  intros H. apply andb_prop in H. destruct H as [Hc Hrest].
  specialize (IH Hrest).
  destruct (trimEnd rest) as [| d kept].
  - destruct (isWhiteSpace c); [reflexivity |]. simpl. now rewrite Hc.
  - simpl in *. now rewrite Hc, IH.
Qed.

(** X21.  Every element of [splitCommaList] is a non-blank, trimmed piece
    of the input without a comma; a blank input gives the empty list. *)
Theorem splitCommaList_items (input : string) :
  Forall listItem (splitCommaList input)
  /\ (trim input = "" -> commaFree input = true -> splitCommaList input = []).
Proof.
  split.
  - unfold splitCommaList. apply Forall_forall. intros part Hpart.
    apply filter_In in Hpart. destruct Hpart as [Hin Hnonblank].
    apply in_map_iff in Hin. destruct Hin as (raw & <- & Hraw).
    repeat split.
    + apply negb_true_iff in Hnonblank. now apply String.eqb_neq.
    + apply trim_idempotent.
    + unfold trim. apply trimEnd_commaFree, trimStart_commaFree.
      exact (proj1 (Forall_forall _ _) (splitComma_commaFree input) raw Hraw).
  - intros Hblank Hfree. unfold splitCommaList.
    assert (Hwhole : splitComma input = [input]).
    { clear Hblank. induction input as [| c rest IH]; [reflexivity |].
      simpl in *. apply andb_prop in Hfree. destruct Hfree as [Hc Hrest].
      apply negb_true_iff in Hc. now rewrite Hc, (IH Hrest). }
    rewrite Hwhole. simpl. now rewrite Hblank.
Qed.

Lemma splitComma_whole (part : string) :
  commaFree part = true -> splitComma part = [part].
Proof.
  induction part as [| c rest IH]; [reflexivity |].
  simpl. intros H. apply andb_prop in H. destruct H as [Hc Hrest].
  apply negb_true_iff in Hc. now rewrite Hc, (IH Hrest).
Qed.

Lemma splitComma_app (part rest : string) :
  commaFree part = true ->
  splitComma (part ++ "," ++ rest) = part :: splitComma rest.
Proof.
  induction part as [| c part IH]; [reflexivity |].
  simpl. intros H. apply andb_prop in H. destruct H as [Hc Hpart].
  apply negb_true_iff in Hc. rewrite Hc.
  change (String "," rest) with ("," ++ rest). now rewrite (IH Hpart).
Qed.

Lemma splitComma_join (first : string) (rest : list string) :
  Forall (fun part => commaFree part = true) (first :: rest) ->
  splitComma (joinComma (first :: rest)) = first :: rest.
Proof.
  revert first. induction rest as [| second rest IH]; intros first Hfree.
  - inversion Hfree; subst. now apply splitComma_whole.
  - inversion Hfree as [| ? ? Hfirst Hrest]; subst.
    change (joinComma (first :: second :: rest))
      with (first ++ "," ++ joinComma (second :: rest)).
    rewrite (splitComma_app _ _ Hfirst). now rewrite (IH second Hrest).
Qed.

(** X22.  Round trip: a list of non-blank, trimmed, comma-free items,
    joined with commas, is split back into the same list. *)
Theorem splitCommaList_joinComma (parts : list string) :
  Forall listItem parts ->
  splitCommaList (joinComma parts) = parts.
Proof.
  intros Hparts. unfold splitCommaList.
  destruct parts as [| first rest]; [reflexivity |].
  rewrite splitComma_join
    by (eapply Forall_impl; [| exact Hparts]; now intros part (_ & _ & Hfree)).
  induction Hparts as [| part others (Hnonblank & Htrim & _) _ IH];
    [reflexivity |].
  cbn [map filter]. rewrite Htrim.
  apply String.eqb_neq in Hnonblank. rewrite Hnonblank. cbn [negb].
  now rewrite IH.
Qed.

Lemma splitCommaList_items_witness :
  splitCommaList "   " = [].
Proof.
  exact (proj2 (splitCommaList_items "   ") eq_refl eq_refl).
Defined.

Lemma splitCommaList_joinComma_witness :
  splitCommaList "claude,codex" = ["claude"; "codex"].
Proof.
  apply (splitCommaList_joinComma ["claude"; "codex"]).
  repeat constructor; discriminate.
Defined.

End CommaListFacts.

(* ================================================================= *)
(** * Month windows *)

Module MonthFacts.
Import JsString Month ReportSpec StringFacts.

Local Open Scope string_scope.
Local Unset Implicit Arguments.

Lemma execMonth_shaped (trimmed yearText monthText : string) :
  monthShaped trimmed yearText monthText ->
  execMonth trimmed = Some (yearText, monthText).
Proof.
  intros (-> & Hylen & Hy & Hmlen & Hm & _).
  destruct yearText as [| a [| b [| c [| d [| e rest]]]]]; try discriminate.
  destruct monthText as [| f [| g [| h rest]]]; try discriminate.
  unfold execMonth.
  cbn [append String.length substring Nat.eqb].
  now rewrite Hy, Hm.
Qed.

Lemma execMonth_inv (trimmed yearText monthText : string) :
  execMonth trimmed = Some (yearText, monthText) ->
  trimmed = yearText ++ "-" ++ monthText
  /\ String.length yearText = 4 /\ digitsOnly yearText = true
  /\ String.length monthText = 2 /\ digitsOnly monthText = true.
Proof.
  unfold execMonth.
  destruct (Nat.eqb (String.length trimmed) 7) eqn:Hlen; [| discriminate].
  apply Nat.eqb_eq in Hlen.
  destruct trimmed as [| a [| b [| c [| d [| e [| f [| g [| h rest]]]]]]]];
    try discriminate.
  cbn [substring andb].
  destruct (digitsOnly (String a (String b (String c (String d "")))))
    eqn:Hy; [| discriminate].
  cbn [andb].
  destruct (String.eqb (String e "") "-") eqn:Hdash; [| discriminate].
  apply String.eqb_eq in Hdash. injection Hdash as ->.
  cbn [andb].
  destruct (digitsOnly (String f (String g ""))) eqn:Hm; [| discriminate].
  intros [= <- <-]. repeat split; assumption.
Qed.

Section Dates.

Variable Date_local : nat -> nat -> nat -> Z.
Variable Date_getDate : Z -> Z.

(** X23.  [parseMonthWindow] accepts exactly the inputs that, once
    trimmed, are four digits, a dash and two digits reading 01 to 12; every
    other input throws.  The window then starts on day 1 of that month and
    ends on day 1 of the next, and its year and month index are the
    numbers read. *)
Theorem parseMonthWindow_accepts (monthInput : string) :
  (forall yearText monthText,
     monthShaped (trim monthInput) yearText monthText ->
     exists window,
       parseMonthWindow Date_local Date_getDate monthInput = Some window
       /\ year window = Number_ofDigits yearText
       /\ S (monthIndex window) = Number_ofDigits monthText
       /\ start window
          = Date_local (Number_ofDigits yearText) (monthIndex window) 1
       /\ endExclusive window
          = Date_local (Number_ofDigits yearText) (monthIndex window + 1) 1)
  /\ (forall window,
        parseMonthWindow Date_local Date_getDate monthInput = Some window ->
        exists yearText monthText,
          monthShaped (trim monthInput) yearText monthText).
Proof.
  split.
  - intros yearText monthText Hshape.
    pose proof Hshape as (_ & _ & _ & _ & _ & Hlow & Hhigh).
    unfold parseMonthWindow. rewrite (execMonth_shaped _ _ _ Hshape).
    replace (Number_ofDigits monthText <? 1)%nat with false
      by (symmetry; apply Nat.ltb_ge; lia).
    replace (12 <? Number_ofDigits monthText)%nat with false
      by (symmetry; apply Nat.ltb_ge; lia).
    cbn [orb]. eexists. split; [reflexivity |].
    cbn [year monthIndex start endExclusive].
    repeat split. lia.
  - intros window. unfold parseMonthWindow.
    destruct (execMonth (trim monthInput)) as [[yearText monthText] |] eqn:Hexec;
      [| discriminate].
    destruct (Number_ofDigits monthText <? 1)%nat eqn:Hlow; [discriminate |].
    destruct (12 <? Number_ofDigits monthText)%nat eqn:Hhigh; [discriminate |].
    intros _. exists yearText, monthText.
    apply Nat.ltb_ge in Hlow, Hhigh.
    destruct (execMonth_inv _ _ _ Hexec) as (H1 & H2 & H3 & H4 & H5).
    unfold monthShaped. repeat split; assumption.
Qed.

End Dates.

Lemma parseMonthWindow_accepts_witness :
  exists window,
    parseMonthWindow (fun y m d => 0%Z) (fun t => 30%Z) " 2025-02 " = Some window
    /\ year window = 2025 /\ S (monthIndex window) = 2.
Proof.
  destruct (proj1 (parseMonthWindow_accepts (fun y m d => 0%Z) (fun t => 30%Z)
                     " 2025-02 ") "2025" "02")
    as (window & Hparse & Hyear & Hmonth & _).
  - unfold monthShaped. repeat split; try reflexivity; cbv; lia.
  - exists window. repeat split; assumption.
Defined.

End MonthFacts.

(* ================================================================= *)
(** * The monthly aggregation *)

Module AggregateFacts.
Import JsNumber JsString Types Utils Pricing Month Aggregate ReportSpec.

Local Open Scope string_scope.
Local Unset Implicit Arguments.

Lemma put_length (buckets : list DayBucket.t) (index : nat) (bucket : DayBucket.t) :
  List.length (DayBucket.put buckets index bucket) = List.length buckets.
Proof.
  revert index. induction buckets as [| first rest IH]; intros index;
    [reflexivity |].
  destruct index as [| index]; simpl; [reflexivity | now rewrite IH].
Qed.

Lemma put_Forall (P : DayBucket.t -> Prop) (buckets : list DayBucket.t)
    (index : nat) (bucket : DayBucket.t) :
  Forall P buckets -> P bucket -> Forall P (DayBucket.put buckets index bucket).
Proof.
  intros Hall Hnew. revert index.
  induction Hall as [| first rest Hfirst Hrest IH]; intros index;
    [constructor |].
  destruct index as [| index]; simpl; constructor; auto.
Qed.

Lemma at_In (buckets : list DayBucket.t) (index : Z) (bucket : DayBucket.t) :
  DayBucket.at_ buckets index = Some bucket -> In bucket buckets.
Proof.
  unfold DayBucket.at_. destruct (index <? 0)%Z; [discriminate |].
  apply nth_error_In.
Qed.

Lemma makeEmptyDayBuckets_length (days : Z) :
  List.length (DayBucket.makeEmptyDayBuckets days) = Z.to_nat days.
Proof. apply repeat_length. Qed.

Section Dates.

Variable Date_local : nat -> nat -> nat -> Z.
Variable Date_getDate : Z -> Z.

Lemma aggregateStep_length (window : MonthWindow) (pricingMap : PricingMap)
    (shouldComputeCost : bool) (buckets : list DayBucket.t) (entry : UsageEntry) :
  List.length
    (aggregateStep Date_getDate window pricingMap shouldComputeCost buckets entry)
  = List.length buckets.
Proof.
  unfold aggregateStep.
  destruct (monthContainsDate window (timestamp entry)); [| reflexivity].
  cbn [negb].
  destruct (DayBucket.at_ buckets _); [apply put_length | reflexivity].
Qed.

Lemma aggregate_length (window : MonthWindow) (pricingMap : PricingMap)
    (shouldComputeCost : bool) (entries : list UsageEntry)
    (buckets : list DayBucket.t) :
  List.length
    (fold_left (aggregateStep Date_getDate window pricingMap shouldComputeCost)
       entries buckets)
  = List.length buckets.
Proof.
  revert buckets. induction entries as [| entry rest IH]; intros buckets;
    [reflexivity |].
  cbn [fold_left]. now rewrite IH, aggregateStep_length.
Qed.

(** An entry that is not counted leaves every bucket as it is. *)
Lemma aggregateStep_skip (window : MonthWindow) (pricingMap : PricingMap)
    (shouldComputeCost : bool) (buckets : list DayBucket.t) (entry : UsageEntry) :
  List.length buckets = Z.to_nat (daysInMonth window) ->
  counted Date_getDate window entry = false ->
  aggregateStep Date_getDate window pricingMap shouldComputeCost buckets entry
  = buckets.
Proof.
  intros Hlen Hskip. unfold aggregateStep, counted in *.
  destruct (monthContainsDate window (timestamp entry)); [| reflexivity].
  cbn [negb andb] in *.
  unfold DayBucket.at_.
  destruct (monthDayIndex Date_getDate (timestamp entry) <? 0)%Z eqn:Hneg;
    [reflexivity |].
  apply Z.ltb_ge in Hneg.
  replace (0 <=? monthDayIndex Date_getDate (timestamp entry))%Z with true
    in Hskip by (symmetry; now apply Z.leb_le).
  cbn [andb] in Hskip. apply Z.ltb_ge in Hskip.
  replace (nth_error buckets
             (Z.to_nat (monthDayIndex Date_getDate (timestamp entry))))
    with (@None DayBucket.t); [reflexivity |].
  symmetry. apply nth_error_None. rewrite Hlen. lia.
Qed.

Lemma aggregate_counted_only (window : MonthWindow) (pricingMap : PricingMap)
    (shouldComputeCost : bool) (entries : list UsageEntry)
    (buckets : list DayBucket.t) :
  List.length buckets = Z.to_nat (daysInMonth window) ->
  fold_left (aggregateStep Date_getDate window pricingMap shouldComputeCost)
    (filter (counted Date_getDate window) entries) buckets
  = fold_left (aggregateStep Date_getDate window pricingMap shouldComputeCost)
      entries buckets.
Proof.
  revert buckets. induction entries as [| entry rest IH]; intros buckets Hlen;
    [reflexivity |].
  cbn [filter fold_left].
  destruct (counted Date_getDate window entry) eqn:Hcounted.
  - cbn [fold_left]. apply IH. now rewrite aggregateStep_length.
  - rewrite (aggregateStep_skip _ _ _ _ _ Hlen Hcounted). now apply IH.
Qed.

(** X24.  A month text that parses always gives a summary, with one
    bucket for each day of the month, whatever the entries are; and the
    entries that fall outside the month, or on a day the month has no
    bucket for, do not change it: the summary is that of the counted
    entries alone.  A month text that does not parse gives no summary. *)
Theorem aggregate_counts_month_only (kind : SourceKind) (name monthText : string)
    (entries : list UsageEntry) (pricingMap : PricingMap)
    (shouldComputeCost : bool) :
  match parseMonthWindow Date_local Date_getDate monthText with
  | Some window =>
      exists summary,
        aggregateSourceSummary Date_local Date_getDate kind name monthText
          entries pricingMap shouldComputeCost = Some summary
        /\ List.length (dayBuckets summary) = Z.to_nat (daysInMonth window)
        /\ aggregateSourceSummary Date_local Date_getDate kind name monthText
             (filter (counted Date_getDate window) entries)
             pricingMap shouldComputeCost = Some summary
  | None =>
      aggregateSourceSummary Date_local Date_getDate kind name monthText
        entries pricingMap shouldComputeCost = None
  end.
Proof.
  unfold aggregateSourceSummary.
  destruct (parseMonthWindow Date_local Date_getDate monthText) as [window |];
    [| reflexivity].
  eexists. split; [reflexivity |]. split.
  - cbn [dayBuckets summarize].
    now rewrite aggregate_length, makeEmptyDayBuckets_length.
  - now rewrite aggregate_counted_only by apply makeEmptyDayBuckets_length.
Qed.

(** ** Without cost *)

Lemma sum_of_zeros (f : DayBucket.t -> number) (buckets : list DayBucket.t) :
  Forall (fun b => f b = 0%float) buckets ->
  fold_left (fun total b => (total + f b)%float) buckets 0%float = 0%float.
Proof.
  induction 1 as [| first rest Hfirst _ IH]; [reflexivity |].
  cbn [fold_left]. now rewrite Hfirst.
Qed.

Lemma aggregate_invariant (P : DayBucket.t -> Prop) (window : MonthWindow)
    (pricingMap : PricingMap) (shouldComputeCost : bool)
    (entries : list UsageEntry) (buckets : list DayBucket.t) :
  (forall bucket entry,
     In entry entries -> P bucket ->
     P (addEntry pricingMap shouldComputeCost bucket entry)) ->
  Forall P buckets ->
  Forall P
    (fold_left (aggregateStep Date_getDate window pricingMap shouldComputeCost)
       entries buckets).
Proof.
  revert buckets. induction entries as [| entry rest IH];
    intros buckets Hstep Hall; [assumption |].
  cbn [fold_left]. apply IH.
  - intros bucket e He. apply Hstep. now right.
  - unfold aggregateStep.
    destruct (monthContainsDate window (timestamp entry)); [| assumption].
    cbn [negb].
    destruct (DayBucket.at_ buckets _) as [bucket |] eqn:Hat; [| assumption].
    apply put_Forall; [assumption |].
    apply Hstep; [now left |].
    exact (proj1 (Forall_forall _ _) Hall _ (at_In _ _ _ Hat)).
Qed.

Lemma empty_buckets (P : DayBucket.t -> Prop) (days : Z) :
  P DayBucket.empty -> Forall P (DayBucket.makeEmptyDayBuckets days).
Proof.
  intros Hempty. unfold DayBucket.makeEmptyDayBuckets.
  induction (Z.to_nat days) as [| n IH]; simpl; constructor; assumption.
Qed.

(** X25.  When cost is not asked for, no bucket carries a cost or an
    unknown-cost count, and both totals of the summary are [0], whatever
    the entries and the catalog are. *)
Theorem no_cost_unless_asked (kind : SourceKind) (name monthText : string)
    (entries : list UsageEntry) (pricingMap : PricingMap) (summary : Summary) :
  aggregateSourceSummary Date_local Date_getDate kind name monthText
    entries pricingMap false = Some summary ->
  Forall costFree (dayBuckets summary)
  /\ totalCostUSD summary = 0%float
  /\ unknownCostEntries summary = 0%float.
Proof.
  unfold aggregateSourceSummary.
  destruct (parseMonthWindow Date_local Date_getDate monthText) as [window |];
    [| discriminate].
  intros [= <-]. cbn [dayBuckets totalCostUSD unknownCostEntries summarize].
  assert (Hfree :
    Forall costFree
      (fold_left (aggregateStep Date_getDate window pricingMap false) entries
         (DayBucket.makeEmptyDayBuckets (daysInMonth window)))).
  { apply aggregate_invariant.
    - intros bucket entry _ Hbucket. exact Hbucket.
    - apply empty_buckets. split; reflexivity. }
  split; [exact Hfree |].
  split; apply sum_of_zeros; (eapply Forall_impl; [| exact Hfree]);
    intros bucket [Hcost Hunknown]; assumption.
Qed.

(** ** Known costs *)

Lemma addEntry_known (pricingMap other : PricingMap) (bucket : DayBucket.t)
    (entry : UsageEntry) :
  hasKnownCost entry = true ->
  addEntry pricingMap true bucket entry = addEntry other true bucket entry
  /\ DayBucket.unknownCostEntries (addEntry pricingMap true bucket entry)
     = DayBucket.unknownCostEntries bucket.
Proof.
  unfold hasKnownCost, addEntry.
  destruct (costUSD entry) as [known |]; [| discriminate].
  intros ->. split; reflexivity.
Qed.

Lemma aggregate_known (window : MonthWindow) (pricingMap other : PricingMap)
    (entries : list UsageEntry) (buckets : list DayBucket.t) :
  Forall (fun entry => hasKnownCost entry = true) entries ->
  fold_left (aggregateStep Date_getDate window pricingMap true) entries buckets
  = fold_left (aggregateStep Date_getDate window other true) entries buckets.
Proof.
  intros Hknown. revert buckets.
  induction Hknown as [| entry rest Hentry _ IH]; intros buckets;
    [reflexivity |].
  cbn [fold_left]. rewrite IH. f_equal.
  unfold aggregateStep.
  destruct (monthContainsDate window (timestamp entry)); [| reflexivity].
  cbn [negb].
  destruct (DayBucket.at_ buckets _) as [bucket |]; [| reflexivity].
  f_equal. exact (proj1 (addEntry_known pricingMap other bucket entry Hentry)).
Qed.

(** X26.  When every entry carries a known cost, the catalog plays no
    part: the summary is the same against any two catalogs, and it counts
    no entry as of unknown cost. *)
Theorem known_costs_ignore_catalog (kind : SourceKind) (name monthText : string)
    (entries : list UsageEntry) (pricingMap other : PricingMap) :
  Forall (fun entry => hasKnownCost entry = true) entries ->
  aggregateSourceSummary Date_local Date_getDate kind name monthText
    entries pricingMap true
  = aggregateSourceSummary Date_local Date_getDate kind name monthText
      entries other true
  /\ (forall summary,
        aggregateSourceSummary Date_local Date_getDate kind name monthText
          entries pricingMap true = Some summary ->
        unknownCostEntries summary = 0%float).
Proof.
  intros Hknown. unfold aggregateSourceSummary.
  destruct (parseMonthWindow Date_local Date_getDate monthText) as [window |];
    [| split; [reflexivity | discriminate]].
  split; [now rewrite (aggregate_known window pricingMap other) |].
  intros summary [= <-]. cbn [unknownCostEntries summarize].
  apply sum_of_zeros.
  apply (aggregate_invariant
           (fun b => DayBucket.unknownCostEntries b = 0%float)).
  - intros bucket entry Hin Hbucket.
    rewrite (proj2 (addEntry_known pricingMap pricingMap bucket entry
                      (proj1 (Forall_forall _ _) Hknown entry Hin))).
    exact Hbucket.
  - now apply empty_buckets.
Qed.

(** ** The combined summary *)

Lemma addBuckets_length (combined sourceBuckets : list DayBucket.t) :
  List.length (addBuckets combined sourceBuckets) = List.length combined.
Proof.
  revert sourceBuckets.
  induction combined as [| c rest IH]; intros [| b more]; simpl;
    try reflexivity.
  now rewrite IH.
Qed.

Lemma addBuckets_firstn (combined sourceBuckets : list DayBucket.t) :
  addBuckets combined (firstn (List.length combined) sourceBuckets)
  = addBuckets combined sourceBuckets.
Proof.
  revert sourceBuckets.
  induction combined as [| c rest IH]; intros [| b more]; simpl;
    try reflexivity.
  now rewrite IH.
Qed.

Lemma combine_length (summaries : list Summary) (buckets : list DayBucket.t) :
  List.length
    (fold_left (fun combined summary => addBuckets combined (dayBuckets summary))
       summaries buckets)
  = List.length buckets.
Proof.
  revert buckets. induction summaries as [| summary rest IH]; intros buckets;
    [reflexivity |].
  cbn [fold_left]. now rewrite IH, addBuckets_length.
Qed.

Lemma combine_cut (window : MonthWindow) (summaries : list Summary)
    (buckets : list DayBucket.t) :
  List.length buckets = Z.to_nat (daysInMonth window) ->
  fold_left (fun combined summary => addBuckets combined (dayBuckets summary))
    (map (cutTo window) summaries) buckets
  = fold_left (fun combined summary => addBuckets combined (dayBuckets summary))
      summaries buckets.
Proof.
  revert buckets. induction summaries as [| summary rest IH];
    intros buckets Hlen; [reflexivity |].
  cbn [map fold_left]. cbn [cutTo dayBuckets].
  rewrite <- Hlen, addBuckets_firstn.
  apply IH. now rewrite addBuckets_length.
Qed.

(** X27.  The combined summary has one bucket for each day of its own
    month, however many buckets the summaries it combines have: the
    buckets of a summary beyond the days of that month are left out.  It
    names no source. *)
Theorem combined_follows_own_month (monthText : string)
    (summaries : list Summary) (window : MonthWindow) :
  parseMonthWindow Date_local Date_getDate monthText = Some window ->
  exists combined,
    aggregateCombinedSummary Date_local Date_getDate monthText summaries
    = Some combined
    /\ List.length (dayBuckets combined) = Z.to_nat (daysInMonth window)
    /\ aggregateCombinedSummary Date_local Date_getDate monthText
         (map (cutTo window) summaries) = Some combined
    /\ source combined = None.
Proof.
  intros Hwindow. unfold aggregateCombinedSummary. rewrite Hwindow.
  eexists. split; [reflexivity |].
  cbn [dayBuckets summarize source].
  split; [now rewrite combine_length, makeEmptyDayBuckets_length |].
  split; [| reflexivity].
  now rewrite combine_cut by apply makeEmptyDayBuckets_length.
Qed.

End Dates.

Lemma no_cost_unless_asked_witness :
  exists summary,
    aggregateSourceSummary Samples.thirtyDayLocal Samples.thirtyDayDate codex "Codex" "0000-01"
      [Samples.usage codex "gpt-4" None] [("gpt-4", Samples.rates 1 1)] false
    = Some summary
    /\ totalEntries summary = 1%float
    /\ totalCostUSD summary = 0%float.
Proof.
  eexists. split; [reflexivity |]. split; [reflexivity |].
  exact (proj1 (proj2
           (no_cost_unless_asked Samples.thirtyDayLocal Samples.thirtyDayDate codex "Codex"
              "0000-01" [Samples.usage codex "gpt-4" None]
              [("gpt-4", Samples.rates 1 1)] _ eq_refl))).
Defined.

Lemma known_costs_ignore_catalog_witness :
  aggregateSourceSummary Samples.thirtyDayLocal Samples.thirtyDayDate claude "Claude" "0000-01"
    [Samples.paidUsage claude "claude-3"] [("claude-3", Samples.rates 1 1)] true
  = aggregateSourceSummary Samples.thirtyDayLocal Samples.thirtyDayDate claude "Claude" "0000-01"
      [Samples.paidUsage claude "claude-3"] [] true.
Proof.
  apply (known_costs_ignore_catalog Samples.thirtyDayLocal Samples.thirtyDayDate).
  repeat constructor.
Defined.

Lemma combined_follows_own_month_witness :
  exists combined,
    aggregateCombinedSummary Samples.thirtyDayLocal Samples.thirtyDayDate "0000-01" []
    = Some combined
    /\ List.length (dayBuckets combined) = 30.
Proof.
  destruct (combined_follows_own_month Samples.thirtyDayLocal Samples.thirtyDayDate
              "0000-01" [] _ eq_refl) as (combined & Hrun & Hlen & _).
  exists combined. split; [exact Hrun | exact Hlen].
Defined.

End AggregateFacts.
